(** * home-ci-reporter: the report lifecycle and artifact extraction

    A shallow embedding of [main.go] (commands [init], [step], [finalize]
    and [extract]) and the properties of its report state machine.

    Layout of the development:
    - [F64]: the binary64 arithmetic used by [Duration.Seconds] and by the
      success-rate computation, as correctly rounded operations on m * 2^e;
    - [GoTime]: [time.Time], [Time.Sub] and [Duration.Seconds];
    - [Base64]: [base64.StdEncoding.DecodeString];
    - the document model ([TestStep], [TestReport], ...), the process
      environment and the file system;
    - the commands, written against the external libraries (yaml, json,
      path/filepath) taken as an interface [Libs];
    - a reference instance of those libraries, to run the commands;
    - the facts about each of them, and the commands on concrete inputs. *)

From Stdlib Require Import ZArith Reals Lra Lia String Ascii List SpecFloat.
From stdpp Require Import gmap strings list fin_maps pretty.

Local Open Scope Z_scope.

(* ===================================================================== *)
(** * Part I: definitions                                                 *)
(* ===================================================================== *)

(** ** Go's [int]: 64-bit two's complement *)

Definition wrap64 (z : Z) : Z := (z + 2 ^ 63) mod 2 ^ 64 - 2 ^ 63.

Definition MaxInt : Z := 2 ^ 63 - 1.

(** ** Binary64 floating point

    A finite float is a pair m * 2^e.  Every operation returns the exact
    result rounded to the nearest value with a 53-bit significand, ties to
    even ([fl]).  The exponent range is left unbounded: the operands below
    are 64-bit integers, the constants 100 and 1e9, and quotients or
    products of those, so magnitudes stay within 2^-63 .. 2^70 (or are 0)
    and neither overflow nor gradual underflow can occur.  Signed zeros,
    infinities and NaN are not represented for the same reason. *)

Module F64.

Record float := Float { Fnum : Z; Fexp : Z }.

(** N / D rounded to the nearest integer, ties to the even one (D > 0). *)
Definition rne (N D : Z) : Z :=
  let q := N / D in
  let r := N mod D in
  if 2 * r <? D then q
  else if D <? 2 * r then q + 1
  else if Z.even q then q else q + 1.

(** (a / d) * 2^k as a fraction of integers. *)
Definition scale_num (a k : Z) : Z := a * 2 ^ Z.max 0 k.
Definition scale_den (d k : Z) : Z := d * 2 ^ Z.max 0 (- k).

(** The k with 2^52 <= (a / d) * 2^k < 2^53, for a, d > 0. *)
Definition shift53 (a d : Z) : Z :=
  let k0 := 52 - (Z.log2 a - Z.log2 d) in
  if 2 ^ 52 * scale_den d k0 <=? scale_num a k0 then k0 else k0 + 1.

(** The float nearest to (n / d) * 2^s, for d > 0. *)
Definition fl (n d s : Z) : float :=
  if n =? 0 then Float 0 0
  else
    let a := Z.abs n in
    let k := shift53 a d in
    Float (Z.sgn n * rne (scale_num a k) (scale_den d k)) (s - k).

(** [float64(z)] *)
Definition of_int (z : Z) : float := fl z 1 0.

(** [x / y], for y <> 0 *)
Definition div (x y : float) : float :=
  fl (Z.sgn (Fnum y) * Fnum x) (Z.abs (Fnum y)) (Fexp x - Fexp y).

(** [x * y] *)
Definition mul (x y : float) : float :=
  fl (Fnum x * Fnum y) 1 (Fexp x + Fexp y).

(** [x + y] *)
Definition add (x y : float) : float :=
  let e := Z.min (Fexp x) (Fexp y) in
  fl (Fnum x * 2 ^ (Fexp x - e) + Fnum y * 2 ^ (Fexp y - e)) 1 e.

Definition neg (x : float) : float := Float (- Fnum x) (Fexp x).

(** [int(x)]: the fraction is discarded (truncation towards zero); the
    values converted below are within the range of [int]. *)
Definition to_int (x : float) : Z :=
  if 0 <=? Fexp x then Fnum x * 2 ^ Fexp x
  else Z.quot (Fnum x) (2 ^ (- Fexp x)).

(** The integer printed by the verb [%.0f]: strconv rounds the exact
    binary value to zero decimals, halfway cases to the even digit. *)
Definition round_half_even (x : float) : Z :=
  Z.sgn (Fnum x) * rne (scale_num (Z.abs (Fnum x)) (Fexp x)) (scale_den 1 (Fexp x)).

(** [fmt.Sprintf("%.0f", x)] *)
Definition format_f0 (x : float) : string :=
  (if Fnum x <? 0 then "-" else EmptyString) +:+ pretty (Z.abs (round_half_even x)).

(** The real number denoted by a float, and what it is to be a correctly
    rounded result. *)
Definition bpow (e : Z) : R := powerRZ 2 e.
Definition F2R (f : float) : R := (IZR (Fnum f) * bpow (Fexp f))%R.

Definition representable (g : R) : Prop :=
  exists m e : Z, Z.abs m <= 2 ^ 53 /\ g = (IZR m * bpow e)%R.

Definition rounds (x : R) (f : float) : Prop :=
  (Rabs (F2R f - x) <= Rabs x * bpow (-53))%R /\
  forall g, representable g -> (Rabs (F2R f - x) <= Rabs (g - x))%R.

End F64.

(** ** package time *)

Module GoTime.

(** An instant of the wall clock: seconds since the Unix epoch and
    nanoseconds within the second (0 <= nsec < 1e9).  The times of this
    program come from [time.Now().UTC()] (UTC strips the monotonic
    reading) or from the report file, so [Sub] is on wall-clock values. *)
Record Time := { sec : Z; nsec : Z }.

(** The zero [Time]: January 1, year 1, 00:00:00 UTC. *)
Definition zeroTime : Time := {| sec := -62135596800; nsec := 0 |}.

(** A [Duration] is an int64 count of nanoseconds. *)
Definition Second : Z := 1000000000.
Definition minDuration : Z := - 2 ^ 63.
Definition maxDuration : Z := 2 ^ 63 - 1.

(** [t.Sub(u)]: t - u, or the minimum (maximum) duration when the
    difference is out of range. *)
Definition Sub (t u : Time) : Z :=
  let d := (sec t - sec u) * Second + (nsec t - nsec u) in
  if d <? minDuration then minDuration
  else if maxDuration <? d then maxDuration
  else d.

(** [d.Seconds()]:
<<
    sec := d / Second
    nsec := d % Second
    return float64(sec) + float64(nsec)/1e9
>>
    with Go's truncated division and remainder. *)
Definition Seconds (d : Z) : F64.float :=
  F64.add (F64.of_int (Z.quot d Second))
          (F64.div (F64.of_int (Z.rem d Second)) (F64.of_int 1000000000)).

End GoTime.

(** ** The same computations in the Standard Library's IEEE 754 model

    [SpecFloat] is the executable specification of binary floating point
    that Rocq's primitive floats are checked against; at precision 53 and
    maximal exponent 1024 it is binary64.  The two float expressions of
    the program are written here with its operations, to compare them with
    [F64] on concrete inputs. *)

Module SpecCheck.

Definition to_spec (x : F64.float) : spec_float :=
  binary_normalize 53 1024 (F64.Fnum x) (F64.Fexp x) false.

Definition spec_of_int (z : Z) : spec_float := binary_normalize 53 1024 z 0 false.

Definition spec_eqb (a b : spec_float) : bool :=
  match a, b with
  | S754_zero _, S754_zero _ => true
  | S754_finite s m e, S754_finite s' m' e' => Bool.eqb s s' && Pos.eqb m m' && Z.eqb e e'
  | _, _ => false
  end.

(** [float64(p)/float64(t)*100] *)
Definition spec_rate (p t : Z) : spec_float :=
  SFmul 53 1024 (SFdiv 53 1024 (spec_of_int p) (spec_of_int t)) (spec_of_int 100).

(** [float64(sec) + float64(nsec)/1e9] *)
Definition spec_seconds (d : Z) : spec_float :=
  SFadd 53 1024 (spec_of_int (Z.quot d GoTime.Second))
    (SFdiv 53 1024 (spec_of_int (Z.rem d GoTime.Second)) (spec_of_int 1000000000)).

End SpecCheck.

(** ** encoding/base64: [StdEncoding.DecodeString]

    The standard alphabet with mandatory [=] padding, not strict: carriage
    returns and line feeds are ignored wherever they occur, and the unused
    low bits of a final partial quantum are not checked. *)

Module Base64.

(** The value of an alphabet character ([decodeMap]). *)
Definition decodeMap (c : ascii) : option Z :=
  let n := Z.of_nat (nat_of_ascii c) in
  if (65 <=? n) && (n <=? 90) then Some (n - 65)          (* A-Z *)
  else if (97 <=? n) && (n <=? 122) then Some (n - 71)    (* a-z *)
  else if (48 <=? n) && (n <=? 57) then Some (n + 4)      (* 0-9 *)
  else if n =? 43 then Some 62                            (* + *)
  else if n =? 47 then Some 63                            (* / *)
  else None.

Definition is_newline (c : ascii) : bool :=
  let n := nat_of_ascii c in Nat.eqb n 10 || Nat.eqb n 13.

Definition is_pad (c : ascii) : bool := Nat.eqb (nat_of_ascii c) 61.

Definition byte_of (z : Z) : ascii := ascii_of_nat (Z.to_nat (Z.land z 255)).

(** The 24 bits of a quantum, from its (up to four) 6-bit values
    collected in reverse order; missing values count as 0. *)
Definition quantum_val (rev_vals : list Z) : Z :=
  match rev (rev_vals) with
  | [a] => Z.shiftl a 18
  | [a; b] => Z.lor (Z.shiftl a 18) (Z.shiftl b 12)
  | [a; b; c] => Z.lor (Z.lor (Z.shiftl a 18) (Z.shiftl b 12)) (Z.shiftl c 6)
  | [a; b; c; d] =>
      Z.lor (Z.lor (Z.lor (Z.shiftl a 18) (Z.shiftl b 12)) (Z.shiftl c 6)) d
  | _ => 0
  end.

(** The first [n] bytes of a quantum. *)
Definition quantum_bytes (n : nat) (rev_vals : list Z) : list ascii :=
  let v := quantum_val rev_vals in
  take n [byte_of (Z.shiftr v 16); byte_of (Z.shiftr v 8); byte_of v].

(** After the padding only line breaks may follow ("trailing garbage"). *)
Fixpoint only_newlines (s : list ascii) : bool :=
  match s with
  | [] => true
  | c :: s' => is_newline c && only_newlines s'
  end.

(** After the first [=] of a two-character quantum: line breaks, the
    second [=], then only line breaks. *)
Fixpoint second_pad (s : list ascii) : bool :=
  match s with
  | [] => false
  | c :: s' =>
      if is_newline c then second_pad s'
      else is_pad c && only_newlines s'
  end.

(** The decoding loop; [q] holds the values of the current quantum, most
    recent first.  [None] is [CorruptInputError]. *)
Fixpoint decode_from (q : list Z) (s : list ascii) : option (list ascii) :=
  match s with
  | [] =>
      match q with
      | [] => Some []
      | _ => None                    (* input ends inside a quantum *)
      end
  | c :: s' =>
      match decodeMap c with
      | Some v =>
          if Nat.eqb (length q) 3
          then option_map (app (quantum_bytes 3 (v :: q))) (decode_from [] s')
          else decode_from (v :: q) s'
      | None =>
          if is_newline c then decode_from q s'
          else if is_pad c then
            match length q with
            | 2%nat => if second_pad s' then Some (quantum_bytes 1 q) else None
            | 3%nat => if only_newlines s' then Some (quantum_bytes 2 q) else None
            | _ => None              (* incorrect padding *)
            end
          else None
      end
  end.

Definition DecodeString (s : string) : option string :=
  option_map string_of_list_ascii (decode_from [] (list_ascii_of_string s)).

End Base64.

(** ** Go slices

    A slice is [nil] or a (possibly empty) sequence; [len] and [append]
    treat the nil slice as the empty one, and [append] never returns nil. *)

Inductive slice (A : Type) : Type :=
  | nil_slice
  | mk_slice (l : list A).
Arguments nil_slice {A}.
Arguments mk_slice {A} l.

Definition elems {A} (s : slice A) : list A :=
  match s with
  | nil_slice => []
  | mk_slice l => l
  end.

Definition len {A} (s : slice A) : Z := Z.of_nat (length (elems s)).

Definition append {A} (s : slice A) (x : A) : slice A := mk_slice (elems s ++ [x]).

(** ** The document model *)

Import GoTime.

Record TestStep := {
  Phase : string;
  Status : string;
  Message : string;
  Timestamp : Time
}.

Record TestRunT := {
  StartTime : Time;
  Runner : string;
  ProjectName : string
}.

Record EnvironmentT := {
  OS : string;
  Arch : string;
  Shell : string
}.

Record SummaryT := {
  EndTime : Time;
  Duration : Z;
  TotalSteps : Z;
  PassedSteps : Z;
  FailedSteps : Z;
  OverallStatus : string;
  SuccessRate : string
}.

(** [Summary] is a pointer in the source: [None] is the nil pointer. *)
Record TestReport := {
  TestRun : TestRunT;
  Environment : EnvironmentT;
  Steps : slice TestStep;
  Summary : option SummaryT
}.

(** The payload of [extract]. *)
Record ArtifactContent := { Content : string }.

Record GitHubPayload := {
  Success : bool;
  Source : string;
  Branch : string;
  Commit : string;
  ArtifactName : string;
  Artifacts : gmap string ArtifactContent
}.

(** ** The process environment and the file system *)

(** What one invocation of the program finds around it.  Directories and
    permissions are not modelled: whether [os.MkdirAll] and the creation
    of a file succeed is given by [mkdir_fails] and [create_fails], and
    [write_limit], when set, is the number of bytes the process manages
    to write before the device refuses (a full disk, an I/O error). *)
Record Env := {
  now : Time;                              (* time.Now().UTC() *)
  hostname : string;                       (* os.Hostname(), its error dropped *)
  environ : gmap string string;            (* the environment variables *)
  argv0 : string;                          (* os.Args[0] *)
  runtime_GOOS : string;                   (* the platform the program runs on; *)
  runtime_GOARCH : string;                 (*   never consulted by the program  *)
  map_order : gmap string ArtifactContent -> list (string * ArtifactContent);
                                           (* the order in which range visits a map *)
  mkdir_fails : string -> bool;
  create_fails : string -> bool;
  write_limit : option nat
}.

(** Files by path, and the lines printed on standard output. *)
Record World := {
  files : gmap string string;
  stdout : list string
}.

Inductive error :=
  | PanicIndexOutOfRange
  | ErrCreateDirectory           (* "failed to create directory" *)
  | ErrReadReport                (* "failed to read report file" *)
  | ErrParseYAML                 (* "failed to parse YAML" *)
  | ErrCreateReport              (* "failed to create report file" *)
  | ErrWriteHeader               (* "failed to write header" *)
  | ErrEncodeYAML                (* "failed to encode YAML" *)
  | ErrReadPayload               (* "failed to read payload file" *)
  | ErrParsePayload              (* "failed to parse payload JSON" *)
  | ErrCreateOutputDirectory     (* "failed to create output directory" *)
  | ErrDecodeArtifact (filename : string)
  | ErrWriteArtifact (filename : string).

Inductive result (A : Type) : Type :=
  | Ok (a : A)
  | Err (e : error).
Arguments Ok {A} a.
Arguments Err {A} e.

Definition os_Getenv (env : Env) (key : string) : string :=
  default EmptyString (environ env !! key).

(** [os.ReadFile]: fails when there is no file at [path]. *)
Definition os_ReadFile (path : string) (w : World) : option string :=
  files w !! path.

(** [os.Create]: the file exists and is empty afterwards. *)
Definition os_Create (env : Env) (path : string) (w : World) : option World :=
  if create_fails env path then None
  else Some {| files := <[path := EmptyString]> (files w); stdout := stdout w |}.

Definition string_take (n : nat) (s : string) : string := substring 0 n s.

(** A write of [data] at the end of the file at [path], with [budget]
    bytes left before the device refuses: the bytes that fit are written.
    Returns whether the write was complete and the budget left. *)
Definition file_Write (budget : option nat) (path data : string) (w : World)
  : bool * option nat * World :=
  let old := default EmptyString (files w !! path) in
  match budget with
  | None =>
      (true, None, {| files := <[path := old +:+ data]> (files w); stdout := stdout w |})
  | Some n =>
      if (String.length data <=? n)%nat
      then (true, Some (n - String.length data)%nat,
            {| files := <[path := old +:+ data]> (files w); stdout := stdout w |})
      else (false, Some 0%nat,
            {| files := <[path := old +:+ string_take n data]> (files w);
               stdout := stdout w |})
  end.

Definition fmt_Println (line : string) (w : World) : World :=
  {| files := files w; stdout := stdout w ++ [line] |}.

(** ** The external libraries

    gopkg.in/yaml.v3, encoding/json and path/filepath are not part of the
    program; the commands are written against this interface.
    [yaml_Marshal r] is what an [Encoder] with indent 2 emits for [r];
    [yaml_Unmarshal] decodes a whole file into a zero [TestReport]. *)
Class Libs := {
  yaml_Marshal : TestReport -> string;
  yaml_Unmarshal : string -> option TestReport;
  json_Unmarshal : string -> option GitHubPayload;
  filepath_Dir : string -> string;
  filepath_Join : string -> string -> string
}.

(** ** The commands *)

Definition header : string := "# E2E Test Report
".

Section Commands.
Context `{Libs}.

Definition getEnvOrDefault (env : Env) (key defaultValue : string) : string :=
  let value := os_Getenv env key in
  if negb (String.eqb value EmptyString) then value else defaultValue.

Definition writeReport (env : Env) (path : string) (report : TestReport) (w : World)
  : result unit * World :=
  match os_Create env path w with
  | None => (Err ErrCreateReport, w)
  | Some w1 =>
      let '(ok, budget, w2) := file_Write (write_limit env) path header w1 in
      if negb ok then (Err ErrWriteHeader, w2)
      else
        let '(ok, _, w3) := file_Write budget path (yaml_Marshal report) w2 in
        if negb ok then (Err ErrEncodeYAML, w3)
        else (Ok tt, w3)
  end.

Definition readReport (path : string) (w : World) : result TestReport :=
  match os_ReadFile path w with
  | None => Err ErrReadReport
  | Some data =>
      match yaml_Unmarshal data with
      | None => Err ErrParseYAML
      | Some report => Ok report
      end
  end.

(** The report built by [initReport] before it is written: the zero
    report with [Steps: make([]TestStep, 0)], then the assignments. *)
Definition newReport (env : Env) (projectName : string) : TestReport :=
  {| TestRun := {| StartTime := now env;
                   Runner := hostname env;
                   ProjectName :=
                     if negb (String.eqb projectName EmptyString)
                     then projectName else EmptyString |};
     Environment := {| OS := getEnvOrDefault env "GOOS" "unknown";
                       Arch := getEnvOrDefault env "GOARCH" "unknown";
                       Shell := argv0 env |};
     Steps := mk_slice [];
     Summary := None |}.

(** The project name: [args[1]] when it is given, the empty string otherwise. *)
Definition projectName_of (rest : list string) : string :=
  match rest with
  | p :: _ => p
  | [] => EmptyString
  end.

Definition initReport (env : Env) (args : list string) (w : World)
  : result unit * World :=
  match args with
  | [] => (Err PanicIndexOutOfRange, w)
  | reportPath :: rest =>
      let projectName := projectName_of rest in
      if mkdir_fails env (filepath_Dir reportPath) then (Err ErrCreateDirectory, w)
      else writeReport env reportPath (newReport env projectName) w
  end.

Definition newStep (env : Env) (phase status message : string) : TestStep :=
  {| Phase := phase; Status := status; Message := message; Timestamp := now env |}.

Definition withStep (report : TestReport) (step : TestStep) : TestReport :=
  {| TestRun := TestRun report;
     Environment := Environment report;
     Steps := append (Steps report) step;
     Summary := Summary report |}.

Definition addStep (env : Env) (reportFile : string) (args : list string) (w : World)
  : result unit * World :=
  match args with
  | phase :: status :: message :: _ =>
      match readReport reportFile w with
      | Err e => (Err e, w)
      | Ok report =>
          writeReport env reportFile
            (withStep report (newStep env phase status message)) w
      end
  | _ => (Err PanicIndexOutOfRange, w)
  end.

(** The loop of [finalizeReport] over the steps: (passedSteps, failedSteps). *)
Definition tally (steps : list TestStep) : Z * Z :=
  fold_left
    (fun '(passedSteps, failedSteps) step =>
       if String.eqb (Status step) "passed" then (wrap64 (passedSteps + 1), failedSteps)
       else if String.eqb (Status step) "failed" then (passedSteps, wrap64 (failedSteps + 1))
       else (passedSteps, failedSteps))
    steps (0, 0).

(** [fmt.Sprintf("%.0f%%", float64(passedSteps)/float64(totalSteps)*100)] *)
Definition formatRate (passedSteps totalSteps : Z) : string :=
  F64.format_f0
    (F64.mul (F64.div (F64.of_int passedSteps) (F64.of_int totalSteps)) (F64.of_int 100))
  +:+ "%".


(** The summary computed by [finalizeReport] from the report it read. *)
Definition computeSummary (env : Env) (report : TestReport) : SummaryT :=
  let endTime := now env in
  let duration := F64.to_int (Seconds (Sub endTime (StartTime (TestRun report)))) in
  let totalSteps := len (Steps report) in
  let '(passedSteps, failedSteps) := tally (elems (Steps report)) in
  let overallStatus := if 0 <? failedSteps then "failed" else "passed" in
  let successRate :=
    if 0 <? totalSteps then formatRate passedSteps totalSteps else "0%" in
  {| EndTime := endTime;
     Duration := duration;
     TotalSteps := totalSteps;
     PassedSteps := passedSteps;
     FailedSteps := failedSteps;
     OverallStatus := overallStatus;
     SuccessRate := successRate |}.

Definition withSummary (report : TestReport) (s : SummaryT) : TestReport :=
  {| TestRun := TestRun report;
     Environment := Environment report;
     Steps := Steps report;
     Summary := Some s |}.

Definition finalizeReport (env : Env) (reportFile : string) (w : World)
  : result unit * World :=
  match readReport reportFile w with
  | Err e => (Err e, w)
  | Ok report =>
      writeReport env reportFile (withSummary report (computeSummary env report)) w
  end.

(** [os.WriteFile]: create (or truncate) the file, then write [data]. *)
Definition os_WriteFile (env : Env) (budget : option nat) (path data : string)
  (w : World) : bool * option nat * World :=
  match os_Create env path w with
  | None => (false, budget, w)
  | Some w1 => file_Write budget path data w1
  end.

(** The body of the loop of [extractArtifacts], over the entries in the
    order in which [range] yields them. *)
Fixpoint extractLoop (env : Env) (outputDir : string)
  (entries : list (string * ArtifactContent)) (budget : option nat) (w : World)
  : result unit * World :=
  match entries with
  | [] => (Ok tt, w)
  | (filename, artifact) :: rest =>
      if String.eqb (Content artifact) EmptyString || String.eqb (Content artifact) "null"
      then
        extractLoop env outputDir rest budget
          (fmt_Println ("⚠️  Skipping empty artifact: " +:+ filename) w)
      else
        match Base64.DecodeString (Content artifact) with
        | None => (Err (ErrDecodeArtifact filename), w)
        | Some content =>
            let outputPath := filepath_Join outputDir filename in
            let '(ok, budget', w1) := os_WriteFile env budget outputPath content w in
            if negb ok then (Err (ErrWriteArtifact filename), w1)
            else
              extractLoop env outputDir rest budget'
                (fmt_Println ("✅ Decoded: " +:+ filename) w1)
        end
  end.

Definition extractArtifacts (env : Env) (args : list string) (w : World)
  : result unit * World :=
  match args with
  | payloadPath :: outputDir :: _ =>
      match os_ReadFile payloadPath w with
      | None => (Err ErrReadPayload, w)
      | Some data =>
          match json_Unmarshal data with
          | None => (Err ErrParsePayload, w)
          | Some payload =>
              if mkdir_fails env outputDir then (Err ErrCreateOutputDirectory, w)
              else
                extractLoop env outputDir (map_order env (Artifacts payload))
                  (write_limit env)
                  (fmt_Println "📦 Extracting artifacts..." w)
          end
      end
  | _ => (Err PanicIndexOutOfRange, w)
  end.

End Commands.

(** The entries that [extractArtifacts] skips, and the warning it prints
    for them. *)
Definition skipped (artifact : ArtifactContent) : bool :=
  String.eqb (Content artifact) EmptyString || String.eqb (Content artifact) "null".

Definition skip_warning (filename : string) : string :=
  "⚠️  Skipping empty artifact: " +:+ filename.

(** The entries that are written to the path [p]. *)
Definition writes_to `{Libs} (outputDir p : string) (e : string * ArtifactContent) : Prop :=
  skipped e.2 = false /\ filepath_Join outputDir e.1 = p.

(** The number of steps whose status is exactly [status]. *)
Definition count_status (status : string) (steps : list TestStep) : Z :=
  Z.of_nat (length (filter (fun step => Status step = status) steps)).

(** The time from [u] to [t] in nanoseconds, as an unbounded integer. *)
Definition elapsed_ns (t u : Time) : Z :=
  (sec t - sec u) * Second + (nsec t - nsec u).

(** Two reports with the same content.  A nil and an empty [Steps] are
    both written as an empty sequence, so the steps are compared through
    [elems]. *)
Definition same_document (r r' : TestReport) : Prop :=
  TestRun r' = TestRun r /\
  Environment r' = Environment r /\
  elems (Steps r') = elems (Steps r) /\
  Summary r' = Summary r.

(** The document at [path] is read back as it was written: whatever
    report the file is the encoding of, the library decodes it to a report
    with the same content.  This is a condition on one document.  The
    program never checks it, and gopkg.in/yaml.v3 does not meet it for
    every report: a string that begins with a line feed is read back
    without it, and the document of a string made of a tab and a line
    feed is not read back at all. *)
Definition reads_back_as_written `{Libs} (path : string) (w : World) : Prop :=
  forall report,
    files w !! path = Some (header +:+ yaml_Marshal report) ->
    exists loaded,
      yaml_Unmarshal (header +:+ yaml_Marshal report) = Some loaded /\
      same_document report loaded.

(** The command can create the file and write all of it. *)
Definition no_write_fault (env : Env) (path : string) : Prop :=
  create_fails env path = false /\ write_limit env = None.

(** A sequence of [step] invocations on one report file, each a process
    of its own with its environment and its three arguments; [None] as
    soon as one of them fails. *)
Record StepCall := {
  call_env : Env;
  call_phase : string;
  call_status : string;
  call_message : string
}.

Fixpoint runSteps `{Libs} (reportFile : string) (calls : list StepCall) (w : World)
  : option World :=
  match calls with
  | [] => Some w
  | c :: rest =>
      match addStep (call_env c) reportFile
              [call_phase c; call_status c; call_message c] w with
      | (Ok _, w') => runSteps reportFile rest w'
      | (Err _, _) => None
      end
  end.

(** The document written by each call of [runSteps] is read back as written. *)
Fixpoint steps_read_back `{Libs} (reportFile : string) (calls : list StepCall) (w : World)
  : Prop :=
  match calls with
  | [] => True
  | c :: rest =>
      match addStep (call_env c) reportFile
              [call_phase c; call_status c; call_message c] w with
      | (Ok _, w') =>
          reads_back_as_written reportFile w' /\ steps_read_back reportFile rest w'
      | (Err _, _) => True
      end
  end.

(** What a step holds, and what a call submits (the timestamp is the time
    of the call). *)
Definition step_fields (step : TestStep) : string * string * string * Time :=
  (Phase step, Status step, Message step, Timestamp step).

Definition call_fields (c : StepCall) : string * string * string * Time :=
  (call_phase c, call_status c, call_message c, now (call_env c)).

(** ** A reference instance of the libraries

    A small self-delimiting codec (not YAML), a one-entry JSON table and a
    plain path concatenation: enough to run the commands on concrete
    inputs; every document it writes is read back as written. *)

Module RefLibs.

Fixpoint enc_pos (p : positive) (k : string) : string :=
  match p with
  | xH => String "H" k
  | xO q => String "O" (enc_pos q k)
  | xI q => String "I" (enc_pos q k)
  end.

Fixpoint dec_pos (s : string) : option (positive * string) :=
  match s with
  | EmptyString => None
  | String c r =>
      if Ascii.eqb c "H" then Some (xH, r)
      else if Ascii.eqb c "O" then
        match dec_pos r with Some (p, r') => Some (xO p, r') | None => None end
      else if Ascii.eqb c "I" then
        match dec_pos r with Some (p, r') => Some (xI p, r') | None => None end
      else None
  end.

Definition enc_Z (z : Z) (k : string) : string :=
  match z with
  | Z0 => String "Z" k
  | Zpos p => String "P" (enc_pos p k)
  | Zneg p => String "N" (enc_pos p k)
  end.

Definition dec_Z (s : string) : option (Z * string) :=
  match s with
  | EmptyString => None
  | String c r =>
      if Ascii.eqb c "Z" then Some (Z0, r)
      else if Ascii.eqb c "P" then
        match dec_pos r with Some (p, r') => Some (Zpos p, r') | None => None end
      else if Ascii.eqb c "N" then
        match dec_pos r with Some (p, r') => Some (Zneg p, r') | None => None end
      else None
  end.

Fixpoint enc_str (x : string) (k : string) : string :=
  match x with
  | EmptyString => String "." k
  | String c r => String "'" (String c (enc_str r k))
  end.

Fixpoint dec_str (s : string) : option (string * string) :=
  match s with
  | EmptyString => None
  | String m r =>
      if Ascii.eqb m "." then Some (EmptyString, r)
      else if Ascii.eqb m "'" then
        match r with
        | EmptyString => None
        | String c r' =>
            match dec_str r' with
            | Some (x, r'') => Some (String c x, r'')
            | None => None
            end
        end
      else None
  end.

Definition enc_time (t : Time) (k : string) : string :=
  enc_Z (sec t) (enc_Z (nsec t) k).

Definition dec_time (s : string) : option (Time * string) :=
  '(a, s) ← dec_Z s; '(b, s) ← dec_Z s; Some ({| sec := a; nsec := b |}, s).

Definition enc_step (x : TestStep) (k : string) : string :=
  enc_str (Phase x) (enc_str (Status x) (enc_str (Message x) (enc_time (Timestamp x) k))).

Definition dec_step (s : string) : option (TestStep * string) :=
  '(a, s) ← dec_str s; '(b, s) ← dec_str s; '(c, s) ← dec_str s;
  '(d, s) ← dec_time s;
  Some ({| Phase := a; Status := b; Message := c; Timestamp := d |}, s).

Fixpoint enc_steps (l : list TestStep) (k : string) : string :=
  match l with
  | [] => k
  | x :: l' => enc_step x (enc_steps l' k)
  end.

Fixpoint dec_steps (n : nat) (s : string) : option (list TestStep * string) :=
  match n with
  | O => Some ([], s)
  | S n' => '(x, s) ← dec_step s; '(l, s) ← dec_steps n' s; Some (x :: l, s)
  end.

Definition enc_summary (x : SummaryT) (k : string) : string :=
  enc_time (EndTime x) (enc_Z (Duration x) (enc_Z (TotalSteps x)
    (enc_Z (PassedSteps x) (enc_Z (FailedSteps x)
      (enc_str (OverallStatus x) (enc_str (SuccessRate x) k)))))).

Definition dec_summary (s : string) : option (SummaryT * string) :=
  '(a, s) ← dec_time s; '(b, s) ← dec_Z s; '(c, s) ← dec_Z s; '(d, s) ← dec_Z s;
  '(e, s) ← dec_Z s; '(f, s) ← dec_str s; '(g, s) ← dec_str s;
  Some ({| EndTime := a; Duration := b; TotalSteps := c; PassedSteps := d;
           FailedSteps := e; OverallStatus := f; SuccessRate := g |}, s).

Definition enc_report (r : TestReport) : string :=
  enc_time (StartTime (TestRun r)) (enc_str (Runner (TestRun r))
    (enc_str (ProjectName (TestRun r))
      (enc_str (OS (Environment r)) (enc_str (Arch (Environment r))
        (enc_str (Shell (Environment r))
          (enc_Z (len (Steps r)) (enc_steps (elems (Steps r))
            match Summary r with
            | None => String "-" EmptyString
            | Some x => String "+" (enc_summary x EmptyString)
            end))))))).

(** The steps of a document: the mark "~" stands for a document without
    a steps field, which leaves the slice nil; the encoder never writes
    it (as yaml.v3, it writes a nil slice as an empty sequence). *)
Definition dec_slice (s : string) : option (slice TestStep * string) :=
  match s with
  | EmptyString => None
  | String c r =>
      if Ascii.eqb c "~" then Some (nil_slice, r)
      else '(n, s) ← dec_Z s; '(l, s) ← dec_steps (Z.to_nat n) s; Some (mk_slice l, s)
  end.

Definition dec_report (s : string) : option TestReport :=
  '(a, s) ← dec_time s; '(b, s) ← dec_str s; '(c, s) ← dec_str s;
  '(d, s) ← dec_str s; '(e, s) ← dec_str s; '(f, s) ← dec_str s;
  '(l, s) ← dec_slice s;
  match s with
  | String m s' =>
      if Ascii.eqb m "-" then
        match s' with
        | EmptyString =>
            Some {| TestRun := {| StartTime := a; Runner := b; ProjectName := c |};
                    Environment := {| OS := d; Arch := e; Shell := f |};
                    Steps := l; Summary := None |}
        | _ => None
        end
      else if Ascii.eqb m "+" then
        match dec_summary s' with
        | Some (x, EmptyString) =>
            Some {| TestRun := {| StartTime := a; Runner := b; ProjectName := c |};
                    Environment := {| OS := d; Arch := e; Shell := f |};
                    Steps := l; Summary := Some x |}
        | _ => None
        end
      else None
  | EmptyString => None
  end.

(** The first line of a file is the comment written by [writeReport]. *)
Fixpoint skip_line (s : string) : string :=
  match s with
  | EmptyString => EmptyString
  | String c r => if Ascii.eqb c "010" then r else skip_line r
  end.

Definition dq : string := String (ascii_of_nat 34) EmptyString.

(** The payload [{"artifacts":{"a.txt":{"content":"aGVsbG8="}}}]. *)
Definition payload_json : string :=
  "{" +:+ dq +:+ "artifacts" +:+ dq +:+ ":{" +:+ dq +:+ "a.txt" +:+ dq +:+ ":{"
  +:+ dq +:+ "content" +:+ dq +:+ ":" +:+ dq +:+ "aGVsbG8=" +:+ dq +:+ "}}}".

Definition payload_value : GitHubPayload :=
  {| Success := false; Source := EmptyString; Branch := EmptyString;
     Commit := EmptyString; ArtifactName := EmptyString;
     Artifacts := {[ "a.txt" := {| Content := "aGVsbG8=" |} ]} |}.

(** The payload [{"artifacts":{"a.txt":{"content":"null"}}}]. *)
Definition null_payload_json : string :=
  "{" +:+ dq +:+ "artifacts" +:+ dq +:+ ":{" +:+ dq +:+ "a.txt" +:+ dq +:+ ":{"
  +:+ dq +:+ "content" +:+ dq +:+ ":" +:+ dq +:+ "null" +:+ dq +:+ "}}}".

Definition null_payload_value : GitHubPayload :=
  {| Success := false; Source := EmptyString; Branch := EmptyString;
     Commit := EmptyString; ArtifactName := EmptyString;
     Artifacts := {[ "a.txt" := {| Content := "null" |} ]} |}.

#[export] Instance libs : Libs := {|
  yaml_Marshal := enc_report;
  yaml_Unmarshal := fun data => dec_report (skip_line data);
  json_Unmarshal := fun data =>
    if String.eqb data payload_json then Some payload_value
    else if String.eqb data null_payload_json then Some null_payload_value
    else None;
  filepath_Dir := fun _ => ".";
  filepath_Join := fun dir name => dir +:+ "/" +:+ name
|}.

(** An environment in which nothing fails. *)
Definition env_at (t : Time) : Env :=
  {| now := t; hostname := "runner-1"; environ := ∅; argv0 := "./home-ci-reporter";
     runtime_GOOS := "linux"; runtime_GOARCH := "amd64";
     map_order := map_to_list;
     mkdir_fails := fun _ => false; create_fails := fun _ => false;
     write_limit := None |}.

Definition empty_world : World := {| files := ∅; stdout := [] |}.

(** The same, with the device refusing every byte after the first [n]. *)
Definition env_limited (t : Time) (n : nat) : Env :=
  {| now := t; hostname := "runner-1"; environ := ∅; argv0 := "./home-ci-reporter";
     runtime_GOOS := "linux"; runtime_GOARCH := "amd64";
     map_order := map_to_list;
     mkdir_fails := fun _ => false; create_fails := fun _ => false;
     write_limit := Some n |}.

Definition t0 : Time := {| sec := 1700000000; nsec := 0 |}.
Definition t1 : Time := {| sec := 1700000005; nsec := 250000000 |}.
Definition t2 : Time := {| sec := 1700000009; nsec := 0 |}.

(** The scenario [init report.yaml proj], [step build passed ok],
    [step test failed boom], [finalize]. *)
Definition w_init : World :=
  snd (initReport (env_at t0) ["report.yaml"; "proj"] empty_world).

Definition calls : list StepCall :=
  [ {| call_env := env_at t1; call_phase := "build"; call_status := "passed";
       call_message := "ok" |};
    {| call_env := env_at t2; call_phase := "test"; call_status := "failed";
       call_message := "boom" |} ].

Definition w_steps : World := default empty_world (runSteps "report.yaml" calls w_init).

Definition t3 : Time := {| sec := 1700000012; nsec := 500000000 |}.
Definition t4 : Time := {| sec := 1700000020; nsec := 0 |}.

Definition w_final : World := snd (finalizeReport (env_at t3) "report.yaml" w_steps).

(** The report after the two steps, and one with three steps of which
    one passed; a report whose start time is later than [t0]. *)
Definition r_steps : TestReport :=
  {| TestRun := {| StartTime := t0; Runner := "runner-1"; ProjectName := "proj" |};
     Environment := {| OS := "unknown"; Arch := "unknown"; Shell := "./home-ci-reporter" |};
     Steps := mk_slice
       [ {| Phase := "build"; Status := "passed"; Message := "ok"; Timestamp := t1 |};
         {| Phase := "test"; Status := "failed"; Message := "boom"; Timestamp := t2 |} ];
     Summary := None |}.

Definition r_three : TestReport :=
  {| TestRun := TestRun r_steps;
     Environment := Environment r_steps;
     Steps := mk_slice
       [ {| Phase := "build"; Status := "passed"; Message := "ok"; Timestamp := t1 |};
         {| Phase := "test"; Status := "failed"; Message := "boom"; Timestamp := t2 |};
         {| Phase := "deploy"; Status := "skipped"; Message := "n/a"; Timestamp := t2 |} ];
     Summary := None |}.

Definition r_started_later : TestReport :=
  {| TestRun := {| StartTime := t1; Runner := "runner-1"; ProjectName := EmptyString |};
     Environment := Environment r_steps;
     Steps := mk_slice [];
     Summary := None |}.


End RefLibs.

(** ** A library that does not read back what it wrote

    The reference codec, except that the phase, the status and the
    message of a step are read without their first character when that
    is a line feed, which is what gopkg.in/yaml.v3 does with such a
    string.  It serves to run the commands where a document is not read
    back as written. *)

Module LossyLibs.

Definition drop_line_feed (s : string) : string :=
  match s with
  | String c rest => if Ascii.eqb c "010" then rest else s
  | EmptyString => s
  end.

Definition read_step (step : TestStep) : TestStep :=
  {| Phase := drop_line_feed (Phase step);
     Status := drop_line_feed (Status step);
     Message := drop_line_feed (Message step);
     Timestamp := Timestamp step |}.

Definition read_report (r : TestReport) : TestReport :=
  {| TestRun := TestRun r;
     Environment := Environment r;
     Steps := match Steps r with
              | nil_slice => nil_slice
              | mk_slice l => mk_slice (map read_step l)
              end;
     Summary := Summary r |}.

Definition libs : Libs := {|
  yaml_Marshal := RefLibs.enc_report;
  yaml_Unmarshal := fun data =>
    option_map read_report (RefLibs.dec_report (RefLibs.skip_line data));
  json_Unmarshal := fun _ => None;
  filepath_Dir := fun _ => ".";
  filepath_Join := fun dir name => dir +:+ "/" +:+ name
|}.

(** A line feed. *)
Definition LF : string := String "010" EmptyString.

End LossyLibs.

(** ** The reporting commands: [parse] and [summary]

    [Time.Format] is taken as one more library function.  What the
    commands print is kept as the sequence of texts that were each
    followed by a line break: [fmt.Println(t)] and [fmt.Printf] with a
    format ending in a line break both add one element to [stdout]. *)

Class TimeFormat := time_Format_RFC3339 : Time -> string.

(** The errors of these two commands; [ErrReadReportFailed e] is
    "failed to read report", wrapping the error [e] of [readReport]. *)
Inductive render_error :=
  | RenderPanicIndexOutOfRange
  | ErrReadReportFailed (e : error)
  | ErrOpenSummaryFile           (* "failed to open GitHub summary file" *)
  | ErrWriteToSummary            (* "failed to write to summary" *)
  | ErrWriteOverallStatus        (* "failed to write overall status" *)
  | ErrWriteSuccessRate          (* "failed to write success rate" *)
  | ErrWriteDuration             (* "failed to write duration" *)
  | ErrWriteStepsHeader          (* "failed to write steps header" *)
  | ErrWriteStep                 (* "failed to write step" *)
  | ErrWriteNoSummary            (* "failed to write no summary message" *)
  | ErrReadPayloadFile           (* "failed to read payload file" *)
  | ErrParsePayloadJSON          (* "failed to parse payload JSON" *)
  | ErrWriteGitHubSummary.       (* "failed to write to GitHub summary" *)

Definition newline : string := String "010" EmptyString.

(** The bytes that reach standard output. *)
Definition console_text (lines : list string) : string :=
  fold_right (fun line rest => line +:+ newline +:+ rest) EmptyString lines.

(** [os.OpenFile(path, os.O_APPEND|os.O_WRONLY, 0644)]: there is no
    O_CREATE, so the file must exist; opening it for writing is refused
    in the cases in which creating it would be. *)
Definition os_OpenAppend (env : Env) (path : string) (w : World) : bool :=
  match files w !! path with
  | Some _ => negb (create_fails env path)
  | None => false
  end.

(** A run of writes to one file, each with the error returned when it
    fails; the first failure ends the run. *)
Fixpoint write_all (budget : option nat) (path : string)
  (chunks : list (string * render_error)) (w : World) : option render_error * World :=
  match chunks with
  | [] => (None, w)
  | (text, e) :: rest =>
      let '(ok, budget', w1) := file_Write budget path text w in
      if negb ok then (Some e, w1) else write_all budget' path rest w1
  end.

Section Reporting.
Context `{Libs} `{TimeFormat}.

(** The line of one step: ["- **%s**: %s _(%s)_\n"]. *)
Definition step_line (step : TestStep) : string :=
  "- **" +:+ Phase step +:+ "**: " +:+ Status step +:+ " _(" +:+
  time_Format_RFC3339 (Timestamp step) +:+ ")_".

Definition metrics_title : string := "### 📊 Test Metrics".
Definition steps_title : string := newline +:+ "#### 📋 Detailed Steps".
Definition no_summary_line : string := "⚠️ No summary data available".

Definition overall_line (s : SummaryT) : string := "- **Overall Status**: " +:+ OverallStatus s.
Definition rate_line (s : SummaryT) : string := "- **Success Rate**: " +:+ SuccessRate s.
Definition duration_line (s : SummaryT) : string :=
  "- **Duration**: " +:+ pretty (Duration s) +:+ "s".

Definition outputReportToConsole (report : TestReport) (w : World)
  : option render_error * World :=
  let w1 := fmt_Println metrics_title w in
  match Summary report with
  | Some s =>
      let w2 := fmt_Println (overall_line s) w1 in
      let w3 := fmt_Println (rate_line s) w2 in
      let w4 := fmt_Println (duration_line s) w3 in
      let w5 := fmt_Println steps_title w4 in
      (None, fold_left (fun w step => fmt_Println (step_line step) w)
                       (elems (Steps report)) w5)
  | None => (None, fmt_Println no_summary_line w1)
  end.

(** What [appendReportToGitHubSummary] writes, write by write. *)
Definition summary_chunks (report : TestReport) : list (string * render_error) :=
  (metrics_title +:+ newline, ErrWriteToSummary) ::
  match Summary report with
  | Some s =>
      [ (overall_line s +:+ newline, ErrWriteOverallStatus);
        (rate_line s +:+ newline, ErrWriteSuccessRate);
        (duration_line s +:+ newline, ErrWriteDuration);
        (steps_title +:+ newline, ErrWriteStepsHeader) ]
      ++ map (fun step => (step_line step +:+ newline, ErrWriteStep))
             (elems (Steps report))
  | None => [ (no_summary_line +:+ newline, ErrWriteNoSummary) ]
  end.

(** The rendering of a report, line by line. *)
Definition report_lines (report : TestReport) : list string :=
  metrics_title ::
  match Summary report with
  | Some s =>
      [overall_line s; rate_line s; duration_line s; steps_title]
      ++ map step_line (elems (Steps report))
  | None => [no_summary_line]
  end.

Definition appendReportToGitHubSummary (env : Env) (report : TestReport)
  (summaryPath : string) (w : World) : option render_error * World :=
  if negb (os_OpenAppend env summaryPath w) then (Some ErrOpenSummaryFile, w)
  else write_all (write_limit env) summaryPath (summary_chunks report) w.

Definition parseReport (env : Env) (args : list string) (w : World)
  : option render_error * World :=
  match args with
  | [] => (Some RenderPanicIndexOutOfRange, w)
  | reportPath :: _ =>
      match readReport reportPath w with
      | Err e => (Some (ErrReadReportFailed e), w)
      | Ok report =>
          let summaryPath := os_Getenv env "GITHUB_STEP_SUMMARY" in
          if String.eqb summaryPath EmptyString
          then outputReportToConsole report w
          else appendReportToGitHubSummary env report summaryPath w
      end
  end.

Definition backtick : string := String "096" EmptyString.

(** [summaryContent] without its final line break. *)
Definition summaryBody (payload : GitHubPayload) : string :=
  let emoji := if Success payload then "✅" else "❌" in
  let status := if Success payload then "SUCCESS" else "FAILURE" in
  "## " +:+ emoji +:+ " External Test Results: " +:+ status +:+ newline +:+
  newline +:+
  "### 📍 Execution Details" +:+ newline +:+
  "| Property | Value |" +:+ newline +:+
  "| :--- | :--- |" +:+ newline +:+
  "| **Source** | " +:+ Source payload +:+ " |" +:+ newline +:+
  "| **Branch** | " +:+ backtick +:+ Branch payload +:+ backtick +:+ " |" +:+ newline +:+
  "| **Commit** | " +:+ backtick +:+ Commit payload +:+ backtick +:+ " |" +:+ newline +:+
  "| **Artifact Name** | " +:+ ArtifactName payload +:+ " |".

Definition generateSummary (env : Env) (args : list string) (w : World)
  : option render_error * World :=
  match args with
  | [] => (Some RenderPanicIndexOutOfRange, w)
  | payloadPath :: _ =>
      match os_ReadFile payloadPath w with
      | None => (Some ErrReadPayloadFile, w)
      | Some data =>
          match json_Unmarshal data with
          | None => (Some ErrParsePayloadJSON, w)
          | Some payload =>
              let summaryPath := os_Getenv env "GITHUB_STEP_SUMMARY" in
              if negb (String.eqb summaryPath EmptyString) then
                if negb (os_OpenAppend env summaryPath w) then (Some ErrOpenSummaryFile, w)
                else write_all (write_limit env) summaryPath
                       [(summaryBody payload +:+ newline, ErrWriteGitHubSummary)] w
              else (None, fmt_Println (summaryBody payload) w)
          end
      end
  end.

End Reporting.

(** ** The base64 encoding

    The program only decodes; the encoding that the sender of a payload
    applies is written here to state what the decoding undoes. *)

Module Base64Enc.

(** The character of a 6-bit value. *)
Definition alphabet (v : Z) : ascii :=
  ascii_of_nat (Z.to_nat
    (if v <? 26 then v + 65
     else if v <? 52 then v + 71
     else if v <? 62 then v - 4
     else if v =? 62 then 43 else 47)).

Definition code (b : ascii) : Z := Z.of_nat (nat_of_ascii b).

Definition pad_char : ascii := "=".

(** The standard encoding, with padding (RFC 4648, section 4). *)
Fixpoint encode (bytes : list ascii) : list ascii :=
  match bytes with
  | [] => []
  | [b0] =>
      let x := code b0 in
      [alphabet (Z.shiftr x 2); alphabet (Z.shiftl (Z.land x 3) 4); pad_char; pad_char]
  | [b0; b1] =>
      let x := code b0 in
      let y := code b1 in
      [alphabet (Z.shiftr x 2);
       alphabet (Z.lor (Z.shiftl (Z.land x 3) 4) (Z.shiftr y 4));
       alphabet (Z.shiftl (Z.land y 15) 2); pad_char]
  | b0 :: b1 :: b2 :: rest =>
      let x := code b0 in
      let y := code b1 in
      let z := code b2 in
      alphabet (Z.shiftr x 2)
      :: alphabet (Z.lor (Z.shiftl (Z.land x 3) 4) (Z.shiftr y 4))
      :: alphabet (Z.lor (Z.shiftl (Z.land y 15) 2) (Z.shiftr z 6))
      :: alphabet (Z.land z 63)
      :: encode rest
  end.

Definition EncodeToString (s : string) : string :=
  string_of_list_ascii (encode (list_ascii_of_string s)).

End Base64Enc.

(** A content with its carriage returns and line feeds removed. *)
Definition strip_newlines (s : string) : string :=
  string_of_list_ascii
    (filter (fun c => Base64.is_newline c = false) (list_ascii_of_string s)).

(** A character that is neither of the alphabet, nor a line break, nor
    the padding. *)
Definition foreign (c : ascii) : bool :=
  match Base64.decodeMap c with
  | Some _ => false
  | None => negb (Base64.is_newline c) && negb (Base64.is_pad c)
  end.

(** Between two states of the world: every file is still there, with
    what it held at the beginning of what it holds now, and what was
    printed is still the beginning of the output. *)
Definition string_prefix (a b : string) : Prop := exists c, b = a +:+ c.

Definition files_kept (w w' : World) : Prop :=
  forall p, is_Some (files w !! p) -> is_Some (files w' !! p).

Definition append_only (w w' : World) : Prop :=
  forall p old, files w !! p = Some old ->
    exists new, files w' !! p = Some new /\ string_prefix old new.

(** The line that [extractArtifacts] prints for an entry it has handled. *)
Definition entry_line (e : string * ArtifactContent) : string :=
  if skipped e.2 then skip_warning e.1 else "✅ Decoded: " +:+ e.1.


(** ** The command line of [main]

    The argument validators that cobra runs before a handler; a command
    without a validator ([finalize]) takes any arguments. *)

Definition ExactArgs (n : nat) (args : list string) : bool :=
  Nat.eqb (length args) n.

Definition RangeArgs (min max : nat) (args : list string) : bool :=
  (min <=? length args)%nat && (length args <=? max)%nat.

Inductive command := initCmd | stepCmd | finalizeCmd | parseCmd | extractCmd | summaryCmd.

Definition Args (c : command) (args : list string) : bool :=
  match c with
  | initCmd => RangeArgs 1 2 args
  | stepCmd => ExactArgs 3 args
  | finalizeCmd => true
  | parseCmd => ExactArgs 1 args
  | extractCmd => ExactArgs 2 args
  | summaryCmd => ExactArgs 1 args
  end.

(** The error with which a command ends, if any; [reportFile] is the
    value of the flag [--file]. *)
Inductive exit_error :=
  | UsageError
  | CommandFailed (e : error)
  | RenderFailed (e : render_error).

Definition of_result (r : result unit * World) : option exit_error * World :=
  match r with
  | (Ok _, w) => (None, w)
  | (Err e, w) => (Some (CommandFailed e), w)
  end.

Definition of_render (r : option render_error * World) : option exit_error * World :=
  (option_map RenderFailed r.1, r.2).

Definition Execute `{Libs} `{TimeFormat} (env : Env) (c : command) (reportFile : string)
  (args : list string) (w : World) : option exit_error * World :=
  if negb (Args c args) then (Some UsageError, w)
  else
    match c with
    | initCmd => of_result (initReport env args w)
    | stepCmd => of_result (addStep env reportFile args w)
    | finalizeCmd => of_result (finalizeReport env reportFile w)
    | parseCmd => of_render (parseReport env args w)
    | extractCmd => of_result (extractArtifacts env args w)
    | summaryCmd => of_render (generateSummary env args w)
    end.

(** A panic of the runtime, in either family of errors. *)
Definition is_panic (e : exit_error) : bool :=
  match e with
  | CommandFailed PanicIndexOutOfRange => true
  | RenderFailed RenderPanicIndexOutOfRange => true
  | _ => false
  end.

(** ** A reference [Time.Format] for UTC instants of the years 0 to 9999 *)

Module RefTime.

Definition pad (width : nat) (z : Z) : string :=
  let digits := pretty z in
  String.concat EmptyString (repeat "0" (width - String.length digits)) +:+ digits.

(** The civil date of a day number counted from 1970-01-01. *)
Definition civil (days : Z) : Z * Z * Z :=
  let z := days + 719468 in
  let era := z / 146097 in
  let doe := z mod 146097 in
  let yoe := (doe - doe / 1460 + doe / 36524 - doe / 146096) / 365 in
  let doy := doe - (365 * yoe + yoe / 4 - yoe / 100) in
  let mp := (5 * doy + 2) / 153 in
  let d := doy - (153 * mp + 2) / 5 + 1 in
  let m := if mp <? 10 then mp + 3 else mp - 9 in
  let y := yoe + era * 400 + (if m <=? 2 then 1 else 0) in
  (y, m, d).

Definition format (t : Time) : string :=
  let '(y, m, d) := civil (sec t / 86400) in
  let s := sec t mod 86400 in
  pad 4 y +:+ "-" +:+ pad 2 m +:+ "-" +:+ pad 2 d +:+ "T" +:+
  pad 2 (s / 3600) +:+ ":" +:+ pad 2 (s mod 3600 / 60) +:+ ":" +:+ pad 2 (s mod 60) +:+ "Z".

#[export] Instance time_format : TimeFormat := format.

(** The variable GITHUB_STEP_SUMMARY set to [path]. *)
Definition env_summary (t : Time) (path : string) : Env :=
  {| now := t; hostname := "runner-1";
     environ := {[ "GITHUB_STEP_SUMMARY" := path ]};
     argv0 := "./home-ci-reporter";
     runtime_GOOS := "linux"; runtime_GOARCH := "amd64";
     map_order := map_to_list;
     mkdir_fails := fun _ => false; create_fails := fun _ => false;
     write_limit := None |}.

End RefTime.

(** ** More inputs for the commands *)

Module RefMore.
Import RefLibs.

(** The payload [{"artifacts":{"a.txt":{"content":"aGVsbG8="},
    "b.bin":{"content":"!!!"}}}], whose second content is not base64. *)
Definition invalid_payload_json : string :=
  "{" +:+ dq +:+ "artifacts" +:+ dq +:+ ":{" +:+ dq +:+ "a.txt" +:+ dq +:+ ":{"
  +:+ dq +:+ "content" +:+ dq +:+ ":" +:+ dq +:+ "aGVsbG8=" +:+ dq +:+ "},"
  +:+ dq +:+ "b.bin" +:+ dq +:+ ":{"
  +:+ dq +:+ "content" +:+ dq +:+ ":" +:+ dq +:+ "!!!" +:+ dq +:+ "}}}".

Definition invalid_payload_value : GitHubPayload :=
  {| Success := true; Source := "ci"; Branch := "main";
     Commit := "abc123"; ArtifactName := "logs";
     Artifacts := {[ "a.txt" := {| Content := "aGVsbG8=" |};
                     "b.bin" := {| Content := "!!!" |} ]} |}.

(** The reference libraries, their JSON table extended with that payload. *)
Definition libs_more : Libs := {|
  yaml_Marshal := enc_report;
  yaml_Unmarshal := fun data => dec_report (skip_line data);
  json_Unmarshal := fun data =>
    if String.eqb data invalid_payload_json then Some invalid_payload_value
    else @json_Unmarshal libs data;
  filepath_Dir := fun _ => ".";
  filepath_Join := fun dir name => dir +:+ "/" +:+ name
|}.

(** An environment in which [range] visits "a.txt" before "b.bin". *)
Definition env_a_then_b (t : Time) : Env :=
  {| now := t; hostname := "runner-1"; environ := ∅; argv0 := "./home-ci-reporter";
     runtime_GOOS := "linux"; runtime_GOARCH := "amd64";
     map_order := fun _ => [ ("a.txt", {| Content := "aGVsbG8=" |});
                             ("b.bin", {| Content := "!!!" |}) ];
     mkdir_fails := fun _ => false; create_fails := fun _ => false;
     write_limit := None |}.

Definition w_payload : World :=
  {| files := {[ "payload.json" := payload_json ]}; stdout := [] |}.

Definition w_invalid_payload : World :=
  {| files := {[ "payload.json" := invalid_payload_json ]}; stdout := [] |}.

(** The finalized report of the scenario, next to a summary file. *)
Definition w_with_summary_file : World :=
  {| files := <[ "summary.md" := "# Run" +:+ newline ]> (files w_final); stdout := [] |}.

End RefMore.

(* ===================================================================== *)
(** * Part II: facts                                                      *)
(* ===================================================================== *)

(** ** Correct rounding *)

Module F64Facts.
Import F64.

(** Integer rounding. *)
Lemma rne_half N D : 0 < D -> 2 * Z.abs (rne N D * D - N) <= D.
Proof.
  intros HD. unfold rne.
  pose proof (Z.div_mod N D ltac:(lia)) as E.
  pose proof (Z.mod_pos_bound N D HD) as B.
  repeat match goal with |- context [if ?b then _ else _] => destruct b eqn:? end;
    rewrite ?Z.ltb_lt, ?Z.ltb_ge in *; nia.
Qed.

Lemma rne_nearest N D k : 0 < D -> Z.abs (rne N D * D - N) <= Z.abs (k * D - N).
Proof.
  intros HD. pose proof (rne_half N D HD) as H.
  destruct (Z.eq_dec k (rne N D)) as [->|Hne]; [lia|].
  assert (D <= Z.abs (k * D - rne N D * D)) by nia.
  lia.
Qed.

Lemma rne_exact k D : 0 < D -> rne (k * D) D = k.
Proof.
  intros HD. pose proof (rne_nearest (k * D) D k HD) as H.
  replace (k * D - k * D) with 0 in H by lia. nia.
Qed.

(** Powers of two. *)
Lemma bpow_pos e : (0 < bpow e)%R.
Proof. apply powerRZ_lt; lra. Qed.

Lemma bpow_add a b : bpow (a + b) = (bpow a * bpow b)%R.
Proof. apply powerRZ_add; lra. Qed.

Lemma bpow_opp a : bpow (- a) = (/ bpow a)%R.
Proof. apply powerRZ_neg'. Qed.

Lemma bpow_IZR n : 0 <= n -> bpow n = IZR (2 ^ n).
Proof.
  intros Hn. unfold bpow. rewrite <- (Z2Nat.id n Hn) at 1 2.
  rewrite <- pow_powerRZ, <- pow_IZR. reflexivity.
Qed.

Lemma bpow_1 : bpow 1 = 2%R.
Proof. unfold bpow. simpl. lra. Qed.

Lemma bpow_le a b : a <= b -> (bpow a <= bpow b)%R.
Proof.
  intros H. replace b with (a + (b - a)) by lia. rewrite bpow_add.
  rewrite (bpow_IZR (b - a)) by lia.
  assert (1 <= 2 ^ (b - a)) by (apply Z.lt_pred_le; apply Z.pow_pos_nonneg; lia).
  apply IZR_le in H0. pose proof (bpow_pos a). nra.
Qed.

Lemma bpow_split a e : e <= a -> bpow a = (IZR (2 ^ (a - e)) * bpow e)%R.
Proof. intros. rewrite <- bpow_IZR, <- bpow_add by lia. f_equal. lia. Qed.

Lemma scale_ratio a d k : 0 < d ->
  (IZR (scale_num a k) / IZR (scale_den d k) = IZR a / IZR d * bpow k)%R.
Proof.
  intros Hd. unfold scale_num, scale_den.
  assert (IZR d <> 0)%R by (apply not_0_IZR; lia).
  rewrite !mult_IZR.
  destruct (Z_le_gt_dec 0 k).
  - rewrite (Z.max_r 0 k), (Z.max_l 0 (- k)) by lia.
    rewrite <- bpow_IZR by lia. rewrite Z.pow_0_r. field. assumption.
  - rewrite (Z.max_l 0 k), (Z.max_r 0 (- k)) by lia.
    rewrite <- (bpow_IZR (- k)) by lia. rewrite bpow_opp.
    pose proof (bpow_pos k). rewrite Z.pow_0_r. field. split; lra.
Qed.

Lemma scale_den_pos d k : 0 < d -> 0 < scale_den d k.
Proof. intros. unfold scale_den. apply Z.mul_pos_pos; [lia|]. apply Z.pow_pos_nonneg; lia. Qed.

Lemma shift53_spec a d : 0 < a -> 0 < d ->
  let X := (IZR a / IZR d * bpow (shift53 a d))%R in
  (bpow 52 <= X < bpow 53)%R.
Proof.
  intros Ha Hd. 
  pose proof (Z.log2_spec a Ha) as [La Ua].
  pose proof (Z.log2_spec d Hd) as [Ld Ud].
  pose proof (Z.log2_nonneg a). pose proof (Z.log2_nonneg d).
  set (la := Z.log2 a) in *. set (ld := Z.log2 d) in *.
  assert (Ra : (bpow la <= IZR a < bpow (la + 1))%R).
  { rewrite !bpow_IZR by lia. replace (la + 1) with (Z.succ la) by lia.
    split; [apply IZR_le | apply IZR_lt]; lia. }
  assert (Rd : (bpow ld <= IZR d < bpow (ld + 1))%R).
  { rewrite !bpow_IZR by lia. replace (ld + 1) with (Z.succ ld) by lia.
    split; [apply IZR_le | apply IZR_lt]; lia. }
  assert (Hdpos : (0 < IZR d)%R) by (apply IZR_lt; lia).
  assert (Hapos : (0 < IZR a)%R) by (apply IZR_lt; lia).
  unfold shift53. fold la ld. set (k0 := 52 - (la - ld)).
  pose proof (scale_ratio a d k0 Hd) as HS.
  pose proof (scale_den_pos d k0 Hd) as HDp. apply IZR_lt in HDp.
  (* bounds valid for k0 *)
  assert (U0 : (IZR a / IZR d * bpow k0 < bpow 53)%R).
  { replace 53 with ((la + 1) + (- ld) + k0) by (unfold k0; lia).
    rewrite (bpow_add (la + 1 + - ld)), (bpow_add (la + 1)), bpow_opp.
    pose proof (bpow_pos k0). pose proof (bpow_pos ld). pose proof (bpow_pos (la+1)).
    apply Rmult_lt_compat_r; [assumption|].
    unfold Rdiv. 
    apply Rle_lt_trans with (IZR a * / bpow ld)%R.
    - apply Rmult_le_compat_l; [lra|]. apply Rinv_le_contravar; lra.
    - apply Rmult_lt_compat_r; [apply Rinv_0_lt_compat; lra | lra]. }
  assert (L0 : (bpow 51 < IZR a / IZR d * bpow k0)%R).
  { replace 51 with (la + (- (ld + 1)) + k0) by (unfold k0; lia).
    rewrite !bpow_add, bpow_opp.
    pose proof (bpow_pos k0). pose proof (bpow_pos (ld + 1)). pose proof (bpow_pos la).
    apply Rmult_lt_compat_r; [assumption|].
    unfold Rdiv.
    apply Rle_lt_trans with (IZR a * / bpow (ld + 1))%R.
    - apply Rmult_le_compat_r; [apply Rlt_le, Rinv_0_lt_compat; lra | lra].
    - apply Rmult_lt_compat_l; [lra|]. apply Rinv_lt_contravar; [nra | lra]. }
  destruct (Z.leb_spec (2 ^ 52 * scale_den d k0) (scale_num a k0)) as [T|T]; cbv zeta.
  - split; [|assumption]. rewrite <- HS.
    apply IZR_le in T. rewrite mult_IZR, <- bpow_IZR in T by lia.
    apply Rmult_le_reg_r with (IZR (scale_den d k0)); [assumption|].
    unfold Rdiv. rewrite Rmult_assoc, Rinv_l by lra. lra.
  - rewrite bpow_add, bpow_1.
    apply IZR_lt in T. rewrite mult_IZR, <- bpow_IZR in T by lia.
    assert (IZR a / IZR d * bpow k0 < bpow 52)%R.
    { rewrite <- HS. apply Rmult_lt_reg_r with (IZR (scale_den d k0)); [assumption|].
      unfold Rdiv. rewrite Rmult_assoc, Rinv_l by lra. lra. }
    replace 52 with (51 + 1) in * by lia. replace 53 with (51 + 1 + 1) by lia.
    rewrite !bpow_add, !bpow_1 in *. lra.
Qed.


Ltac split_Rabs :=
  unfold Rabs in *; repeat match goal with
  | |- context [Rcase_abs ?x] => destruct (Rcase_abs x)
  | H : context [Rcase_abs ?x] |- _ => destruct (Rcase_abs x)
  end.

Lemma rne_nearest_R N D k : 0 < D ->
  (Rabs (IZR (rne N D) - IZR N / IZR D) <= Rabs (IZR k - IZR N / IZR D))%R.
Proof.
  intros HD. pose proof (rne_nearest N D k HD) as H.
  assert (HDR : (0 < IZR D)%R) by (apply IZR_lt; lia).
  apply IZR_le in H. rewrite !abs_IZR, !minus_IZR, !mult_IZR in H.
  replace (IZR (rne N D) - IZR N / IZR D)%R
    with ((IZR (rne N D) * IZR D - IZR N) * / IZR D)%R by (field; lra).
  replace (IZR k - IZR N / IZR D)%R
    with ((IZR k * IZR D - IZR N) * / IZR D)%R by (field; lra).
  rewrite !Rabs_mult. apply Rmult_le_compat_r; [apply Rabs_pos | exact H].
Qed.

Lemma rne_half_R N D : 0 < D ->
  (Rabs (IZR (rne N D) - IZR N / IZR D) <= / 2)%R.
Proof.
  intros HD. pose proof (rne_half N D HD) as H.
  assert (HDR : (0 < IZR D)%R) by (apply IZR_lt; lia).
  apply IZR_le in H. rewrite mult_IZR, abs_IZR, minus_IZR, mult_IZR in H.
  replace (IZR (rne N D) - IZR N / IZR D)%R
    with ((IZR (rne N D) * IZR D - IZR N) * / IZR D)%R by (field; lra).
  rewrite Rabs_mult, (Rabs_right (/ IZR D)) by (apply Rle_ge, Rlt_le, Rinv_0_lt_compat; lra).
  apply Rmult_le_reg_r with (IZR D); [assumption|].
  rewrite Rmult_assoc, Rinv_l by lra. lra.
Qed.

Lemma rne_nearest_dyadic N D mg j : 0 < D ->
  (bpow 52 <= IZR N / IZR D)%R -> Z.abs mg <= 2 ^ 53 ->
  (Rabs (IZR (rne N D) - IZR N / IZR D) <= Rabs (IZR mg * bpow j - IZR N / IZR D))%R.
Proof.
  intros HD HX Hmg.
  destruct (Z_le_gt_dec 0 j) as [Hj|Hj].
  - rewrite bpow_IZR, <- mult_IZR by lia. apply rne_nearest_R; assumption.
  - eapply Rle_trans; [apply (rne_nearest_R N D (2 ^ 52) HD)|].
    rewrite <- bpow_IZR by lia.
    assert (Hb : (bpow j <= / 2)%R).
    { replace (/ 2)%R with (bpow (- (1))) by (rewrite bpow_opp, bpow_1; reflexivity).
      apply bpow_le; lia. }
    pose proof (bpow_pos j) as Hp.
    assert (Hm : (Rabs (IZR mg) <= bpow 53)%R).
    { rewrite <- abs_IZR, bpow_IZR by lia. apply IZR_le; assumption. }
    assert (E53 : bpow 53 = (2 * bpow 52)%R).
    { replace 53 with (1 + 52) by lia. rewrite bpow_add, bpow_1. reflexivity. }
    pose proof (bpow_pos 52).
    assert (IZR mg * bpow j <= bpow 52)%R.
    { apply Rle_trans with (Rabs (IZR mg) * bpow j)%R.
      - apply Rmult_le_compat_r; [lra | apply Rle_abs].
      - pose proof (Rabs_pos (IZR mg)). nra. }
    split_Rabs; lra.
Qed.

Lemma F2R_fl_zero d s : F2R (fl 0 d s) = 0%R.
Proof. unfold fl, F2R. simpl. lra. Qed.

Lemma fl_rounds n d s : 0 < d -> rounds (IZR n / IZR d * bpow s) (fl n d s).
Proof.
  intros Hd. assert (HdR : (0 < IZR d)%R) by (apply IZR_lt; lia).
  destruct (Z.eq_dec n 0) as [->|Hn].
  { unfold rounds. rewrite F2R_fl_zero.
    replace (0 / IZR d * bpow s)%R with 0%R by (field; lra).
    rewrite Rminus_0_r, Rabs_R0. split; [lra|]. intros g _. apply Rabs_pos. }
  unfold fl. rewrite (proj2 (Z.eqb_neq n 0) Hn).
  set (a := Z.abs n). set (k := shift53 a d).
  set (N := scale_num a k). set (D := scale_den d k).
  assert (Ha : 0 < a) by (unfold a; lia).
  pose proof (shift53_spec a d Ha Hd) as HX. cbv zeta in HX. fold k in HX.
  pose proof (scale_ratio a d k Hd) as HS. fold N D in HS. rewrite <- HS in HX.
  assert (HD : 0 < D) by (apply scale_den_pos; assumption).
  set (X := (IZR N / IZR D)%R) in *.
  set (m := rne N D).
  assert (Sg : (IZR (Z.sgn n) * IZR (Z.sgn n) = 1)%R).
  { rewrite <- mult_IZR. f_equal. destruct n; simpl; lia. }
  assert (Hx : (IZR n / IZR d * bpow s = IZR (Z.sgn n) * X * bpow (s - k))%R).
  { rewrite HS. replace (IZR n) with (IZR (Z.sgn n) * IZR a)%R.
    - replace s with ((s - k) + k) at 1 by lia. rewrite bpow_add. field. lra.
    - rewrite <- mult_IZR. f_equal. unfold a. lia. }
  assert (Hf : (F2R (Float (Z.sgn n * m) (s - k)) - IZR n / IZR d * bpow s
                = IZR (Z.sgn n) * ((IZR m - X) * bpow (s - k)))%R).
  { rewrite Hx. unfold F2R. simpl. rewrite mult_IZR. ring. }
  assert (Hsa : Rabs (IZR (Z.sgn n)) = 1%R).
  { rewrite <- abs_IZR. f_equal. destruct n; simpl; lia. }
  pose proof (bpow_pos (s - k)) as Hp.
  unfold rounds. rewrite Hf, Rabs_mult, Hsa, Rmult_1_l, Rabs_mult, (Rabs_right (bpow _)) by lra.
  split.
  - rewrite Hx, !Rabs_mult, Hsa, Rmult_1_l, (Rabs_right (bpow _)) by lra.
    pose proof (rne_half_R N D HD) as Hh. fold X m in Hh.
    assert (E : bpow (-53) = (/ 2 * / bpow 52)%R).
    { replace (-53) with (- (1) + - (52)) by lia. rewrite bpow_add, !bpow_opp, bpow_1. reflexivity. }
    pose proof (bpow_pos 52). rewrite E, (Rabs_right X) by lra.
    assert (1 <= X * / bpow 52)%R.
    { apply Rmult_le_reg_r with (bpow 52); [lra|]. rewrite Rmult_assoc, Rinv_l; lra. }
    pose proof (Rabs_pos (IZR m - X)). nra.
  - intros g (mg & eg & Hmg & ->).
    replace (IZR mg * bpow eg - IZR n / IZR d * bpow s)%R
      with (IZR (Z.sgn n) * ((IZR (Z.sgn n * mg) * bpow (eg - (s - k)) - X) * bpow (s - k)))%R.
    + rewrite Rabs_mult, Hsa, Rmult_1_l, Rabs_mult, (Rabs_right (bpow (s - k))) by lra.
      apply Rmult_le_compat_r; [lra|].
      apply rne_nearest_dyadic; [assumption | exact (proj1 HX) |].
      destruct n; simpl; lia.
    + rewrite Hx, mult_IZR. replace eg with ((eg - (s - k)) + (s - k)) at 2 by lia.
      rewrite bpow_add. 
      transitivity ((IZR (Z.sgn n) * IZR (Z.sgn n)) * IZR mg * bpow (eg - (s - k)) * bpow (s - k) - IZR (Z.sgn n) * X * bpow (s - k))%R; [ring|].
      rewrite Sg. ring.
Qed.


Lemma rounds_exact x f : representable x -> rounds x f -> F2R f = x.
Proof.
  intros Hr [_ Hn]. specialize (Hn x Hr).
  replace (x - x)%R with 0%R in Hn by ring. rewrite Rabs_R0 in Hn.
  pose proof (Rabs_pos (F2R f - x)). split_Rabs; lra.
Qed.

Lemma representable_IZR z : Z.abs z <= 2 ^ 53 -> representable (IZR z).
Proof. intros H. exists z, 0. split; [assumption|]. unfold bpow. simpl. ring. Qed.

Lemma of_int_rounds z : rounds (IZR z) (of_int z).
Proof.
  pose proof (fl_rounds z 1 0 ltac:(lia)) as H.
  replace (IZR z / 1 * bpow 0)%R with (IZR z) in H; [exact H|].
  unfold bpow. simpl. field.
Qed.

Lemma of_int_exact z : Z.abs z <= 2 ^ 53 -> F2R (of_int z) = IZR z.
Proof. intros H. apply rounds_exact; [apply representable_IZR, H | apply of_int_rounds]. Qed.

Lemma div_rounds x y : Fnum y <> 0 -> rounds (F2R x / F2R y) (div x y).
Proof.
  intros Hy. unfold div.
  pose proof (fl_rounds (Z.sgn (Fnum y) * Fnum x) (Z.abs (Fnum y)) (Fexp x - Fexp y) ltac:(lia)) as H.
  replace (F2R x / F2R y)%R
    with (IZR (Z.sgn (Fnum y) * Fnum x) / IZR (Z.abs (Fnum y)) * bpow (Fexp x - Fexp y))%R; [exact H|].
  unfold F2R. replace (Fexp x - Fexp y) with (Fexp x + - Fexp y) by lia.
  rewrite bpow_add, bpow_opp, mult_IZR.
  pose proof (bpow_pos (Fexp y)).
  assert (IZR (Fnum y) <> 0)%R by (apply not_0_IZR; assumption).
  assert (IZR (Z.abs (Fnum y)) <> 0)%R by (apply not_0_IZR; lia).
  assert (E : (IZR (Z.sgn (Fnum y)) * IZR (Fnum y) = IZR (Z.abs (Fnum y)))%R).
  { rewrite <- mult_IZR. f_equal. lia. }
  apply Rmult_eq_reg_r with (IZR (Z.abs (Fnum y)) * IZR (Fnum y) * bpow (Fexp y))%R.
  - field_simplify; try lra; try (split; lra). rewrite <- E. ring.
  - repeat apply Rmult_integral_contrapositive_currified; lra.
Qed.


Lemma add_rounds x y : rounds (F2R x + F2R y) (add x y).
Proof.
  unfold add. set (e := Z.min (Fexp x) (Fexp y)).
  pose proof (fl_rounds (Fnum x * 2 ^ (Fexp x - e) + Fnum y * 2 ^ (Fexp y - e)) 1 e ltac:(lia)) as H.
  replace (F2R x + F2R y)%R
    with (IZR (Fnum x * 2 ^ (Fexp x - e) + Fnum y * 2 ^ (Fexp y - e)) / 1 * bpow e)%R; [exact H|].
  unfold F2R.
  rewrite (bpow_split (Fexp x) e), (bpow_split (Fexp y) e) by (unfold e; lia).
  rewrite plus_IZR, !mult_IZR. field.
Qed.

(** Sign symmetry. *)

Lemma fl_opp n d s : fl (- n) d s = neg (fl n d s).
Proof.
  unfold fl. destruct (Z.eqb_spec n 0) as [->|Hn]; [reflexivity|].
  rewrite (proj2 (Z.eqb_neq (- n) 0)) by lia.
  rewrite Z.abs_opp, Z.sgn_opp. unfold neg. simpl. f_equal. lia.
Qed.

Lemma of_int_opp z : of_int (- z) = neg (of_int z).
Proof. apply fl_opp. Qed.

Lemma div_neg_l x y : div (neg x) y = neg (div x y).
Proof. unfold div. simpl. rewrite <- fl_opp. f_equal. lia. Qed.

Lemma add_neg x y : add (neg x) (neg y) = neg (add x y).
Proof. unfold add. simpl. rewrite <- fl_opp. f_equal. lia. Qed.

Lemma to_int_neg x : to_int (neg x) = - to_int x.
Proof.
  unfold to_int. simpl. destruct (0 <=? Fexp x) eqn:E; [lia|].
  apply Z.leb_gt in E. apply Z.quot_opp_l.
  assert (0 < 2 ^ (- Fexp x)) by (apply Z.pow_pos_nonneg; lia). lia.
Qed.

Lemma to_int_trunc x k : 0 <= k ->
  (IZR k <= F2R x < IZR k + 1)%R -> to_int x = k.
Proof.
  intros Hk [Hl Hu]. unfold to_int, F2R in *.
  destruct (Z.leb_spec 0 (Fexp x)) as [He|He].
  - rewrite bpow_IZR, <- mult_IZR in * by assumption.
    rewrite <- plus_IZR in Hu. apply le_IZR in Hl. apply lt_IZR in Hu. lia.
  - set (P := 2 ^ (- Fexp x)).
    assert (HP : 0 < P) by (apply Z.pow_pos_nonneg; lia).
    assert (E : bpow (Fexp x) = (/ IZR P)%R).
    { replace (Fexp x) with (- (- Fexp x)) at 1 by lia. rewrite bpow_opp, bpow_IZR by lia. reflexivity. }
    rewrite E in *. assert (HPR : (0 < IZR P)%R) by (apply IZR_lt; lia).
    assert (L : k * P <= Fnum x).
    { apply le_IZR. rewrite mult_IZR. apply Rmult_le_reg_r with (/ IZR P)%R;
        [apply Rinv_0_lt_compat; lra|]. rewrite Rmult_assoc, Rinv_r by lra. lra. }
    assert (U : Fnum x < (k + 1) * P).
    { apply lt_IZR. rewrite mult_IZR, plus_IZR. apply Rmult_lt_reg_r with (/ IZR P)%R;
        [apply Rinv_0_lt_compat; lra|]. rewrite Rmult_assoc, Rinv_r by lra. lra. }
    rewrite Z.quot_div_nonneg by nia.
    symmetry. apply Z.div_unique with (Fnum x - k * P); lia.
Qed.



Lemma bpow_neg_IZR n : 0 <= n -> bpow (Z.opp n) = (/ IZR (2 ^ n))%R.
Proof. intros. rewrite bpow_opp, bpow_IZR by assumption. reflexivity. Qed.

Lemma bpow_m53 : bpow (-53) = (/ 9007199254740992)%R.
Proof. exact (bpow_neg_IZR 53 ltac:(lia)). Qed.

Lemma bpow_m29 : bpow (-29) = (/ 536870912)%R.
Proof. exact (bpow_neg_IZR 29 ltac:(lia)). Qed.

End F64Facts.

(** ** Durations in seconds *)

Module GoTimeFacts.
Import F64 F64Facts GoTime.

Lemma of_int_1e9 : of_int 1000000000 = Float 8388608000000000 (-23).
Proof. vm_compute. reflexivity. Qed.

Lemma Seconds_opp d : Seconds (- d) = neg (Seconds d).
Proof.
  unfold Seconds. rewrite Z.quot_opp_l, Z.rem_opp_l by (unfold Second; lia).
  rewrite !of_int_opp, div_neg_l, add_neg. reflexivity.
Qed.

Lemma Seconds_trunc_nonneg d :
  0 <= d < 2 ^ 24 * Second -> to_int (Seconds d) = Z.quot d Second.
Proof.
  intros Hd. unfold Seconds.
  pose proof (Z.quot_rem' d Second) as E.
  pose proof (Z.rem_bound_pos d Second ltac:(lia) ltac:(unfold Second; lia)) as Hr.
  assert (Hq : 0 <= Z.quot d Second < 2 ^ 24).
  { split; [apply Z.quot_pos; unfold Second; lia|].
    apply Z.quot_lt_upper_bound; unfold Second in *; lia. }
  set (sec := Z.quot d Second) in *. set (ns := Z.rem d Second) in *.
  assert (HA : F2R (of_int sec) = IZR sec) by (apply of_int_exact; lia).
  assert (HB : F2R (of_int ns) = IZR ns) by (apply of_int_exact; unfold Second in *; lia).
  assert (HC : F2R (of_int 1000000000) = 1000000000%R) by (apply of_int_exact; lia).
  pose proof (div_rounds (of_int ns) (of_int 1000000000)
                ltac:(rewrite of_int_1e9; simpl; lia)) as [HQ _].
  rewrite HB, HC in HQ.
  set (q := F2R (div (of_int ns) (of_int 1000000000))) in *.
  pose proof (add_rounds (of_int sec) (div (of_int ns) (of_int 1000000000))) as [_ HS].
  rewrite HA in HS. fold q in HS.
  set (S := F2R (add (of_int sec) (div (of_int ns) (of_int 1000000000)))) in *.
  assert (Hns : (0 <= IZR ns <= 999999999)%R).
  { split; [apply IZR_le; lia | apply IZR_le; unfold Second in *; lia]. }
  assert (Hu : (0 < bpow (-53) < / 1000000000000000)%R).
  { split; [apply bpow_pos|]. rewrite bpow_m53. lra. }
  assert (Hx : (0 <= IZR ns / 1000000000 <= 999999999 / 1000000000)%R) by (split; lra).
  rewrite (Rabs_right (IZR ns / 1000000000)) in HQ by lra.
  assert (Hqb : (0 <= q <= 1 - 999 / 1000000000000)%R).
  { set (u := bpow (-53)) in *. set (x := (IZR ns / 1000000000)%R) in *.
    split; split_Rabs; nra. }
  assert (Hsec : (0 <= IZR sec)%R) by (apply IZR_le; lia).
  apply to_int_trunc; [lia|]. fold S. split.
  - specialize (HS (IZR sec) (representable_IZR sec ltac:(lia))).
    split_Rabs; lra.
  - assert (Hg : representable (IZR sec + 1 - / 536870912)).
    { exists ((sec + 1) * 2 ^ 29 - 1), (-29). split; [lia|].
      rewrite bpow_m29, minus_IZR, mult_IZR, plus_IZR.
      change (2 ^ 29) with 536870912. field. }
    specialize (HS _ Hg). split_Rabs; lra.
Qed.

Lemma Seconds_trunc d :
  Z.abs d < 2 ^ 24 * Second -> to_int (Seconds d) = Z.quot d Second.
Proof.
  intros Hd. destruct (Z_le_gt_dec 0 d).
  - apply Seconds_trunc_nonneg. lia.
  - pose proof (Seconds_trunc_nonneg (- d) ltac:(lia)) as H.
    rewrite Seconds_opp, to_int_neg, Z.quot_opp_l in H by (unfold Second; lia). lia.
Qed.

End GoTimeFacts.

(** ** The success rate *)

Module RateFacts.
Import F64 F64Facts.






End RateFacts.

(** ** The store: [writeReport] and [readReport] *)

Section StoreFacts.
Context `{Libs}.

Lemma file_Write_complete budget path data w budget' w' :
  file_Write budget path data w = (true, budget', w') ->
  files w' = <[path := default EmptyString (files w !! path) +:+ data]> (files w) /\
  stdout w' = stdout w.
Proof.
  unfold file_Write. destruct budget as [n|].
  - destruct (String.length data <=? n)%nat; intros [= <- <-]; auto.
  - intros [= <- <-]; auto.
Qed.

(** A successful [writeReport] leaves the banner and the whole document
    at [path], and touches nothing else. *)
Lemma writeReport_Ok_inv env path report w w' :
  writeReport env path report w = (Ok tt, w') ->
  files w' = <[path := header +:+ yaml_Marshal report]> (files w) /\
  stdout w' = stdout w.
Proof.
  unfold writeReport, os_Create.
  destruct (create_fails env path); [discriminate|].
  destruct (file_Write (write_limit env) path header _) as [[ok1 b1] w1] eqn:E1.
  destruct ok1; [|discriminate]. simpl.
  destruct (file_Write b1 path (yaml_Marshal report) w1) as [[ok2 b2] w2] eqn:E2.
  destruct ok2; [|discriminate]. simpl. intros [= <-].
  apply file_Write_complete in E1 as [F1 S1], E2 as [F2 S2]. simpl in *.
  rewrite lookup_insert_eq in F1. simpl in F1.
  rewrite F2, F1, lookup_insert_eq. simpl.
  rewrite !insert_insert_eq. split; [reflexivity | congruence].
Qed.

Lemma writeReport_no_fault env path report w :
  no_write_fault env path ->
  writeReport env path report w =
  (Ok tt, {| files := <[path := header +:+ yaml_Marshal report]> (files w);
             stdout := stdout w |}).
Proof.
  intros [Hc Hl]. unfold writeReport, os_Create, file_Write. rewrite Hc, Hl. simpl.
  rewrite !lookup_insert_eq. simpl. rewrite !insert_insert_eq. reflexivity.
Qed.

Lemma readReport_Ok_inv path w report :
  readReport path w = Ok report ->
  exists data, files w !! path = Some data /\ yaml_Unmarshal data = Some report.
Proof.
  unfold readReport, os_ReadFile. destruct (files w !! path) as [data|]; [|discriminate].
  destruct (yaml_Unmarshal data) eqn:E; [|discriminate].
  intros [= <-]. eauto.
Qed.

Lemma readReport_written path w report :
  reads_back_as_written path w ->
  files w !! path = Some (header +:+ yaml_Marshal report) ->
  exists r', readReport path w = Ok r' /\ same_document report r'.
Proof.
  intros Hback Hf. destruct (Hback report Hf) as (r' & Hu & Hs).
  exists r'. split; [|assumption].
  unfold readReport, os_ReadFile. rewrite Hf, Hu. reflexivity.
Qed.

Lemma addStep_Ok_inv env path args w w' :
  addStep env path args w = (Ok tt, w') ->
  exists phase status message rest report,
    args = phase :: status :: message :: rest /\
    readReport path w = Ok report /\
    files w' = <[path := header +:+
                   yaml_Marshal (withStep report (newStep env phase status message))]>
                 (files w) /\
    stdout w' = stdout w.
Proof.
  unfold addStep. destruct args as [|phase [|status [|message rest]]]; try discriminate.
  destruct (readReport path w) as [report|e] eqn:E; [|discriminate].
  intros Hw. apply writeReport_Ok_inv in Hw as [Hf Hs].
  exists phase, status, message, rest, report. auto.
Qed.

Lemma finalizeReport_Ok_inv env path w w' :
  finalizeReport env path w = (Ok tt, w') ->
  exists report,
    readReport path w = Ok report /\
    files w' = <[path := header +:+
                   yaml_Marshal (withSummary report (computeSummary env report))]>
                 (files w) /\
    stdout w' = stdout w.
Proof.
  unfold finalizeReport.
  destruct (readReport path w) as [report|e] eqn:E; [|discriminate].
  intros Hw. apply writeReport_Ok_inv in Hw as [Hf Hs]. eauto.
Qed.

End StoreFacts.

(** ** The reference codec reads back what it writes *)

Module RefLibsFacts.
Import RefLibs.

Lemma dec_pos_enc p k : dec_pos (enc_pos p k) = Some (p, k).
Proof. induction p as [p IH|p IH|]; simpl; rewrite ?IH; reflexivity. Qed.

Lemma dec_Z_enc z k : dec_Z (enc_Z z k) = Some (z, k).
Proof. destruct z; simpl; rewrite ?dec_pos_enc; reflexivity. Qed.

Lemma dec_str_enc x k : dec_str (enc_str x k) = Some (x, k).
Proof. induction x as [|c x IH]; simpl; rewrite ?IH; reflexivity. Qed.

Lemma dec_time_enc t k : dec_time (enc_time t k) = Some (t, k).
Proof.
  unfold dec_time, enc_time. rewrite dec_Z_enc. simpl. rewrite dec_Z_enc. simpl.
  destruct t; reflexivity.
Qed.

Lemma dec_step_enc x k : dec_step (enc_step x k) = Some (x, k).
Proof.
  unfold dec_step, enc_step.
  repeat (rewrite dec_str_enc; simpl). rewrite dec_time_enc. simpl.
  destruct x; reflexivity.
Qed.

Lemma dec_steps_enc l k : dec_steps (length l) (enc_steps l k) = Some (l, k).
Proof.
  induction l as [|x l IH]; simpl; [reflexivity|].
  rewrite dec_step_enc. simpl. rewrite IH. reflexivity.
Qed.

Lemma dec_slice_enc (st : slice TestStep) k :
  dec_slice (enc_Z (len st) (enc_steps (elems st) k)) = Some (mk_slice (elems st), k).
Proof.
  unfold dec_slice.
  assert (E : forall z k', exists c r, enc_Z z k' = String c r /\ Ascii.eqb c "~" = false).
  { intros [|q|q] k'; simpl; eauto. }
  destruct (E (len st) (enc_steps (elems st) k)) as (c & r & Hc & Hne).
  rewrite Hc, Hne, <- Hc. rewrite dec_Z_enc. simpl.
  unfold len. rewrite Nat2Z.id, dec_steps_enc. reflexivity.
Qed.

Lemma dec_summary_enc x k : dec_summary (enc_summary x k) = Some (x, k).
Proof.
  unfold dec_summary, enc_summary.
  rewrite dec_time_enc. simpl.
  repeat (rewrite dec_Z_enc; simpl). repeat (rewrite dec_str_enc; simpl).
  destruct x; reflexivity.
Qed.

Lemma dec_report_enc r :
  dec_report (enc_report r) =
  Some {| TestRun := TestRun r; Environment := Environment r;
          Steps := mk_slice (elems (Steps r)); Summary := Summary r |}.
Proof.
  unfold dec_report, enc_report.
  rewrite dec_time_enc. simpl.
  repeat (rewrite dec_str_enc; simpl).
  rewrite dec_slice_enc. simpl.
  destruct r as [[] [] st [x|]]; simpl.
  - rewrite dec_summary_enc. reflexivity.
  - reflexivity.
Qed.

(** Every document of the reference codec is read back as written. *)
Lemma ref_reads_back path w : reads_back_as_written path w.
Proof.
  intros r _. eexists. split.
  - simpl. apply dec_report_enc.
  - repeat split.
Qed.


End RefLibsFacts.

(** ** The tally of [finalizeReport] *)

Section TallyFacts.

Lemma wrap64_small z : - 2 ^ 63 <= z < 2 ^ 63 -> wrap64 z = z.
Proof. intros Hz. unfold wrap64. rewrite Z.mod_small; lia. Qed.


Lemma count_status_cons status step steps :
  count_status status (step :: steps) =
  (if decide (Status step = status) then 1 else 0) + count_status status steps.
Proof.
  unfold count_status. rewrite filter_cons.
  destruct (decide (Status step = status)); simpl length; lia.
Qed.

Lemma tally_from steps p0 f0 :
  0 <= p0 -> 0 <= f0 ->
  p0 + Z.of_nat (length steps) <= MaxInt ->
  f0 + Z.of_nat (length steps) <= MaxInt ->
  fold_left
    (fun '(passedSteps, failedSteps) step =>
       if String.eqb (Status step) "passed" then (wrap64 (passedSteps + 1), failedSteps)
       else if String.eqb (Status step) "failed" then (passedSteps, wrap64 (failedSteps + 1))
       else (passedSteps, failedSteps))
    steps (p0, f0)
  = (p0 + count_status "passed" steps, f0 + count_status "failed" steps).
Proof.
  revert p0 f0. induction steps as [|step steps IH]; intros p0 f0 Hp Hf Bp Bf.
  - unfold count_status. simpl. f_equal; lia.
  - simpl fold_left. rewrite !count_status_cons.
    simpl length in Bp, Bf. unfold MaxInt in *.
    destruct (String.eqb_spec (Status step) "passed") as [E|E].
    + rewrite E. rewrite wrap64_small by lia.
      rewrite IH by (unfold MaxInt; lia).
      rewrite decide_True by reflexivity. rewrite decide_False by discriminate.
      f_equal; lia.
    + destruct (String.eqb_spec (Status step) "failed") as [E'|E'].
      * rewrite E'. rewrite wrap64_small by lia.
        rewrite IH by (unfold MaxInt; lia).
        rewrite decide_False by discriminate. rewrite decide_True by reflexivity.
        f_equal; lia.
      * rewrite IH by (unfold MaxInt; lia).
        rewrite !decide_False by assumption. f_equal; lia.
Qed.

Lemma tally_counts steps :
  Z.of_nat (length steps) <= MaxInt ->
  tally steps = (count_status "passed" steps, count_status "failed" steps).
Proof.
  intros Hl. unfold tally. rewrite tally_from by lia. reflexivity.
Qed.

Lemma count_status_pos status steps :
  0 < count_status status steps <-> exists step, step ∈ steps /\ Status step = status.
Proof.
  unfold count_status. split.
  - intros Hc. destruct (filter _ steps) as [|step l] eqn:E; [simpl in Hc; lia|].
    assert (Hin : step ∈ filter (fun step => Status step = status) steps)
      by (rewrite E; left).
    apply list_elem_of_filter in Hin as [Hs Hin]. eauto.
  - intros (step & Hin & Hs).
    assert (Hf : step ∈ filter (fun step => Status step = status) steps)
      by (apply list_elem_of_filter; auto).
    destruct (filter _ steps); [inversion Hf | simpl; lia].
Qed.

End TallyFacts.

(* ===================================================================== *)
(** * Part III: the properties of the commands                            *)
(* ===================================================================== *)

(** ** The summary *)

Section SummaryFacts.
Import F64 F64Facts GoTimeFacts RateFacts.

Lemma computeSummary_fields env report :
  len (Steps report) <= MaxInt ->
  let s := computeSummary env report in
  let steps := elems (Steps report) in
  EndTime s = now env /\
  Duration s = to_int (Seconds (Sub (now env) (StartTime (TestRun report)))) /\
  TotalSteps s = Z.of_nat (length steps) /\
  PassedSteps s = count_status "passed" steps /\
  FailedSteps s = count_status "failed" steps /\
  OverallStatus s = (if 0 <? FailedSteps s then "failed" else "passed") /\
  SuccessRate s =
    (if 0 <? TotalSteps s then formatRate (PassedSteps s) (TotalSteps s) else "0%").
Proof.
  intros Hl. unfold computeSummary. rewrite tally_counts by exact Hl.
  cbv zeta. simpl. repeat split; reflexivity.
Qed.

Lemma Sub_in_range t u :
  minDuration <= elapsed_ns t u <= maxDuration -> Sub t u = elapsed_ns t u.
Proof.
  unfold Sub, elapsed_ns. intros Hr. cbv zeta.
  destruct (Z.ltb_spec ((sec t - sec u) * Second + (nsec t - nsec u)) minDuration); [lia|].
  destruct (Z.ltb_spec maxDuration ((sec t - sec u) * Second + (nsec t - nsec u))); [lia|].
  reflexivity.
Qed.

(** C2 (as amended).  When the run is shorter than 2^24 seconds (about 194
    days) in either direction, [duration_seconds] is the elapsed time
    [end_time - run.start_time] in whole seconds, truncated towards zero:
    it equals max(0, elapsed) when the end does not precede the start, and
    it is negative, not clamped to 0, when the end precedes the start by a
    second or more. *)
Theorem finalize_duration_truncates env report :
  let d := elapsed_ns (now env) (StartTime (TestRun report)) in
  Z.abs d < 2 ^ 24 * Second ->
  Duration (computeSummary env report) = Z.quot d Second /\
  (0 <= d -> Duration (computeSummary env report) = Z.max 0 (d / Second)) /\
  (d <= - Second -> Duration (computeSummary env report) < 0).
Proof.
  intros d Hd.
  assert (E : Duration (computeSummary env report) = Z.quot d Second).
  { unfold computeSummary. destruct (tally _) as [p f]. cbv zeta. simpl.
    rewrite Sub_in_range by (fold d; unfold minDuration, maxDuration, Second in *; lia).
    fold d. apply Seconds_trunc. exact Hd. }
  rewrite E. split; [reflexivity|]. split.
  - intros Hp. rewrite Z.quot_div_nonneg by (unfold Second; lia).
    assert (0 <= d / Second) by (apply Z.div_pos; unfold Second; lia). lia.
  - intros Hn.
    pose proof (Z.quot_opp_l d Second ltac:(unfold Second; lia)) as Ho.
    assert (1 <= Z.quot (- d) Second).
    { rewrite Z.quot_div_nonneg by (unfold Second in *; lia).
      apply Z.div_le_lower_bound; unfold Second in *; lia. }
    lia.
Qed.

(** C4.  [overall_status] is "failed" exactly when some step has the status
    "failed" and "passed" otherwise, whatever the other statuses are;
    [passed_steps] and [failed_steps] count the steps whose status is
    exactly "passed", respectively "failed", and [total_steps] is the
    number of steps, those with another status included.  (The length of a
    Go slice fits in an [int].) *)
Theorem finalize_tally env report :
  len (Steps report) <= MaxInt ->
  let s := computeSummary env report in
  let steps := elems (Steps report) in
  (OverallStatus s = "failed" <-> exists step, step ∈ steps /\ Status step = "failed") /\
  (OverallStatus s <> "failed" -> OverallStatus s = "passed") /\
  PassedSteps s = count_status "passed" steps /\
  FailedSteps s = count_status "failed" steps /\
  TotalSteps s = Z.of_nat (length steps).
Proof.
  intros Hl s steps.
  destruct (computeSummary_fields env report Hl) as (_ & _ & Ht & Hp & Hf & Ho & _).
  fold s steps in Ht, Hp, Hf, Ho.
  repeat split; try assumption.
  - rewrite Ho. destruct (Z.ltb_spec 0 (FailedSteps s)) as [Hpos|Hpos]; [|discriminate].
    intros _. rewrite Hf in Hpos. apply count_status_pos. exact Hpos.
  - intros Hex. apply count_status_pos in Hex. rewrite <- Hf in Hex.
    rewrite Ho, (proj2 (Z.ltb_lt _ _) Hex). reflexivity.
  - rewrite Ho. destruct (0 <? FailedSteps s); [intros []; reflexivity | reflexivity].
Qed.


End SummaryFacts.

(** ** What one command does to the report *)

Section CommandFacts.
Context `{Libs}.

Lemma initReport_Ok_inv env path rest w w' :
  initReport env (path :: rest) w = (Ok tt, w') ->
  files w' = <[path := header +:+ yaml_Marshal (newReport env (projectName_of rest))]>
               (files w) /\
  stdout w' = stdout w.
Proof.
  unfold initReport. destruct (mkdir_fails env (filepath_Dir path)); [discriminate|].
  apply writeReport_Ok_inv.
Qed.

Lemma initReport_reads_back env path rest w w' :
  initReport env (path :: rest) w = (Ok tt, w') ->
  reads_back_as_written path w' ->
  exists report,
    readReport path w' = Ok report /\
    same_document (newReport env (projectName_of rest)) report.
Proof.
  intros Hi Hback. apply initReport_Ok_inv in Hi as [Hf _].
  apply readReport_written; [exact Hback|]. rewrite Hf. apply lookup_insert_eq.
Qed.

Lemma addStep_effect env path args w w' :
  addStep env path args w = (Ok tt, w') ->
  reads_back_as_written path w' ->
  exists phase status message rest before after,
    args = phase :: status :: message :: rest /\
    readReport path w = Ok before /\
    readReport path w' = Ok after /\
    TestRun after = TestRun before /\
    Environment after = Environment before /\
    Summary after = Summary before /\
    elems (Steps after) = elems (Steps before) ++ [newStep env phase status message] /\
    (forall p, p <> path -> files w' !! p = files w !! p).
Proof.
  intros Ha Hback. apply addStep_Ok_inv in Ha
    as (phase & status & message & rest & before & -> & Hr & Hf & _).
  destruct (readReport_written path w'
              (withStep before (newStep env phase status message)) Hback)
    as (after & Hr' & Ht & He & Hs & Hm).
  { rewrite Hf. apply lookup_insert_eq. }
  exists phase, status, message, rest, before, after.
  repeat split; try assumption.
  intros p Hp. rewrite Hf. apply lookup_insert_ne. congruence.
Qed.

Lemma finalizeReport_effect env path w w' :
  finalizeReport env path w = (Ok tt, w') ->
  reads_back_as_written path w' ->
  exists before after,
    readReport path w = Ok before /\
    readReport path w' = Ok after /\
    TestRun after = TestRun before /\
    Environment after = Environment before /\
    elems (Steps after) = elems (Steps before) /\
    Summary after = Some (computeSummary env before) /\
    (forall p, p <> path -> files w' !! p = files w !! p).
Proof.
  intros Ha Hback. apply finalizeReport_Ok_inv in Ha as (before & Hr & Hf & _).
  destruct (readReport_written path w'
              (withSummary before (computeSummary env before)) Hback)
    as (after & Hr' & Ht & He & Hs & Hm).
  { rewrite Hf. apply lookup_insert_eq. }
  exists before, after. repeat split; try assumption.
  intros p Hp. rewrite Hf. apply lookup_insert_ne. congruence.
Qed.

Lemma addStep_succeeds env path phase status message w before :
  readReport path w = Ok before ->
  no_write_fault env path ->
  exists w', addStep env path [phase; status; message] w = (Ok tt, w').
Proof.
  intros Hr Hn. unfold addStep. rewrite Hr, writeReport_no_fault by exact Hn. eauto.
Qed.

Lemma finalizeReport_succeeds env path w before :
  readReport path w = Ok before ->
  no_write_fault env path ->
  exists w', finalizeReport env path w = (Ok tt, w').
Proof.
  intros Hr Hn. unfold finalizeReport. rewrite Hr, writeReport_no_fault by exact Hn. eauto.
Qed.

(** The summary depends on the report through its steps and its start
    time only; apart from [end_time] and [duration_seconds], through its
    steps only. *)
Lemma computeSummary_steps env env' r r' :
  elems (Steps r') = elems (Steps r) ->
  let s := computeSummary env r in
  let s' := computeSummary env' r' in
  TotalSteps s' = TotalSteps s /\
  PassedSteps s' = PassedSteps s /\
  FailedSteps s' = FailedSteps s /\
  OverallStatus s' = OverallStatus s /\
  SuccessRate s' = SuccessRate s.
Proof.
  intros He. unfold computeSummary, len. rewrite He.
  destruct (tally (elems (Steps r))) as [p f]. cbv zeta. simpl. repeat split.
Qed.

Lemma runSteps_cons path c calls w :
  runSteps path (c :: calls) w =
  match addStep (call_env c) path [call_phase c; call_status c; call_message c] w with
  | (Ok _, w') => runSteps path calls w'
  | (Err _, _) => None
  end.
Proof. reflexivity. Qed.

Lemma runSteps_steps path calls : forall w wN before,
  runSteps path calls w = Some wN ->
  steps_read_back path calls w ->
  readReport path w = Ok before ->
  exists after,
    readReport path wN = Ok after /\
    map step_fields (elems (Steps after)) =
    map step_fields (elems (Steps before)) ++ map call_fields calls.
Proof.
  induction calls as [|c calls IH]; intros w wN before Hrun Hback Hr.
  - injection Hrun as <-. exists before. rewrite app_nil_r. auto.
  - rewrite runSteps_cons in Hrun. cbn [steps_read_back] in Hback.
    destruct (addStep (call_env c) path _ w) as [[[]|e] w1] eqn:Ha; [|discriminate].
    destruct Hback as [Hback1 Hback].
    apply addStep_effect in Ha
      as (ph & st & ms & rest & b & mid & [= <- <- <- <-] & Hb & Hmid & _ & _ & _ & Hsteps & _);
      [|exact Hback1].
    assert (b = before) as -> by congruence.
    destruct (IH w1 wN mid Hrun Hback Hmid) as (after & Hafter & Hmap).
    exists after. split; [assumption|].
    rewrite Hmap, Hsteps, map_app. simpl. rewrite <- app_assoc. reflexivity.
Qed.

End CommandFacts.

(** ** The lifecycle of a report *)

Section Lifecycle.
Context `{Libs}.

(** When every document written on the way is read back as written, the
    report after [init] and N successful [step] calls holds exactly the N
    steps, in call order, with the strings submitted. *)
Lemma steps_recorded_when_read_back env0 path rest w0 w1 calls wN :
  initReport env0 (path :: rest) w0 = (Ok tt, w1) ->
  reads_back_as_written path w1 ->
  runSteps path calls w1 = Some wN ->
  steps_read_back path calls w1 ->
  exists report,
    readReport path wN = Ok report /\
    length (elems (Steps report)) = length calls /\
    map step_fields (elems (Steps report)) = map call_fields calls.
Proof.
  intros Hi Hb1 Hrun Hback.
  destruct (initReport_reads_back _ _ _ _ _ Hi Hb1) as (r0 & Hr0 & _ & _ & Hs0 & _).
  destruct (runSteps_steps _ _ _ _ _ Hrun Hback Hr0) as (report & Hr & Hmap).
  rewrite Hs0 in Hmap. simpl in Hmap.
  exists report. split; [assumption|]. split; [|assumption].
  rewrite <- (length_map step_fields), Hmap, length_map. reflexivity.
Qed.

(** C5 (the program against the claim).  [step] on a report that loads
    appends the step to the report in memory, with the phase, the status
    and the message as they were submitted, writes the document and
    succeeds (the file being writable).  It never reads the document
    back: what the next command finds at the path is whatever the library
    decodes from that document, be it the steps as recorded, steps with
    other strings, or no report at all.  So the steps are those of the
    calls exactly as far as the library reads back what it wrote, which
    gopkg.in/yaml.v3 does not do for a string beginning with a line feed
    or made of a tab and a line feed. *)
Theorem step_succeeds_without_reading_back env path phase status message w before :
  readReport path w = Ok before ->
  no_write_fault env path ->
  let step := newStep env phase status message in
  let written := withStep before step in
  exists w',
    addStep env path [phase; status; message] w = (Ok tt, w') /\
    step_fields step = (phase, status, message, now env) /\
    elems (Steps written) = elems (Steps before) ++ [step] /\
    files w' !! path = Some (header +:+ yaml_Marshal written) /\
    (forall after,
       readReport path w' = Ok after <->
       yaml_Unmarshal (header +:+ yaml_Marshal written) = Some after) /\
    (readReport path w' = Err ErrParseYAML <->
     yaml_Unmarshal (header +:+ yaml_Marshal written) = None).
Proof.
  intros Hr Hn step written.
  destruct (addStep_succeeds env path phase status message w before Hr Hn) as (w' & Ha).
  exists w'. split; [exact Ha|].
  apply addStep_Ok_inv in Ha
    as (ph & st & ms & rs & b & [= <- <- <- <-] & Hb & Hf & _).
  assert (b = before) as -> by congruence.
  assert (Hfile : files w' !! path = Some (header +:+ yaml_Marshal written)).
  { rewrite Hf. apply lookup_insert_eq. }
  split; [reflexivity|]. split; [reflexivity|]. split; [exact Hfile|].
  unfold readReport, os_ReadFile. rewrite Hfile.
  destruct (yaml_Unmarshal (header +:+ yaml_Marshal written)) as [r|]; split.
  - intros after. split; intros [= ->]; reflexivity.
  - split; discriminate.
  - intros after. split; discriminate.
  - split; reflexivity.
Qed.

(** C6 (the program against the claim).  A second [finalize] does not
    start from the report that the first one summarised but from what the
    library decodes from the document that the first one wrote.  When
    that document is not read, the second [finalize] fails with the error
    of reading; when it is read, the second [finalize] succeeds (the file
    being writable) and its summary is computed from the steps read,
    which agrees with the first summary on the counts, the status and the
    rate when the steps read are those that the first one summarised. *)
Theorem finalize_again_recomputes_from_what_is_read env1 env2 path w0 w1 :
  finalizeReport env1 path w0 = (Ok tt, w1) ->
  no_write_fault env2 path ->
  exists r0,
    readReport path w0 = Ok r0 /\
    files w1 !! path =
      Some (header +:+ yaml_Marshal (withSummary r0 (computeSummary env1 r0))) /\
    (forall e, readReport path w1 = Err e -> finalizeReport env2 path w1 = (Err e, w1)) /\
    (forall r1, readReport path w1 = Ok r1 ->
       exists w2,
         finalizeReport env2 path w1 = (Ok tt, w2) /\
         files w2 !! path =
           Some (header +:+ yaml_Marshal (withSummary r1 (computeSummary env2 r1))) /\
         (elems (Steps r1) = elems (Steps r0) ->
          let s1 := computeSummary env1 r0 in
          let s2 := computeSummary env2 r1 in
          TotalSteps s2 = TotalSteps s1 /\
          PassedSteps s2 = PassedSteps s1 /\
          FailedSteps s2 = FailedSteps s1 /\
          OverallStatus s2 = OverallStatus s1 /\
          SuccessRate s2 = SuccessRate s1)).
Proof.
  intros H1 Hn.
  apply finalizeReport_Ok_inv in H1 as (r0 & Hr0 & Hf1 & _).
  exists r0. split; [exact Hr0|]. split; [rewrite Hf1; apply lookup_insert_eq|]. split.
  - intros e He. unfold finalizeReport. rewrite He. reflexivity.
  - intros r1 Hr1.
    destruct (finalizeReport_succeeds env2 path w1 r1 Hr1 Hn) as (w2 & H2).
    exists w2. split; [exact H2|].
    apply finalizeReport_Ok_inv in H2 as (r1' & Hr1' & Hf2 & _).
    assert (r1' = r1) as -> by congruence.
    split; [rewrite Hf2; apply lookup_insert_eq|].
    intros Hsteps. exact (computeSummary_steps env1 env2 r0 r1 Hsteps).
Qed.

(** C7 (the program against the claim).  [step] and [finalize] rewrite the
    whole report.  Between the report that the command loaded and the
    report that it wrote, [step] changes nothing but the steps, to which
    it appends one, and [finalize] nothing but the summary; neither
    touches another file.  But the steps already recorded are encoded
    again by every command, from what the library decoded: a step stays
    as it was recorded only as long as each document is read back as
    written. *)
Theorem step_and_finalize_rewrite_the_report env path w before :
  readReport path w = Ok before ->
  (forall args w',
     addStep env path args w = (Ok tt, w') ->
     exists written phase status message rest,
       args = phase :: status :: message :: rest /\
       files w' !! path = Some (header +:+ yaml_Marshal written) /\
       TestRun written = TestRun before /\
       Environment written = Environment before /\
       Summary written = Summary before /\
       elems (Steps written) = elems (Steps before) ++ [newStep env phase status message] /\
       (forall p, p <> path -> files w' !! p = files w !! p)) /\
  (forall w',
     finalizeReport env path w = (Ok tt, w') ->
     exists written,
       files w' !! path = Some (header +:+ yaml_Marshal written) /\
       TestRun written = TestRun before /\
       Environment written = Environment before /\
       Steps written = Steps before /\
       Summary written = Some (computeSummary env before) /\
       (forall p, p <> path -> files w' !! p = files w !! p)).
Proof.
  intros Hb. split.
  - intros args w' Ha.
    apply addStep_Ok_inv in Ha as (ph & st & ms & rs & b & -> & Hb' & Hf & _).
    assert (b = before) as -> by congruence.
    exists (withStep before (newStep env ph st ms)), ph, st, ms, rs.
    split; [reflexivity|]. split; [rewrite Hf; apply lookup_insert_eq|].
    repeat split. intros p Hp. rewrite Hf. apply lookup_insert_ne. congruence.
  - intros w' Hf.
    apply finalizeReport_Ok_inv in Hf as (b & Hb' & Hf & _).
    assert (b = before) as -> by congruence.
    exists (withSummary before (computeSummary env before)).
    split; [rewrite Hf; apply lookup_insert_eq|].
    repeat split. intros p Hp. rewrite Hf. apply lookup_insert_ne. congruence.
Qed.


(** C8 (as amended).  [init] writes a report whose [run.runner] is the host
    name, whose [environment.os] and [environment.arch] are the values of
    the environment variables GOOS and GOARCH when these are set and not
    empty and "unknown" otherwise, and whose [environment.shell] is the
    path the program was invoked with; the report has an empty sequence of
    steps and no summary.  The command prints nothing and changes no
    other file. *)
Theorem init_creates_report env path rest w w' :
  initReport env (path :: rest) w = (Ok tt, w') ->
  let from_env key :=
    match environ env !! key with
    | Some v => if decide (v = EmptyString) then "unknown" else v
    | None => "unknown"
    end in
  exists written,
    files w' !! path = Some (header +:+ yaml_Marshal written) /\
    StartTime (TestRun written) = now env /\
    Runner (TestRun written) = hostname env /\
    ProjectName (TestRun written) = projectName_of rest /\
    OS (Environment written) = from_env "GOOS" /\
    Arch (Environment written) = from_env "GOARCH" /\
    Shell (Environment written) = argv0 env /\
    Steps written = mk_slice [] /\
    Summary written = None /\
    stdout w' = stdout w /\
    (forall p, p <> path -> files w' !! p = files w !! p).
Proof.
  intros Hi from_env.
  apply initReport_Ok_inv in Hi as [Hf Hs].
  exists (newReport env (projectName_of rest)).
  assert (Hg : forall key, getEnvOrDefault env key "unknown" = from_env key).
  { intros key. unfold getEnvOrDefault, os_Getenv, from_env.
    destruct (environ env !! key) as [v|]; simpl; [|reflexivity].
    destruct (decide (v = EmptyString)) as [->|Hne]; [reflexivity|].
    destruct (String.eqb_spec v EmptyString); [contradiction | reflexivity]. }
  split; [rewrite Hf; apply lookup_insert_eq|].
  repeat split; simpl; try apply Hg; try assumption.
  - destruct (String.eqb_spec (projectName_of rest) EmptyString) as [->|]; reflexivity.
  - intros p Hp. rewrite Hf. apply lookup_insert_ne. congruence.
Qed.

(** C1 (the program against its own description, "atomic operations
    ensuring valid YAML at all times").  [writeReport] truncates the file
    in place before it writes: when the first write after [os.Create] is
    refused, the command fails and the report that was at the path,
    whatever it was, is gone; the file is left empty. *)
Theorem writeReport_interrupted_loses_previous_report report previous :
  writeReport (RefLibs.env_limited RefLibs.t1 0) "report.yaml" report
    {| files := {[ "report.yaml" := previous ]}; stdout := [] |}
  = (Err ErrWriteHeader,
     {| files := {[ "report.yaml" := EmptyString ]}; stdout := [] |}).
Proof.
  unfold writeReport, os_Create, file_Write. simpl.
  rewrite lookup_insert_eq. simpl. rewrite insert_insert_eq, insert_singleton_eq.
  reflexivity.
Qed.

(** The same with the device refusing after 25 bytes: the banner (18
    bytes) and the first 7 bytes of the document are all that is left. *)
Lemma writeReport_interrupted_leaves_partial_document report previous :
  (25 < String.length (header +:+ yaml_Marshal report))%nat ->
  writeReport (RefLibs.env_limited RefLibs.t1 25) "report.yaml" report
    {| files := {[ "report.yaml" := previous ]}; stdout := [] |}
  = (Err ErrEncodeYAML,
     {| files := {[ "report.yaml" := header +:+ string_take 7 (yaml_Marshal report) ]};
        stdout := [] |}).
Proof.
  intros Hlen.
  change (String.length (header +:+ yaml_Marshal report))
    with (18 + String.length (yaml_Marshal report))%nat in Hlen.
  unfold writeReport, os_Create, file_Write. simpl.
  rewrite !lookup_insert_eq. simpl.
  destruct (String.length (yaml_Marshal report) <=? 7)%nat eqn:E.
  - apply Nat.leb_le in E. lia.
  - simpl. rewrite !insert_insert_eq, insert_singleton_eq. reflexivity.
Qed.

End Lifecycle.

(** ** Artifact extraction *)

Section ExtractFacts.
Context `{Libs}.

Lemma os_WriteFile_ok env path data w :
  create_fails env path = false ->
  os_WriteFile env None path data w =
  (true, None, {| files := <[path := data]> (files w); stdout := stdout w |}).
Proof.
  intros Hc. unfold os_WriteFile, os_Create, file_Write. rewrite Hc. simpl.
  rewrite lookup_insert_eq. simpl. rewrite insert_insert_eq. reflexivity.
Qed.

Lemma extractLoop_cons env outputDir filename artifact rest budget w :
  extractLoop env outputDir ((filename, artifact) :: rest) budget w =
  if skipped artifact
  then extractLoop env outputDir rest budget (fmt_Println (skip_warning filename) w)
  else
    match Base64.DecodeString (Content artifact) with
    | None => (Err (ErrDecodeArtifact filename), w)
    | Some content =>
        let '(ok, budget', w1) :=
          os_WriteFile env budget (filepath_Join outputDir filename) content w in
        if negb ok then (Err (ErrWriteArtifact filename), w1)
        else extractLoop env outputDir rest budget'
               (fmt_Println ("✅ Decoded: " +:+ filename) w1)
    end.
Proof. reflexivity. Qed.

Lemma extractLoop_ok env outputDir entries : forall w,
  (forall f a, (f, a) ∈ entries -> skipped a = false ->
     is_Some (Base64.DecodeString (Content a)) /\
     create_fails env (filepath_Join outputDir f) = false) ->
  exists w',
    extractLoop env outputDir entries None w = (Ok tt, w') /\
    (forall p, (forall e, e ∈ entries -> ~ writes_to outputDir p e) ->
       files w' !! p = files w !! p) /\
    (forall f a b, (f, a) ∈ entries -> skipped a = false ->
       Base64.DecodeString (Content a) = Some b ->
       (forall e, e ∈ entries -> writes_to outputDir (filepath_Join outputDir f) e ->
          Base64.DecodeString (Content e.2) = Some b) ->
       files w' !! filepath_Join outputDir f = Some b) /\
    (forall f a, (f, a) ∈ entries -> skipped a = true -> skip_warning f ∈ stdout w') /\
    (forall line, line ∈ stdout w -> line ∈ stdout w').
Proof.
  induction entries as [|[f0 a0] rest IH]; intros w Hok.
  - exists w. split; [reflexivity|]. repeat split; auto.
    + intros f a b Hin. inversion Hin.
    + intros f a Hin. inversion Hin.
  - rewrite extractLoop_cons.
    assert (Hrest : forall f a, (f, a) ∈ rest -> skipped a = false ->
              is_Some (Base64.DecodeString (Content a)) /\
              create_fails env (filepath_Join outputDir f) = false).
    { intros f a Hin. apply Hok. right. exact Hin. }
    destruct (skipped a0) eqn:Hsk.
    + (* the entry is skipped: a warning, no write *)
      destruct (IH (fmt_Println (skip_warning f0) w) Hrest)
        as (w' & Hrun & Hframe & Hwr & Hwarn & Hout).
      exists w'. split; [assumption|]. repeat split.
      * intros p Hp. rewrite Hframe; [reflexivity|].
        intros e He. apply Hp. right. exact He.
      * intros f a b Hin Hns Hb Huniq.
        apply elem_of_cons in Hin as [[= -> ->]|Hin]; [congruence|].
        apply (Hwr f a b Hin Hns Hb). intros e He. apply Huniq. right. exact He.
      * intros f a Hin Hs.
        apply elem_of_cons in Hin as [[= -> ->]|Hin].
        -- apply Hout. simpl. apply elem_of_app. right. left.
        -- apply (Hwarn f a Hin Hs).
      * intros line Hl. apply Hout. simpl. apply elem_of_app. left. exact Hl.
    + (* the entry is decoded and written *)
      destruct (Hok f0 a0 ltac:(left) Hsk) as [[b0 Hb0] Hc0].
      rewrite Hb0. cbv zeta. rewrite os_WriteFile_ok by exact Hc0. simpl negb. cbv iota.
      set (w1 := fmt_Println _ _).
      destruct (IH w1 Hrest) as (w' & Hrun & Hframe & Hwr & Hwarn & Hout).
      exists w'. split; [assumption|]. repeat split.
      * intros p Hp. rewrite Hframe.
        -- simpl. apply lookup_insert_ne. intros E.
           apply (Hp (f0, a0)); [left | split; assumption].
        -- intros e He. apply Hp. right. exact He.
      * intros f a b Hin Hns Hb Huniq.
        destruct (decide (Exists (fun e : string * ArtifactContent =>
                                    skipped e.2 = false /\
                                    filepath_Join outputDir e.1 = filepath_Join outputDir f)
                                 rest)) as [Hex|Hnex].
        -- (* a later entry writes the same path: it holds the same bytes *)
           apply Exists_exists in Hex as ([f' a'] & Hin' & Hw').
           pose proof Hw' as [Hns' Hp']. simpl in Hns', Hp'.
           assert (Hb' : Base64.DecodeString (Content a') = Some b).
           { apply (Huniq (f', a')); [right; exact Hin' | exact Hw']. }
           rewrite <- Hp'.
           apply (Hwr f' a' b); [exact Hin' | exact Hns' | exact Hb' |].
           intros e He Hwe. apply Huniq; [right; exact He|].
           rewrite Hp' in Hwe. exact Hwe.
        -- (* no later entry writes it: the entry is the head *)
           apply elem_of_cons in Hin as [[= -> ->]|Hin].
           ++ rewrite Hframe.
              ** simpl. rewrite lookup_insert_eq. congruence.
              ** intros e He Hwe. apply Hnex. apply Exists_exists.
                 exists e. split; [exact He | exact Hwe].
           ++ exfalso. apply Hnex. apply Exists_exists. exists (f, a).
              split; [exact Hin | split; [exact Hns | reflexivity]].
      * intros f a Hin Hs.
        apply elem_of_cons in Hin as [[= -> ->]|Hin]; [congruence|].
        apply (Hwarn f a Hin Hs).
      * intros line Hl. apply Hout. simpl. apply elem_of_app. left. exact Hl.
Qed.

(** C9.  [extract] on a payload whose artifacts map file names to contents:
    provided every content other than the empty string and "null" is valid
    base64, its file can be created, and distinct names give distinct
    output paths, the command succeeds whatever the order in which the map
    is visited; every content other than the empty string and "null" is
    decoded and the bytes are in the file [output-dir/filename]; an entry
    whose content is empty or "null" gets a warning on standard output,
    no file and no error; no other file changes.  The content "aGVsbG8="
    decodes to "hello". *)
Theorem extract_decodes_artifacts env payloadPath outputDir rest w data payload :
  files w !! payloadPath = Some data ->
  json_Unmarshal data = Some payload ->
  mkdir_fails env outputDir = false ->
  write_limit env = None ->
  map_order env (Artifacts payload) ≡ₚ map_to_list (Artifacts payload) ->
  (forall f a, Artifacts payload !! f = Some a -> skipped a = false ->
     is_Some (Base64.DecodeString (Content a)) /\
     create_fails env (filepath_Join outputDir f) = false) ->
  (forall f f' a a', Artifacts payload !! f = Some a -> Artifacts payload !! f' = Some a' ->
     skipped a = false -> skipped a' = false ->
     filepath_Join outputDir f = filepath_Join outputDir f' -> f = f') ->
  exists w',
    extractArtifacts env (payloadPath :: outputDir :: rest) w = (Ok tt, w') /\
    (forall f c, Artifacts payload !! f = Some {| Content := c |} ->
       c <> EmptyString -> c <> "null" ->
       exists bytes, Base64.DecodeString c = Some bytes /\
                     files w' !! filepath_Join outputDir f = Some bytes) /\
    (forall f c, Artifacts payload !! f = Some {| Content := c |} ->
       c = EmptyString \/ c = "null" -> skip_warning f ∈ stdout w') /\
    (forall p, (forall f a, Artifacts payload !! f = Some a -> skipped a = false ->
                  filepath_Join outputDir f <> p) ->
       files w' !! p = files w !! p) /\
    Base64.DecodeString "aGVsbG8=" = Some "hello".
Proof.
  intros Hf Hj Hm Hl Hperm Hok Hinj.
  set (entries := map_order env (Artifacts payload)) in *.
  assert (Hin : forall f a, (f, a) ∈ entries <-> Artifacts payload !! f = Some a).
  { intros f a. rewrite Hperm. apply elem_of_map_to_list. }
  destruct (extractLoop_ok env outputDir entries
              (fmt_Println "📦 Extracting artifacts..." w))
    as (w' & Hrun & Hframe & Hwr & Hwarn & _).
  { intros f a Hfa. apply Hok. apply Hin. exact Hfa. }
  exists w'. split.
  { unfold extractArtifacts, os_ReadFile. rewrite Hf, Hj, Hm, Hl. exact Hrun. }
  assert (Hskip : forall c, skipped {| Content := c |} = false <->
                            c <> EmptyString /\ c <> "null").
  { intros c. unfold skipped. simpl.
    destruct (String.eqb_spec c EmptyString), (String.eqb_spec c "null"); simpl;
      split; intros; try discriminate; try tauto. }
  repeat split.
  - intros f c Hfc Hne Hnn.
    assert (Hs : skipped {| Content := c |} = false) by (apply Hskip; auto).
    destruct (Hok f _ Hfc Hs) as [[b Hb] _]. simpl in Hb.
    exists b. split; [exact Hb|].
    apply (Hwr f {| Content := c |} b); [apply Hin; exact Hfc | exact Hs | exact Hb |].
    intros [f' a'] He [Hs' Hp']. simpl in *.
    apply Hin in He.
    assert (f' = f) as -> by (apply (Hinj f' f a' {| Content := c |}); auto).
    assert (a' = {| Content := c |}) as -> by congruence. exact Hb.
  - intros f c Hfc Hc. apply (Hwarn f {| Content := c |}); [apply Hin; exact Hfc|].
    destruct (skipped {| Content := c |}) eqn:E; [reflexivity|].
    apply Hskip in E. destruct Hc; tauto.
  - intros p Hp. rewrite Hframe; [reflexivity|].
    intros [f a] He [Hs Hq]. simpl in *. apply Hin in He. exact (Hp f a He Hs Hq).
Qed.

End ExtractFacts.

(* ===================================================================== *)
(** * Part IV: the commands on concrete inputs                            *)
(* ===================================================================== *)

Module Examples.
Import RefLibs RefLibsFacts.

(** The scenario of the specification: two steps, one failed. *)
Example scenario_summary :
  option_map (fun r => Summary r)
    (match readReport "report.yaml" w_final with Ok r => Some r | Err _ => None end)
  = Some (Some {| EndTime := t3; Duration := 12; TotalSteps := 2; PassedSteps := 1;
                  FailedSteps := 1; OverallStatus := "failed"; SuccessRate := "50%" |}).
Proof. vm_compute. reflexivity. Qed.

(** Halfway cases go to either neighbour: 12.5 is printed 12 and 37.5 is
    printed 38, while 23/40*100, exactly 57.5, is computed as
    57.49999999999999 and printed 57. *)
Example rate_halfway_cases :
  formatRate 1 8 = "12%" /\ formatRate 3 8 = "38%" /\ formatRate 23 40 = "57%".
Proof. vm_compute. auto. Qed.

(** Beyond 2^24 seconds the sum in [Seconds] rounds to the next integer
    when the fraction is close enough to a full second: the duration of
    16777216.999999999 s is reported as 16777217. *)
Example duration_rounds_up_beyond_bound :
  F64.to_int (Seconds 16777216999999999) = 16777217 /\
  Z.quot 16777216999999999 Second = 16777216.
Proof. vm_compute. auto. Qed.

(** [F64] and the Standard Library's binary64 agree on the success rate of
    every report of up to 100 steps, and on the seconds of durations on
    both sides of the bounds used above. *)
Example rate_agrees_with_SpecFloat :
  forallb (fun t =>
    forallb (fun p =>
      SpecCheck.spec_eqb
        (SpecCheck.spec_rate (Z.of_nat p) (Z.of_nat t))
        (SpecCheck.to_spec
           (F64.mul (F64.div (F64.of_int (Z.of_nat p)) (F64.of_int (Z.of_nat t)))
                    (F64.of_int 100))))
      (seq 0 (S t)))
    (seq 1 100) = true.
Proof. vm_compute. reflexivity. Qed.

Example seconds_agree_with_SpecFloat :
  forallb (fun d => SpecCheck.spec_eqb (SpecCheck.spec_seconds d)
                      (SpecCheck.to_spec (Seconds d)))
    [0; 1; -1; 999999999; 1000000000; -5250000000; 12500000000; 86399999999999;
     16777215999999999; 16777216999999999; -16777216999999999;
     9223372036854775807; -9223372036854775808] = true.
Proof. vm_compute. reflexivity. Qed.

(** A [step] whose write is refused: the command fails and the two steps
    recorded before are gone with the rest of the report. *)
Example step_interrupted_loses_recorded_steps :
  readReport "report.yaml" w_steps = Ok r_steps /\
  addStep (env_limited t3 0) "report.yaml" ["deploy"; "passed"; "ok"] w_steps
  = (Err ErrWriteHeader,
     {| files := {[ "report.yaml" := EmptyString ]}; stdout := [] |}).
Proof. vm_compute. split; reflexivity. Qed.

(** [extract] on a payload whose only artifact has the content "null":
    a warning, no file, no error. *)
Example extract_null_artifact :
  extractArtifacts (env_at t0) ["payload.json"; "out"]
    {| files := {[ "payload.json" := null_payload_json ]}; stdout := [] |}
  = (Ok tt,
     {| files := {[ "payload.json" := null_payload_json ]};
        stdout := ["📦 Extracting artifacts..."; skip_warning "a.txt"] |}).
Proof. vm_compute. reflexivity. Qed.

(** Invalid base64 makes the command fail. *)
Example extract_invalid_artifact :
  Base64.DecodeString "aGVsbG8" = None /\ Base64.DecodeString "null" <> None.
Proof. vm_compute. split; [reflexivity | discriminate]. Qed.

(** C2, the claim as stated: finalizing at [t0] a report whose start time
    is 5.25 s later gives the duration -5, not max(0, -5) = 0. *)
Lemma finalize_duration_not_clamped :
  Duration (computeSummary (env_at t0) r_started_later) <>
    Z.max 0 (Z.quot (elapsed_ns (now (env_at t0)) (StartTime (TestRun r_started_later)))
                    Second) /\
  Duration (computeSummary (env_at t0) r_started_later) = -5.
Proof. vm_compute. split; [discriminate | reflexivity]. Qed.

Lemma finalize_duration_truncates_witness :
  Z.abs (elapsed_ns (now (env_at t3)) (StartTime (TestRun r_steps))) < 2 ^ 24 * Second /\
  Duration (computeSummary (env_at t3) r_steps) =
    Z.quot (elapsed_ns (now (env_at t3)) (StartTime (TestRun r_steps))) Second.
Proof.
  assert (Hd : Z.abs (elapsed_ns (now (env_at t3)) (StartTime (TestRun r_steps)))
               < 2 ^ 24 * Second) by (vm_compute; reflexivity).
  split; [exact Hd|].
  exact (proj1 (finalize_duration_truncates (env_at t3) r_steps Hd)).
Defined.


Lemma finalize_tally_witness :
  len (Steps r_steps) <= MaxInt /\
  (OverallStatus (computeSummary (env_at t3) r_steps) = "failed" <->
   exists step, step ∈ elems (Steps r_steps) /\ Status step = "failed").
Proof.
  assert (Hl : len (Steps r_steps) <= MaxInt) by (vm_compute; discriminate).
  split; [exact Hl|].
  exact (proj1 (finalize_tally (env_at t3) r_steps Hl)).
Defined.

Lemma step_succeeds_without_reading_back_witness :
  readReport "report.yaml" w_steps = Ok r_steps /\
  no_write_fault (env_at t3) "report.yaml" /\
  exists w',
    addStep (env_at t3) "report.yaml" ["deploy"; "passed"; "ok"] w_steps = (Ok tt, w') /\
    files w' !! "report.yaml" =
      Some (header +:+
            yaml_Marshal (withStep r_steps (newStep (env_at t3) "deploy" "passed" "ok"))).
Proof.
  assert (Hr : readReport "report.yaml" w_steps = Ok r_steps) by (vm_compute; reflexivity).
  assert (Hn : no_write_fault (env_at t3) "report.yaml") by (split; reflexivity).
  split; [exact Hr|]. split; [exact Hn|].
  destruct (step_succeeds_without_reading_back (env_at t3) "report.yaml"
              "deploy" "passed" "ok" w_steps r_steps Hr Hn)
    as (w' & Ha & _ & _ & Hf & _).
  exists w'. split; [exact Ha | exact Hf].
Defined.

Lemma finalize_again_recomputes_from_what_is_read_witness :
  finalizeReport (env_at t3) "report.yaml" w_steps = (Ok tt, w_final) /\
  no_write_fault (env_at t4) "report.yaml" /\
  exists r0,
    readReport "report.yaml" w_steps = Ok r0 /\
    files w_final !! "report.yaml" =
      Some (header +:+ yaml_Marshal (withSummary r0 (computeSummary (env_at t3) r0))).
Proof.
  assert (Hf : finalizeReport (env_at t3) "report.yaml" w_steps = (Ok tt, w_final))
    by (vm_compute; reflexivity).
  assert (Hn : no_write_fault (env_at t4) "report.yaml") by (split; reflexivity).
  split; [exact Hf|]. split; [exact Hn|].
  destruct (finalize_again_recomputes_from_what_is_read
              (env_at t3) (env_at t4) "report.yaml" w_steps w_final Hf Hn)
    as (r0 & Hr0 & Hfile & _).
  exists r0. split; [exact Hr0 | exact Hfile].
Defined.

Lemma step_and_finalize_rewrite_the_report_witness :
  readReport "report.yaml" w_steps = Ok r_steps /\
  forall w',
    finalizeReport (env_at t3) "report.yaml" w_steps = (Ok tt, w') ->
    exists written,
      files w' !! "report.yaml" = Some (header +:+ yaml_Marshal written) /\
      TestRun written = TestRun r_steps /\
      Environment written = Environment r_steps /\
      Steps written = Steps r_steps /\
      Summary written = Some (computeSummary (env_at t3) r_steps) /\
      (forall p, p <> "report.yaml" -> files w' !! p = files w_steps !! p).
Proof.
  assert (Hr : readReport "report.yaml" w_steps = Ok r_steps) by (vm_compute; reflexivity).
  split; [exact Hr|].
  exact (proj2 (step_and_finalize_rewrite_the_report
                  (env_at t3) "report.yaml" w_steps r_steps Hr)).
Defined.


(** With a library that reads a string without its leading line feed, the
    steps are not those of the calls: the message submitted as a line
    feed followed by "a" is read back as "a". *)
Example lossy_step_message_is_altered :
  let w1 := (@initReport LossyLibs.libs (env_at t0) ["report.yaml"; "proj"] empty_world).2 in
  let run := @addStep LossyLibs.libs (env_at t1) "report.yaml"
               ["build"; "passed"; LossyLibs.LF +:+ "a"] w1 in
  run.1 = Ok tt /\
  match @readReport LossyLibs.libs "report.yaml" run.2 with
  | Ok after => map step_fields (elems (Steps after)) = [("build", "passed", "a", t1)]
  | Err _ => False
  end.
Proof. vm_compute. split; reflexivity. Qed.

(** With the same library a later [step] changes a step already recorded:
    the status submitted as two line feeds followed by "passed" is read
    with one line feed after its own call and with none after the next. *)
Example lossy_later_step_changes_a_recorded_status :
  let w1 := (@initReport LossyLibs.libs (env_at t0) ["report.yaml"; "proj"] empty_world).2 in
  let w2 := (@addStep LossyLibs.libs (env_at t1) "report.yaml"
               ["build"; LossyLibs.LF +:+ LossyLibs.LF +:+ "passed"; "ok"] w1).2 in
  let w3 := (@addStep LossyLibs.libs (env_at t2) "report.yaml"
               ["test"; "failed"; "boom"] w2).2 in
  match @readReport LossyLibs.libs "report.yaml" w2,
        @readReport LossyLibs.libs "report.yaml" w3 with
  | Ok r2, Ok r3 =>
      map Status (elems (Steps r2)) = [LossyLibs.LF +:+ "passed"] /\
      map Status (elems (Steps r3)) = ["passed"; "failed"]
  | _, _ => False
  end.
Proof. vm_compute. split; reflexivity. Qed.

(** And two [finalize] calls in a row disagree: the first counts no
    passed step out of one and the rate "0%", the second one passed step
    and "100%". *)
Example lossy_finalize_twice_disagrees :
  let w1 := (@initReport LossyLibs.libs (env_at t0) ["report.yaml"; "proj"] empty_world).2 in
  let w2 := (@addStep LossyLibs.libs (env_at t1) "report.yaml"
               ["build"; LossyLibs.LF +:+ LossyLibs.LF +:+ "passed"; "ok"] w1).2 in
  let w3 := (@finalizeReport LossyLibs.libs (env_at t3) "report.yaml" w2).2 in
  let w4 := (@finalizeReport LossyLibs.libs (env_at t4) "report.yaml" w3).2 in
  let counts r := option_map (fun s => (TotalSteps s, PassedSteps s, SuccessRate s))
                             (Summary r) in
  match @readReport LossyLibs.libs "report.yaml" w3,
        @readReport LossyLibs.libs "report.yaml" w4 with
  | Ok r3, Ok r4 =>
      counts r3 = Some (1, 0, "0%") /\ counts r4 = Some (1, 1, "100%")
  | _, _ => False
  end.
Proof. vm_compute. split; reflexivity. Qed.

(** C8, the claim as stated: on a linux/amd64 platform whose environment
    sets neither GOOS nor GOARCH, the report written by [init] has the
    operating system and the architecture "unknown". *)
Lemma init_os_is_not_the_platform :
  initReport (env_at t0) ["report.yaml"; "proj"] empty_world = (Ok tt, w_init) /\
  files w_init !! "report.yaml" =
    Some (header +:+ yaml_Marshal (newReport (env_at t0) "proj")) /\
  OS (Environment (newReport (env_at t0) "proj")) <> runtime_GOOS (env_at t0) /\
  Arch (Environment (newReport (env_at t0) "proj")) <> runtime_GOARCH (env_at t0) /\
  OS (Environment (newReport (env_at t0) "proj")) = "unknown".
Proof. vm_compute. repeat split; discriminate. Qed.

Lemma init_creates_report_witness :
  initReport (env_at t0) ["report.yaml"; "proj"] empty_world = (Ok tt, w_init) /\
  exists written,
    files w_init !! "report.yaml" = Some (header +:+ yaml_Marshal written) /\
    Runner (TestRun written) = "runner-1" /\
    OS (Environment written) = "unknown" /\
    Arch (Environment written) = "unknown" /\
    Shell (Environment written) = "./home-ci-reporter" /\
    Steps written = mk_slice [] /\
    Summary written = None.
Proof.
  assert (Hi : initReport (env_at t0) ["report.yaml"; "proj"] empty_world = (Ok tt, w_init))
    by (vm_compute; reflexivity).
  split; [exact Hi|].
  destruct (init_creates_report (env_at t0) "report.yaml" ["proj"] empty_world w_init Hi)
    as (written & H1 & _ & H3 & _ & H5 & H6 & H7 & H8 & H9 & _).
  exists written.
  split; [exact H1|]. split; [exact H3|]. split; [exact H5|]. split; [exact H6|].
  split; [exact H7|]. split; [exact H8 | exact H9].
Defined.

Lemma extract_decodes_artifacts_witness :
  let w := {| files := {[ "payload.json" := payload_json ]}; stdout := [] |} in
  files w !! "payload.json" = Some payload_json /\
  json_Unmarshal payload_json = Some payload_value /\
  exists w',
    extractArtifacts (env_at t0) ["payload.json"; "out"] w = (Ok tt, w') /\
    files w' !! "out/a.txt" = Some "hello".
Proof.
  intros w.
  assert (Hf : files w !! "payload.json" = Some payload_json) by (vm_compute; reflexivity).
  assert (Hj : json_Unmarshal payload_json = Some payload_value) by (vm_compute; reflexivity).
  split; [exact Hf|]. split; [exact Hj|].
  assert (Hone : forall f a, Artifacts payload_value !! f = Some a ->
                             f = "a.txt" /\ a = {| Content := "aGVsbG8=" |}).
  { intros f a Hfa. change (Artifacts payload_value)
      with ({[ "a.txt" := {| Content := "aGVsbG8=" |} ]} : gmap string ArtifactContent) in Hfa.
    apply lookup_singleton_Some in Hfa. destruct Hfa; auto. }
  destruct (extract_decodes_artifacts (env_at t0) "payload.json" "out" [] w
              payload_json payload_value Hf Hj eq_refl eq_refl (reflexivity _))
    as (w' & Hrun & Hdec & _).
  - intros f a Hfa _. apply Hone in Hfa as [-> ->].
    split; [exists "hello"; vm_compute; reflexivity | reflexivity].
  - intros f f' a a' Hfa Hfa' _ _ _.
    apply Hone in Hfa as [-> _]. apply Hone in Hfa' as [-> _]. reflexivity.
  - exists w'. split; [exact Hrun|].
    destruct (Hdec "a.txt" "aGVsbG8=") as (bytes & Hb & Hw).
    + apply lookup_singleton_eq.
    + discriminate.
    + discriminate.
    + assert (bytes = "hello") as -> by (vm_compute in Hb; congruence).
      exact Hw.
Defined.

End Examples.

(* ===================================================================== *)
(** * Part V: further properties of the commands                          *)
(* ===================================================================== *)

(** ** Strings *)

Section StringFacts.

Lemma string_app_cons (c : ascii) (a b : string) : String c a +:+ b = String c (a +:+ b).
Proof. reflexivity. Qed.

Lemma string_app_nil_r (s : string) : s +:+ EmptyString = s.
Proof.
  induction s as [|c s IH]; [reflexivity|]. rewrite string_app_cons, IH. reflexivity.
Qed.

Lemma string_app_assoc (a b c : string) : (a +:+ b) +:+ c = a +:+ (b +:+ c).
Proof.
  induction a as [|x a IH]; [reflexivity|]. rewrite !string_app_cons, IH. reflexivity.
Qed.

Lemma string_length_app (a b : string) :
  String.length (a +:+ b) = (String.length a + String.length b)%nat.
Proof.
  induction a as [|x a IH]; [reflexivity|].
  rewrite string_app_cons. cbn [String.length]. rewrite IH. reflexivity.
Qed.

Lemma string_take_0 (s : string) : string_take 0 s = EmptyString.
Proof. destruct s; reflexivity. Qed.

Lemma string_take_S (n : nat) (c : ascii) (s : string) :
  string_take (S n) (String c s) = String c (string_take n s).
Proof. reflexivity. Qed.

Lemma string_take_app_le (n : nat) (a b : string) :
  (n <= String.length a)%nat -> string_take n (a +:+ b) = string_take n a.
Proof.
  revert n. induction a as [|x a IH]; intros n Hn; cbn [String.length] in Hn.
  - assert (n = 0%nat) as -> by lia. rewrite !string_take_0. reflexivity.
  - destruct n as [|n]; [reflexivity|].
    rewrite string_app_cons, !string_take_S, IH by lia. reflexivity.
Qed.

Lemma string_take_app_add (m : nat) (a b : string) :
  string_take (String.length a + m) (a +:+ b) = a +:+ string_take m b.
Proof.
  induction a as [|x a IH]; [reflexivity|].
  rewrite !string_app_cons. cbn [String.length Nat.add].
  rewrite string_take_S, IH. reflexivity.
Qed.

End StringFacts.

(** ** [writeReport], whatever its outcome *)

Section WriteFacts.
Context `{Libs}.

(** X1.  [writeReport] touches no other file and prints nothing.  When it
    fails, either the file could not be created and nothing changed, or
    the file at the path is left holding a proper prefix of the banner
    followed by the document: what was there before is not kept. *)
Theorem writeReport_outcome env path report w r w' :
  writeReport env path report w = (r, w') ->
  stdout w' = stdout w /\
  (forall p, p <> path -> files w' !! p = files w !! p) /\
  match r with
  | Ok _ => files w' !! path = Some (header +:+ yaml_Marshal report)
  | Err e =>
      (e = ErrCreateReport /\ w' = w) \/
      ((e = ErrWriteHeader \/ e = ErrEncodeYAML) /\
       exists n,
         (n < String.length (header +:+ yaml_Marshal report))%nat /\
         files w' !! path = Some (string_take n (header +:+ yaml_Marshal report)))
  end.
Proof.
  unfold writeReport, os_Create.
  destruct (create_fails env path).
  { intros [= <- <-]. repeat split; auto. }
  unfold file_Write. cbn [files stdout]. rewrite lookup_insert_eq. cbn [default].
  change (EmptyString +:+ header) with header.
  destruct (write_limit env) as [n0|].
  - destruct (String.length header <=? n0)%nat eqn:E0.
    + apply Nat.leb_le in E0. cbn [negb files stdout].
      rewrite lookup_insert_eq. cbn [default].
      destruct (String.length (yaml_Marshal report) <=? n0 - String.length header)%nat eqn:E1.
      * intros [= <- <-]. cbn [files stdout]. repeat split.
        -- intros p Hp. rewrite !lookup_insert_ne by congruence. reflexivity.
        -- apply lookup_insert_eq.
      * apply Nat.leb_gt in E1. intros [= <- <-]. cbn [files stdout]. repeat split.
        -- intros p Hp. rewrite !lookup_insert_ne by congruence. reflexivity.
        -- right. split; [auto|].
           exists (String.length header + (n0 - String.length header))%nat. split.
           ++ rewrite string_length_app. lia.
           ++ rewrite lookup_insert_eq, string_take_app_add. reflexivity.
    + apply Nat.leb_gt in E0. cbn [negb]. intros [= <- <-]. cbn [files stdout].
      repeat split.
      * intros p Hp. rewrite !lookup_insert_ne by congruence. reflexivity.
      * right. split; [auto|]. exists n0. split.
        -- rewrite string_length_app. lia.
        -- rewrite lookup_insert_eq, string_take_app_le by lia. reflexivity.
  - cbn [negb files stdout]. rewrite lookup_insert_eq. cbn [default].
    intros [= <- <-]. cbn [files stdout]. repeat split.
    + intros p Hp. rewrite !lookup_insert_ne by congruence. reflexivity.
    + apply lookup_insert_eq.
Qed.

(** X2.  [step] and [finalize] need a report that loads: when there is no
    file at the path the error is that of reading, when the file does not
    parse it is that of parsing, and in both cases nothing is created,
    written or printed. *)
Theorem step_and_finalize_need_a_report env path phase status message rest w :
  (files w !! path = None ->
   addStep env path (phase :: status :: message :: rest) w = (Err ErrReadReport, w) /\
   finalizeReport env path w = (Err ErrReadReport, w)) /\
  (forall data, files w !! path = Some data -> yaml_Unmarshal data = None ->
   addStep env path (phase :: status :: message :: rest) w = (Err ErrParseYAML, w) /\
   finalizeReport env path w = (Err ErrParseYAML, w)).
Proof.
  split.
  - intros Hf. unfold addStep, finalizeReport, readReport, os_ReadFile.
    rewrite Hf. auto.
  - intros data Hf Hu. unfold addStep, finalizeReport, readReport, os_ReadFile.
    rewrite Hf, Hu. auto.
Qed.

End WriteFacts.

(** ** More on the summary *)

Module DurationFacts.
Import F64 F64Facts GoTime GoTimeFacts.

Lemma representable_0 : representable 0.
Proof. apply (representable_IZR 0). lia. Qed.

Lemma representable_1 : representable 1.
Proof. apply (representable_IZR 1). lia. Qed.

(** For every non-negative duration the conversion gives the whole
    seconds or one more. *)
Lemma Seconds_within_one_nonneg d :
  0 <= d <= maxDuration ->
  to_int (Seconds d) = Z.quot d Second \/ to_int (Seconds d) = Z.quot d Second + 1.
Proof.
  intros Hd. unfold Seconds.
  pose proof (Z.quot_rem' d Second) as E.
  pose proof (Z.rem_bound_pos d Second ltac:(lia) ltac:(unfold Second; lia)) as Hr.
  assert (Hq : 0 <= Z.quot d Second < 2 ^ 52).
  { split; [apply Z.quot_pos; unfold Second; lia|].
    apply Z.quot_lt_upper_bound; unfold Second, maxDuration in *; lia. }
  set (sec := Z.quot d Second) in *. set (ns := Z.rem d Second) in *.
  assert (HA : F2R (of_int sec) = IZR sec) by (apply of_int_exact; lia).
  assert (HB : F2R (of_int ns) = IZR ns) by (apply of_int_exact; unfold Second in *; lia).
  assert (HC : F2R (of_int 1000000000) = 1000000000%R) by (apply of_int_exact; lia).
  pose proof (div_rounds (of_int ns) (of_int 1000000000)
                ltac:(rewrite of_int_1e9; simpl; lia)) as [_ HQ].
  rewrite HB, HC in HQ.
  set (q := F2R (div (of_int ns) (of_int 1000000000))) in *.
  pose proof (add_rounds (of_int sec) (div (of_int ns) (of_int 1000000000))) as [_ HS].
  rewrite HA in HS. fold q in HS.
  set (S := add (of_int sec) (div (of_int ns) (of_int 1000000000))) in *.
  assert (Hns : (0 <= IZR ns < 1000000000)%R).
  { split; [apply IZR_le; lia | apply IZR_lt; unfold Second in *; lia]. }
  assert (Hx : (0 <= IZR ns / 1000000000 < 1)%R) by (split; lra).
  assert (Hqb : (0 <= q <= 1)%R).
  { pose proof (HQ _ representable_0) as H0. pose proof (HQ _ representable_1) as H1.
    split; split_Rabs; lra. }
  assert (Hsec : (0 <= IZR sec)%R) by (apply IZR_le; lia).
  assert (HSb : (IZR sec <= F2R S <= IZR sec + 1)%R).
  { pose proof (HS (IZR sec) (representable_IZR sec ltac:(lia))) as H0.
    pose proof (HS (IZR (sec + 1)) (representable_IZR (sec + 1) ltac:(lia))) as H1.
    rewrite plus_IZR in H1. split; split_Rabs; lra. }
  destruct (Rle_lt_or_eq_dec _ _ (proj2 HSb)) as [Hlt|Heq].
  - left. apply to_int_trunc; [lia | lra].
  - right. apply to_int_trunc; [lia|]. rewrite plus_IZR. lra.
Qed.

Lemma Seconds_within_one d :
  minDuration <= d <= maxDuration ->
  to_int (Seconds d) = Z.quot d Second \/
  to_int (Seconds d) = Z.quot d Second + Z.sgn d.
Proof.
  intros Hd. destruct (Z_le_gt_dec 0 d) as [Hp|Hn].
  - destruct (Seconds_within_one_nonneg d ltac:(lia)) as [E|E]; [left; exact E|].
    destruct (Z.eq_dec d 0) as [->|Hne].
    + left. vm_compute. reflexivity.
    + right. rewrite E. f_equal. lia.
  - destruct (Z.eq_dec d minDuration) as [->|Hne].
    + left. vm_compute. reflexivity.
    + destruct (Seconds_within_one_nonneg (- d)
                  ltac:(unfold minDuration, maxDuration in *; lia)) as [E|E];
        rewrite Seconds_opp, to_int_neg, Z.quot_opp_l in E by (unfold Second; lia).
      * left. lia.
      * right. assert (Z.sgn d = -1) by lia. lia.
Qed.

Lemma Sub_saturates t u : minDuration <= Sub t u <= maxDuration.
Proof.
  unfold Sub. cbv zeta.
  destruct (Z.ltb_spec ((sec t - sec u) * Second + (nsec t - nsec u)) minDuration);
    [unfold minDuration, maxDuration; lia|].
  destruct (Z.ltb_spec maxDuration ((sec t - sec u) * Second + (nsec t - nsec u)));
    [unfold minDuration, maxDuration; lia|].
  lia.
Qed.

End DurationFacts.

Section MoreSummaryFacts.
Import GoTime DurationFacts RateFacts.

(** X3.  Whatever the two times are, [duration_seconds] is the whole
    seconds of the (saturated) difference computed by [Sub], or one second
    further from zero; so it never leaves the range of +-9223372037. *)
Theorem finalize_duration_within_one_second env report :
  let d := Sub (now env) (StartTime (TestRun report)) in
  let s := computeSummary env report in
  (Duration s = Z.quot d Second \/ Duration s = Z.quot d Second + Z.sgn d) /\
  - 9223372037 <= Duration s <= 9223372037.
Proof.
  intros d s.
  assert (E : Duration s = F64.to_int (Seconds d)).
  { unfold s, computeSummary. destruct (tally _) as [p f]. reflexivity. }
  pose proof (Sub_saturates (now env) (StartTime (TestRun report))) as Hr. fold d in Hr.
  pose proof (Seconds_within_one d Hr) as Hw. rewrite <- E in Hw.
  split; [exact Hw|].
  assert (- 9223372036 <= Z.quot d Second <= 9223372036).
  { split.
    - change (-9223372036) with (Z.quot minDuration Second).
      apply Z.quot_le_mono; [unfold Second; lia | lia].
    - change 9223372036 with (Z.quot maxDuration Second).
      apply Z.quot_le_mono; [unfold Second; lia | lia]. }
  destruct Hw as [-> | ->]; lia.
Qed.

(** X4.  The counts of a summary: none is negative, the passed and the
    failed steps together are at most all the steps, and they are all of
    them exactly when every step has the status "passed" or "failed". *)
Theorem finalize_counts_invariant env report :
  len (Steps report) <= MaxInt ->
  let s := computeSummary env report in
  0 <= PassedSteps s /\ 0 <= FailedSteps s /\
  PassedSteps s + FailedSteps s <= TotalSteps s /\
  (PassedSteps s + FailedSteps s = TotalSteps s <->
   forall step, step ∈ elems (Steps report) ->
     Status step = "passed" \/ Status step = "failed").
Proof.
  intros Hl s.
  destruct (computeSummary_fields env report Hl) as (_ & _ & Ht & Hp & Hf & _).
  fold s in Ht, Hp, Hf. rewrite Ht, Hp, Hf. clear.
  induction (elems (Steps report)) as [|x l IH].
  - unfold count_status. simpl. repeat split; try lia. intros _ step Hin. inversion Hin.
  - rewrite !count_status_cons. simpl length.
    destruct IH as (Ip & If & Is & Iall).
    destruct (decide (Status x = "passed")) as [Ep|Ep];
      destruct (decide (Status x = "failed")) as [Ef|Ef]; try congruence.
    + repeat split; try lia.
      * intros Hs step Hin. apply elem_of_cons in Hin as [->|Hin]; [auto|].
        apply Iall; [lia | exact Hin].
      * intros Hall. assert (count_status "passed" l + count_status "failed" l
                             = Z.of_nat (length l)); [|lia].
        apply Iall. intros step Hin. apply Hall. right. exact Hin.
    + repeat split; try lia.
      * intros Hs step Hin. apply elem_of_cons in Hin as [->|Hin]; [auto|].
        apply Iall; [lia | exact Hin].
      * intros Hall. assert (count_status "passed" l + count_status "failed" l
                             = Z.of_nat (length l)); [|lia].
        apply Iall. intros step Hin. apply Hall. right. exact Hin.
    + repeat split; try lia.
      intros Hall. destruct (Hall x ltac:(left)); congruence.
Qed.


End MoreSummaryFacts.

Section MoreLifecycleFacts.
Context `{Libs}.

(** X6.  A [step] recorded after [finalize] leaves the summary as it was.
    When the document written by [finalize] is read back as written, the
    report that the [step] writes has the summary of that [finalize] and
    one step more than the summary counts; and so has the report read
    back after the [step], when that document too is read back as
    written.  The summary stays stale until [finalize] runs again. *)
Theorem step_after_finalize_leaves_summary_stale env1 env2 path args w0 w1 w2 :
  finalizeReport env1 path w0 = (Ok tt, w1) ->
  reads_back_as_written path w1 ->
  addStep env2 path args w1 = (Ok tt, w2) ->
  exists r1 written s,
    readReport path w1 = Ok r1 /\
    Summary r1 = Some s /\
    TotalSteps s = len (Steps r1) /\
    files w2 !! path = Some (header +:+ yaml_Marshal written) /\
    Summary written = Some s /\
    len (Steps written) = TotalSteps s + 1 /\
    (reads_back_as_written path w2 ->
     exists r2,
       readReport path w2 = Ok r2 /\
       Summary r2 = Some s /\
       len (Steps r2) = TotalSteps s + 1).
Proof.
  intros Hf Hb1 Ha.
  apply finalizeReport_effect in Hf as (r0 & r1 & Hr0 & Hr1 & _ & _ & Hst1 & Hs1 & _);
    [|exact Hb1].
  pose proof Ha as Ha'.
  apply addStep_Ok_inv in Ha' as (ph & st & ms & rs & b & -> & Hb & Hfile & _).
  assert (b = r1) as -> by congruence.
  assert (Et : TotalSteps (computeSummary env1 r0) = len (Steps r0)).
  { unfold computeSummary. destruct (tally _) as [p f]. reflexivity. }
  assert (El : len (Steps r1) = len (Steps r0)) by (unfold len; rewrite Hst1; reflexivity).
  exists r1, (withStep r1 (newStep env2 ph st ms)), (computeSummary env1 r0).
  split; [exact Hr1|]. split; [exact Hs1|]. split; [congruence|].
  split; [rewrite Hfile; apply lookup_insert_eq|]. split; [exact Hs1|]. split.
  - rewrite Et, <- El. unfold len. cbn [withStep Steps append elems].
    rewrite length_app. cbn [length]. lia.
  - intros Hb2.
    apply addStep_effect in Ha
      as (ph' & st' & ms' & rs' & b & r2 & _ & Hb' & Hr2 & _ & _ & Hs2 & Hst2 & _);
      [|exact Hb2].
    assert (b = r1) as -> by congruence.
    exists r2. split; [exact Hr2|]. split; [congruence|].
    rewrite Et, <- El. unfold len. rewrite Hst2, length_app. cbn [length]. lia.
Qed.

End MoreLifecycleFacts.

(** ** More on artifact extraction *)

Section MoreExtractFacts.
Context `{Libs}.

Lemma extractLoop_stdout env outputDir entries : forall budget w w',
  extractLoop env outputDir entries budget w = (Ok tt, w') ->
  stdout w' = stdout w ++ map entry_line entries.
Proof.
  induction entries as [|[f a] rest IH]; intros budget w w' Hrun.
  - injection Hrun as <-. rewrite app_nil_r. reflexivity.
  - rewrite extractLoop_cons in Hrun. unfold entry_line at 1. cbn [map fst snd].
    unfold entry_line. cbn [fst snd].
    destruct (skipped a).
    + apply IH in Hrun. rewrite Hrun. cbn [fmt_Println stdout].
      rewrite <- app_assoc. reflexivity.
    + destruct (Base64.DecodeString (Content a)) as [content|]; [|discriminate].
      cbv zeta in Hrun.
      destruct (os_WriteFile env budget _ content w) as [[ok b'] w1] eqn:Ew.
      destruct ok; cbn [negb] in Hrun; [|discriminate].
      apply IH in Hrun. rewrite Hrun. cbn [fmt_Println stdout].
      assert (Hs : stdout w1 = stdout w).
      { unfold os_WriteFile, os_Create in Ew.
        destruct (create_fails env _); [discriminate|].
        apply file_Write_complete in Ew as [_ Hs]. exact Hs. }
      rewrite Hs, <- app_assoc. reflexivity.
Qed.

(** X7.  A successful [extract] prints the title and then exactly one line
    for each entry of the payload, in the order in which it visited them:
    the warning for an entry it skipped, the confirmation for an entry it
    decoded.  With no artifacts it prints the title alone. *)
Theorem extract_prints_one_line_per_entry env payloadPath outputDir rest w w' :
  extractArtifacts env (payloadPath :: outputDir :: rest) w = (Ok tt, w') ->
  exists data payload,
    files w !! payloadPath = Some data /\
    json_Unmarshal data = Some payload /\
    stdout w' = stdout w ++ "📦 Extracting artifacts..." ::
                map entry_line (map_order env (Artifacts payload)).
Proof.
  unfold extractArtifacts, os_ReadFile.
  destruct (files w !! payloadPath) as [data|]; [|discriminate].
  destruct (json_Unmarshal data) as [payload|] eqn:Ej; [|discriminate].
  destruct (mkdir_fails env outputDir); [discriminate|].
  intros Hrun. apply extractLoop_stdout in Hrun.
  exists data, payload. repeat split; try assumption.
  rewrite Hrun. cbn [fmt_Println stdout]. rewrite <- app_assoc. reflexivity.
Qed.

Lemma extractLoop_error env outputDir entries : forall budget w e w',
  extractLoop env outputDir entries budget w = (Err e, w') ->
  exists f a,
    (f, a) ∈ entries /\ skipped a = false /\
    ((e = ErrDecodeArtifact f /\ Base64.DecodeString (Content a) = None) \/
     (e = ErrWriteArtifact f /\ is_Some (Base64.DecodeString (Content a)))).
Proof.
  induction entries as [|[f a] rest IH]; intros budget w e w' Hrun; [discriminate|].
  rewrite extractLoop_cons in Hrun.
  destruct (skipped a) eqn:Hsk.
  - apply IH in Hrun as (f' & a' & Hin & Hr). exists f', a'. split; [right; exact Hin | exact Hr].
  - destruct (Base64.DecodeString (Content a)) as [content|] eqn:Ed.
    + cbv zeta in Hrun.
      destruct (os_WriteFile env budget _ content w) as [[ok b'] w1] eqn:Ew.
      destruct ok; cbn [negb] in Hrun.
      * apply IH in Hrun as (f' & a' & Hin & Hr).
        exists f', a'. split; [right; exact Hin | exact Hr].
      * injection Hrun as <- <-. exists f, a. split; [left|]. split; [exact Hsk|].
        right. rewrite Ed. eauto.
    + injection Hrun as <- <-. exists f, a. split; [left|]. split; [exact Hsk|].
      left. auto.
Qed.

(** X8.  When [extract] fails, either nothing at all has been written or
    printed (the payload could not be read or parsed, or the directory
    could not be made), or the error names an entry of the payload that is
    not skipped: one whose content is not valid base64 for a decoding
    error, one whose content did decode for a writing error. *)
Theorem extract_errors_name_their_cause env args w e w' :
  extractArtifacts env args w = (Err e, w') ->
  (w' = w /\
   (e = PanicIndexOutOfRange \/ e = ErrReadPayload \/ e = ErrParsePayload \/
    e = ErrCreateOutputDirectory)) \/
  (exists payloadPath data payload f a,
     nth_error args 0 = Some payloadPath /\
     files w !! payloadPath = Some data /\
     json_Unmarshal data = Some payload /\
     (f, a) ∈ map_order env (Artifacts payload) /\
     Content a <> EmptyString /\ Content a <> "null" /\
     ((e = ErrDecodeArtifact f /\ Base64.DecodeString (Content a) = None) \/
      (e = ErrWriteArtifact f /\ is_Some (Base64.DecodeString (Content a))))).
Proof.
  unfold extractArtifacts, os_ReadFile.
  destruct args as [|payloadPath [|outputDir rest]];
    try (intros [= <- <-]; left; auto).
  destruct (files w !! payloadPath) as [data|] eqn:Ef;
    [|intros [= <- <-]; left; auto].
  destruct (json_Unmarshal data) as [payload|] eqn:Ej;
    [|intros [= <- <-]; left; auto].
  destruct (mkdir_fails env outputDir); [intros [= <- <-]; left; auto 6|].
  intros Hrun. apply extractLoop_error in Hrun as (f & a & Hin & Hsk & Hr).
  right. exists payloadPath, data, payload, f, a.
  unfold skipped in Hsk. apply orb_false_elim in Hsk as [H1 H2].
  apply String.eqb_neq in H1, H2.
  repeat split; assumption.
Qed.

Lemma extractLoop_app env outputDir pre post : forall w w1,
  extractLoop env outputDir pre None w = (Ok tt, w1) ->
  extractLoop env outputDir (pre ++ post) None w = extractLoop env outputDir post None w1.
Proof.
  induction pre as [|[f a] pre IH]; intros w w1 Hrun.
  - injection Hrun as <-. reflexivity.
  - rewrite <- app_comm_cons, extractLoop_cons. rewrite extractLoop_cons in Hrun.
    destruct (skipped a); [apply IH; exact Hrun|].
    destruct (Base64.DecodeString (Content a)) as [content|]; [|discriminate].
    cbv zeta in *.
    destruct (os_WriteFile env None _ content w) as [[ok b'] w0] eqn:Ew.
    destruct ok; cbn [negb] in *; [|discriminate].
    assert (b' = None) as ->.
    { unfold os_WriteFile, os_Create in Ew. destruct (create_fails env _).
      - injection Ew as _ <- _. reflexivity.
      - unfold file_Write in Ew. injection Ew as <- _. reflexivity. }
    apply IH. exact Hrun.
Qed.

(** X9.  There is no rolling back: when the visit of the map reaches an
    entry whose content is not valid base64, the command fails naming that
    entry; the entries visited before it have been extracted (each decoded
    content is in its file), and no file is written for the entries after
    it. *)
Theorem extract_stops_at_first_invalid_entry
  env payloadPath outputDir rest w data payload pre f a post :
  files w !! payloadPath = Some data ->
  json_Unmarshal data = Some payload ->
  mkdir_fails env outputDir = false ->
  write_limit env = None ->
  map_order env (Artifacts payload) = pre ++ (f, a) :: post ->
  (forall f' a', (f', a') ∈ pre -> skipped a' = false ->
     is_Some (Base64.DecodeString (Content a')) /\
     create_fails env (filepath_Join outputDir f') = false) ->
  skipped a = false ->
  Base64.DecodeString (Content a) = None ->
  exists w',
    extractArtifacts env (payloadPath :: outputDir :: rest) w
      = (Err (ErrDecodeArtifact f), w') /\
    (forall f' a' b, (f', a') ∈ pre -> skipped a' = false ->
       Base64.DecodeString (Content a') = Some b ->
       (forall e, e ∈ pre -> writes_to outputDir (filepath_Join outputDir f') e ->
          Base64.DecodeString (Content e.2) = Some b) ->
       files w' !! filepath_Join outputDir f' = Some b) /\
    (forall p, (forall e, e ∈ pre -> ~ writes_to outputDir p e) ->
       files w' !! p = files w !! p).
Proof.
  intros Hf Hj Hm Hl Hord Hpre Hsk Hbad.
  destruct (extractLoop_ok env outputDir pre
              (fmt_Println "📦 Extracting artifacts..." w) Hpre)
    as (w1 & Hrun & Hframe & Hwr & _ & _).
  exists w1. split; [|split].
  - unfold extractArtifacts, os_ReadFile. rewrite Hf, Hj, Hm, Hl, Hord.
    rewrite (extractLoop_app _ _ _ _ _ _ Hrun), extractLoop_cons, Hsk, Hbad.
    reflexivity.
  - exact Hwr.
  - intros p Hp. rewrite Hframe by exact Hp. reflexivity.
Qed.

End MoreExtractFacts.

(** ** The base64 contents that [extract] accepts *)

Module Base64Facts.
Import Base64 Base64Enc.

Lemma decodeMap_not_newline c v : decodeMap c = Some v -> is_newline c = false.
Proof.
  destruct c as [[] [] [] [] [] [] [] []]; vm_compute; intros; congruence.
Qed.

Lemma pad_not_newline c : is_pad c = true -> is_newline c = false.
Proof.
  destruct c as [[] [] [] [] [] [] [] []]; vm_compute; intros; congruence.
Qed.

Lemma filter_newline_cons c s :
  filter (fun c => is_newline c = false) (c :: s) =
  if is_newline c then filter (fun c => is_newline c = false) s
  else c :: filter (fun c => is_newline c = false) s.
Proof.
  rewrite filter_cons. destruct (is_newline c) eqn:E.
  - rewrite decide_False by congruence. reflexivity.
  - rewrite decide_True by reflexivity. reflexivity.
Qed.

Lemma only_newlines_filter s :
  only_newlines (filter (fun c => is_newline c = false) s) = only_newlines s.
Proof.
  induction s as [|c s IH]; [reflexivity|].
  rewrite filter_newline_cons. cbn [only_newlines].
  destruct (is_newline c) eqn:E; [exact IH|].
  cbn [only_newlines]. rewrite E. reflexivity.
Qed.

Lemma second_pad_filter s :
  second_pad (filter (fun c => is_newline c = false) s) = second_pad s.
Proof.
  induction s as [|c s IH]; [reflexivity|].
  rewrite filter_newline_cons. cbn [second_pad].
  destruct (is_newline c) eqn:E; [exact IH|].
  cbn [second_pad]. rewrite E, only_newlines_filter. reflexivity.
Qed.

Lemma decode_from_cons q c s :
  decode_from q (c :: s) =
  match decodeMap c with
  | Some v =>
      if Nat.eqb (length q) 3
      then option_map (app (quantum_bytes 3 (v :: q))) (decode_from [] s)
      else decode_from (v :: q) s
  | None =>
      if is_newline c then decode_from q s
      else if is_pad c then
        match length q with
        | 2%nat => if second_pad s then Some (quantum_bytes 1 q) else None
        | 3%nat => if only_newlines s then Some (quantum_bytes 2 q) else None
        | _ => None
        end
      else None
  end.
Proof. reflexivity. Qed.

Lemma decode_from_filter s : forall q,
  decode_from q (filter (fun c => is_newline c = false) s) = decode_from q s.
Proof.
  induction s as [|c s IH]; intros q; [reflexivity|].
  rewrite filter_newline_cons, (decode_from_cons q c s).
  destruct (decodeMap c) as [v|] eqn:Ed.
  - rewrite (decodeMap_not_newline c v Ed), decode_from_cons, Ed, !IH. reflexivity.
  - destruct (is_newline c) eqn:En; [apply IH|].
    rewrite decode_from_cons, Ed, En, second_pad_filter, only_newlines_filter.
    reflexivity.
Qed.

Lemma only_newlines_all s c : only_newlines s = true -> c ∈ s -> is_newline c = true.
Proof.
  induction s as [|x s IH]; intros Ho Hin; [inversion Hin|].
  cbn [only_newlines] in Ho. apply andb_prop in Ho as [Hx Hs].
  apply elem_of_cons in Hin as [->|Hin]; auto.
Qed.

Lemma second_pad_all s c :
  second_pad s = true -> c ∈ s -> is_newline c = true \/ is_pad c = true.
Proof.
  induction s as [|x s IH]; intros Ho Hin; [inversion Hin|].
  cbn [second_pad] in Ho. destruct (is_newline x) eqn:En.
  - apply elem_of_cons in Hin as [->|Hin]; auto.
  - apply andb_prop in Ho as [Hx Hs].
    apply elem_of_cons in Hin as [->|Hin]; [auto|].
    left. eapply only_newlines_all; eassumption.
Qed.

Lemma foreign_spec c :
  foreign c = true -> decodeMap c = None /\ is_newline c = false /\ is_pad c = false.
Proof.
  unfold foreign. destruct (decodeMap c); [discriminate|].
  destruct (is_newline c), (is_pad c); cbn; intros; try discriminate; auto.
Qed.

Lemma decode_from_foreign s c : forall q,
  c ∈ s -> foreign c = true -> decode_from q s = None.
Proof.
  induction s as [|x s IH]; intros q Hin Hf; [inversion Hin|].
  pose proof (foreign_spec c Hf) as (Hd & Hn & Hp).
  rewrite decode_from_cons.
  apply elem_of_cons in Hin as [<-|Hin].
  - rewrite Hd, Hn, Hp. reflexivity.
  - destruct (decodeMap x) as [v|].
    + destruct (Nat.eqb (length q) 3); [rewrite (IH [] Hin Hf) | apply IH]; auto.
    + destruct (is_newline x); [apply IH; auto|].
      destruct (is_pad x); [|reflexivity].
      destruct (length q) as [|[|[|[|n]]]]; try reflexivity.
      * destruct (second_pad s) eqn:E; [|reflexivity].
        destruct (second_pad_all s c E Hin); congruence.
      * destruct (only_newlines s) eqn:E; [|reflexivity].
        pose proof (only_newlines_all s c E Hin). congruence.
Qed.

Lemma quantum_bytes_length n q : (length (quantum_bytes n q) <= n)%nat.
Proof. unfold quantum_bytes. rewrite length_take. lia. Qed.

Lemma decode_from_length s : forall q out,
  decode_from q s = Some out ->
  (4 * length out <= 3 * (length q + length s))%nat.
Proof.
  induction s as [|c s IH]; intros q out Hd.
  - destruct q; [injection Hd as <-; simpl; lia | discriminate].
  - rewrite decode_from_cons in Hd. cbn [length].
    destruct (decodeMap c) as [v|].
    + destruct (Nat.eqb_spec (length q) 3) as [E|E].
      * destruct (decode_from [] s) as [out'|] eqn:Es; [|discriminate].
        cbn [option_map] in Hd. injection Hd as <-. apply IH in Es.
        cbn [length] in *. lia.
      * apply IH in Hd. cbn [length] in Hd. lia.
    + destruct (is_newline c); [apply IH in Hd; lia|].
      destruct (is_pad c); [|discriminate].
      destruct (length q) as [|[|[|[|n]]]] eqn:El; try discriminate.
      * destruct (second_pad s); [|discriminate]. injection Hd as <-.
        pose proof (quantum_bytes_length 1 q). lia.
      * destruct (only_newlines s); [|discriminate]. injection Hd as <-.
        pose proof (quantum_bytes_length 2 q). lia.
Qed.

Lemma string_of_list_ascii_length l :
  String.length (string_of_list_ascii l) = length l.
Proof. induction l as [|c l IH]; [reflexivity|]. cbn. rewrite IH. reflexivity. Qed.

Lemma list_ascii_of_string_length s :
  length (list_ascii_of_string s) = String.length s.
Proof. induction s as [|c s IH]; [reflexivity|]. cbn. rewrite IH. reflexivity. Qed.

Lemma DecodeString_foreign s c :
  c ∈ list_ascii_of_string s -> foreign c = true -> DecodeString s = None.
Proof.
  intros Hin Hf. unfold DecodeString. rewrite (decode_from_foreign _ c [] Hin Hf).
  reflexivity.
Qed.

(* A content decodes to the same bytes, or fails to decode, as the content
   with every carriage return and line feed taken out. *)
Lemma DecodeString_ignores_line_breaks s :
  DecodeString s = DecodeString (strip_newlines s).
Proof.
  unfold DecodeString, strip_newlines.
  rewrite list_ascii_of_string_of_list_ascii, decode_from_filter. reflexivity.
Qed.

(* A content that decodes gives at most three bytes for four characters. *)
Lemma DecodeString_length s out :
  DecodeString s = Some out -> (4 * String.length out <= 3 * String.length s)%nat.
Proof.
  unfold DecodeString. intros Hd.
  destruct (decode_from [] (list_ascii_of_string s)) as [l|] eqn:E; [|discriminate].
  injection Hd as <-. apply decode_from_length in E.
  rewrite string_of_list_ascii_length. rewrite list_ascii_of_string_length in E.
  cbn [length] in E. lia.
Qed.

Lemma decodeMap_alphabet v : 0 <= v < 64 -> decodeMap (alphabet v) = Some v.
Proof.
  intros Hv.
  assert (H : forallb (fun n => match decodeMap (alphabet (Z.of_nat n)) with
                                | Some w => w =? Z.of_nat n
                                | None => false
                                end) (seq 0 64) = true) by (vm_compute; reflexivity).
  rewrite forallb_forall in H. specialize (H (Z.to_nat v)).
  rewrite Z2Nat.id in H by lia.
  destruct (decodeMap (alphabet v)) as [w|].
  - f_equal. apply Z.eqb_eq. apply H. apply in_seq. lia.
  - discriminate H. apply in_seq. lia.
Qed.

Lemma pad_char_spec :
  decodeMap pad_char = None /\ is_newline pad_char = false /\ is_pad pad_char = true.
Proof. vm_compute. auto. Qed.

Lemma code_bounds b : 0 <= code b < 256.
Proof. unfold code. pose proof (nat_ascii_bounded b). lia. Qed.

Lemma ascii_of_code b : ascii_of_nat (Z.to_nat (code b)) = b.
Proof. unfold code. rewrite Nat2Z.id. apply ascii_nat_embedding. Qed.

Lemma lor_mul_small a b k : 0 <= k -> 0 <= b < 2 ^ k -> Z.lor (a * 2 ^ k) b = a * 2 ^ k + b.
Proof.
  intros Hk Hb. apply Z.bits_inj'. intros n Hn. rewrite Z.lor_spec.
  assert (Hp : 0 < 2 ^ k) by (apply Z.pow_pos_nonneg; lia).
  destruct (Z.lt_ge_cases n k) as [Hlt|Hge].
  - rewrite Z.mul_pow2_bits_low by lia. cbn [orb].
    rewrite <- (Z.mod_pow2_bits_low (a * 2 ^ k + b) k n) by lia.
    rewrite Z.add_comm, Z.mod_add, Z.mod_small by lia. reflexivity.
  - rewrite Z.mul_pow2_bits by lia.
    assert (Z.testbit b n = false) as ->.
    { rewrite <- (Z.mod_small b (2 ^ k)) by lia. apply Z.mod_pow2_bits_high. lia. }
    rewrite orb_false_r.
    replace n with ((n - k) + k) at 2 by lia.
    rewrite <- Z.div_pow2_bits by lia.
    rewrite Z.div_add_l, Z.div_small by lia. f_equal. lia.
Qed.

Lemma quantum_val_4 a b c d :
  0 <= b < 64 -> 0 <= c < 64 -> 0 <= d < 64 ->
  quantum_val [d; c; b; a] = a * 262144 + b * 4096 + c * 64 + d.
Proof.
  intros Hb Hc Hd. unfold quantum_val. cbn [rev app].
  rewrite !Z.shiftl_mul_pow2 by lia.
  rewrite (lor_mul_small a (b * 2 ^ 12) 18) by lia.
  replace (a * 2 ^ 18 + b * 2 ^ 12) with ((a * 2 ^ 6 + b) * 2 ^ 12) by lia.
  rewrite (lor_mul_small _ (c * 2 ^ 6) 12) by lia.
  replace ((a * 2 ^ 6 + b) * 2 ^ 12 + c * 2 ^ 6)
    with (((a * 2 ^ 6 + b) * 2 ^ 6 + c) * 2 ^ 6) by lia.
  rewrite (lor_mul_small _ d 6) by lia. lia.
Qed.

Lemma quantum_val_3 a b c :
  0 <= b < 64 -> 0 <= c < 64 ->
  quantum_val [c; b; a] = a * 262144 + b * 4096 + c * 64.
Proof.
  intros Hb Hc. unfold quantum_val. cbn [rev app].
  rewrite !Z.shiftl_mul_pow2 by lia.
  rewrite (lor_mul_small a (b * 2 ^ 12) 18) by lia.
  replace (a * 2 ^ 18 + b * 2 ^ 12) with ((a * 2 ^ 6 + b) * 2 ^ 12) by lia.
  rewrite (lor_mul_small _ (c * 2 ^ 6) 12) by lia. lia.
Qed.

Lemma quantum_val_2 a b :
  0 <= b < 64 -> quantum_val [b; a] = a * 262144 + b * 4096.
Proof.
  intros Hb. unfold quantum_val. cbn [rev app].
  rewrite !Z.shiftl_mul_pow2 by lia.
  rewrite (lor_mul_small a (b * 2 ^ 12) 18) by lia. lia.
Qed.

(** The bytes of a 24-bit value. *)
Lemma bytes_of_value b0 b1 b2 v :
  v = code b0 * 65536 + code b1 * 256 + code b2 ->
  byte_of (Z.shiftr v 16) = b0 /\ byte_of (Z.shiftr v 8) = b1 /\ byte_of v = b2.
Proof.
  intros ->. pose proof (code_bounds b0). pose proof (code_bounds b1).
  pose proof (code_bounds b2). unfold byte_of.
  rewrite !Z.shiftr_div_pow2 by lia.
  change 255 with (Z.ones 8). rewrite !Z.land_ones by lia.
  change (2 ^ 16) with 65536. change (2 ^ 8) with 256.
  repeat split.
  - rewrite <- (ascii_of_code b0) at 2. do 2 f_equal.
    Z.div_mod_to_equations. lia.
  - rewrite <- (ascii_of_code b1) at 2. do 2 f_equal.
    Z.div_mod_to_equations. lia.
  - rewrite <- (ascii_of_code b2) at 2. do 2 f_equal.
    Z.div_mod_to_equations. lia.
Qed.


(** The four 6-bit values of three bytes, as arithmetic. *)
Lemma sextet_0 x : 0 <= x < 256 -> Z.shiftr x 2 = x / 4 /\ 0 <= x / 4 < 64.
Proof.
  intros Hx. rewrite Z.shiftr_div_pow2 by lia. change (2 ^ 2) with 4.
  split; [reflexivity|]. Z.div_mod_to_equations. lia.
Qed.

Lemma sextet_1 x y :
  0 <= x < 256 -> 0 <= y < 256 ->
  Z.lor (Z.shiftl (Z.land x 3) 4) (Z.shiftr y 4) = x mod 4 * 16 + y / 16 /\
  0 <= x mod 4 * 16 + y / 16 < 64.
Proof.
  intros Hx Hy. change 3 with (Z.ones 2). rewrite Z.land_ones by lia.
  rewrite Z.shiftl_mul_pow2, Z.shiftr_div_pow2 by lia.
  change (2 ^ 2) with 4.
  assert (0 <= y / 2 ^ 4 < 2 ^ 4) by (change (2 ^ 4) with 16; Z.div_mod_to_equations; lia).
  rewrite lor_mul_small by lia. change (2 ^ 4) with 16 in *.
  split; [reflexivity|]. Z.div_mod_to_equations. lia.
Qed.

Lemma sextet_2 y z :
  0 <= y < 256 -> 0 <= z < 256 ->
  Z.lor (Z.shiftl (Z.land y 15) 2) (Z.shiftr z 6) = y mod 16 * 4 + z / 64 /\
  0 <= y mod 16 * 4 + z / 64 < 64.
Proof.
  intros Hy Hz. change 15 with (Z.ones 4). rewrite Z.land_ones by lia.
  rewrite Z.shiftl_mul_pow2, Z.shiftr_div_pow2 by lia.
  change (2 ^ 4) with 16.
  assert (0 <= z / 2 ^ 6 < 2 ^ 2) by (change (2 ^ 6) with 64; change (2 ^ 2) with 4;
                                      Z.div_mod_to_equations; lia).
  rewrite lor_mul_small by lia. change (2 ^ 2) with 4. change (2 ^ 6) with 64 in *.
  split; [reflexivity|]. Z.div_mod_to_equations. lia.
Qed.

Lemma sextet_3 z : 0 <= z < 256 -> Z.land z 63 = z mod 64 /\ 0 <= z mod 64 < 64.
Proof.
  intros Hz. change 63 with (Z.ones 6). rewrite Z.land_ones by lia.
  change (2 ^ 6) with 64. split; [reflexivity|]. Z.div_mod_to_equations. lia.
Qed.

Lemma sextet_1_last x :
  0 <= x < 256 ->
  Z.shiftl (Z.land x 3) 4 = x mod 4 * 16 /\ 0 <= x mod 4 * 16 < 64.
Proof.
  intros Hx. change 3 with (Z.ones 2). rewrite Z.land_ones by lia.
  rewrite Z.shiftl_mul_pow2 by lia. change (2 ^ 2) with 4. change (2 ^ 4) with 16.
  split; [reflexivity|]. Z.div_mod_to_equations. lia.
Qed.

Lemma sextet_2_last y :
  0 <= y < 256 ->
  Z.shiftl (Z.land y 15) 2 = y mod 16 * 4 /\ 0 <= y mod 16 * 4 < 64.
Proof.
  intros Hy. change 15 with (Z.ones 4). rewrite Z.land_ones by lia.
  rewrite Z.shiftl_mul_pow2 by lia. change (2 ^ 4) with 16. change (2 ^ 2) with 4.
  split; [reflexivity|]. Z.div_mod_to_equations. lia.
Qed.

Lemma decode_encode_three b0 b1 b2 s :
  decode_from [] (encode (b0 :: b1 :: b2 :: s)) =
  option_map (app [b0; b1; b2]) (decode_from [] (encode s)).
Proof.
  cbn [encode]. cbv zeta.
  pose proof (code_bounds b0) as H0. pose proof (code_bounds b1) as H1.
  pose proof (code_bounds b2) as H2.
  destruct (sextet_0 _ H0) as [-> B0]. destruct (sextet_1 _ _ H0 H1) as [-> B1].
  destruct (sextet_2 _ _ H1 H2) as [-> B2]. destruct (sextet_3 _ H2) as [-> B3].
  rewrite decode_from_cons, decodeMap_alphabet by exact B0. cbn [length Nat.eqb].
  rewrite decode_from_cons, decodeMap_alphabet by exact B1. cbn [length Nat.eqb].
  rewrite decode_from_cons, decodeMap_alphabet by exact B2. cbn [length Nat.eqb].
  rewrite decode_from_cons, decodeMap_alphabet by exact B3. cbn [length Nat.eqb].
  f_equal. unfold quantum_bytes. cbv zeta. cbn [take].
  destruct (bytes_of_value b0 b1 b2 _ eq_refl) as (E0 & E1 & E2).
  rewrite quantum_val_4 by assumption.
  replace (code b0 / 4 * 262144 + (code b0 mod 4 * 16 + code b1 / 16) * 4096 +
           (code b1 mod 16 * 4 + code b2 / 64) * 64 + code b2 mod 64)
    with (code b0 * 65536 + code b1 * 256 + code b2)
    by (Z.div_mod_to_equations; lia).
  rewrite E0, E1, E2. reflexivity.
Qed.

Lemma decode_encode_one b0 : decode_from [] (encode [b0]) = Some [b0].
Proof.
  cbn [encode]. cbv zeta.
  pose proof (code_bounds b0) as H0.
  destruct (sextet_0 _ H0) as [-> B0]. destruct (sextet_1_last _ H0) as [-> B1].
  destruct pad_char_spec as (Pd & Pn & Pp).
  rewrite decode_from_cons, decodeMap_alphabet by exact B0. cbn [length Nat.eqb].
  rewrite decode_from_cons, decodeMap_alphabet by exact B1. cbn [length Nat.eqb].
  rewrite decode_from_cons, Pd, Pn, Pp. cbn [length second_pad only_newlines].
  rewrite Pn, Pp. cbn [andb]. f_equal.
  unfold quantum_bytes. cbv zeta. cbn [take].
  rewrite quantum_val_2 by assumption.
  destruct (bytes_of_value b0 "000" "000" _ eq_refl) as (E0 & _).
  replace (code b0 / 4 * 262144 + code b0 mod 4 * 16 * 4096)
    with (code b0 * 65536 + code "000" * 256 + code "000")
    by (change (code "000") with 0; Z.div_mod_to_equations; lia).
  rewrite E0. reflexivity.
Qed.

Lemma decode_encode_two b0 b1 : decode_from [] (encode [b0; b1]) = Some [b0; b1].
Proof.
  cbn [encode]. cbv zeta.
  pose proof (code_bounds b0) as H0. pose proof (code_bounds b1) as H1.
  destruct (sextet_0 _ H0) as [-> B0]. destruct (sextet_1 _ _ H0 H1) as [-> B1].
  destruct (sextet_2_last _ H1) as [-> B2].
  destruct pad_char_spec as (Pd & Pn & Pp).
  rewrite decode_from_cons, decodeMap_alphabet by exact B0. cbn [length Nat.eqb].
  rewrite decode_from_cons, decodeMap_alphabet by exact B1. cbn [length Nat.eqb].
  rewrite decode_from_cons, decodeMap_alphabet by exact B2. cbn [length Nat.eqb].
  rewrite decode_from_cons, Pd, Pn, Pp. cbn [length only_newlines]. f_equal.
  unfold quantum_bytes. cbv zeta. cbn [take].
  rewrite quantum_val_3 by assumption.
  destruct (bytes_of_value b0 b1 "000" _ eq_refl) as (E0 & E1 & _).
  replace (code b0 / 4 * 262144 + (code b0 mod 4 * 16 + code b1 / 16) * 4096 +
           code b1 mod 16 * 4 * 64)
    with (code b0 * 65536 + code b1 * 256 + code "000")
    by (change (code "000") with 0; Z.div_mod_to_equations; lia).
  rewrite E0, E1. reflexivity.
Qed.

Lemma decode_encode bytes : decode_from [] (encode bytes) = Some bytes.
Proof.
  assert (G : forall n bytes, (length bytes < n)%nat ->
                decode_from [] (encode bytes) = Some bytes).
  { induction n as [|n IH]; intros bs Hn; [lia|].
    destruct bs as [|b0 [|b1 [|b2 rest]]].
    - reflexivity.
    - apply decode_encode_one.
    - apply decode_encode_two.
    - rewrite decode_encode_three, IH by (cbn [length] in Hn; lia). reflexivity. }
  apply (G (S (length bytes))). lia.
Qed.


(* Decoding undoes the standard encoding. *)
Lemma DecodeString_EncodeToString s :
  DecodeString (Base64Enc.EncodeToString s) = Some s.
Proof.
  unfold DecodeString, Base64Enc.EncodeToString.
  rewrite list_ascii_of_string_of_list_ascii, decode_encode. cbn [option_map].
  rewrite string_of_list_ascii_of_string. reflexivity.
Qed.

End Base64Facts.

Section ExtractValidity.
Context `{Libs}.

Lemma extractLoop_Ok_valid env outputDir entries : forall budget w w',
  extractLoop env outputDir entries budget w = (Ok tt, w') ->
  forall f a, (f, a) ∈ entries -> skipped a = false ->
    is_Some (Base64.DecodeString (Content a)) /\
    create_fails env (filepath_Join outputDir f) = false.
Proof.
  induction entries as [|[f0 a0] rest IH]; intros budget w w' Hrun f a Hin Hsk.
  - inversion Hin.
  - rewrite extractLoop_cons in Hrun.
    destruct (skipped a0) eqn:Hs0.
    + apply elem_of_cons in Hin as [[= -> ->]|Hin]; [congruence|].
      eapply IH; eassumption.
    + destruct (Base64.DecodeString (Content a0)) as [content|] eqn:Ed; [|discriminate].
      cbv zeta in Hrun.
      destruct (os_WriteFile env budget _ content w) as [[ok b'] w1] eqn:Ew.
      destruct ok; cbn [negb] in Hrun; [|discriminate].
      apply elem_of_cons in Hin as [[= -> ->]|Hin]; [|eapply IH; eassumption].
      split; [rewrite Ed; eauto|].
      unfold os_WriteFile, os_Create in Ew.
      destruct (create_fails env _); [discriminate | reflexivity].
Qed.

(** X10.  Line breaks inside a content do not count for [extract].  Two
    lists of entries with the same names, whose contents are skipped or
    not alike and agree once every carriage return and line feed is taken
    out (a content wrapped at 76 columns and the same content on one
    line), give the same result, the same files and the same output. *)
Theorem extract_ignores_line_breaks env outputDir entries entries' :
  Forall2 (fun e e' => e.1 = e'.1 /\ skipped e.2 = skipped e'.2 /\
                       strip_newlines (Content e.2) = strip_newlines (Content e'.2))
          entries entries' ->
  forall budget w,
    extractLoop env outputDir entries budget w = extractLoop env outputDir entries' budget w.
Proof.
  induction 1 as [|[f a] [f' a'] l l' (Hf & Hs & Hc) _ IH]; intros budget w.
  - reflexivity.
  - cbn [fst snd] in Hf, Hs, Hc. subst f'. rewrite !extractLoop_cons, <- Hs.
    destruct (skipped a); [apply IH|].
    rewrite (Base64Facts.DecodeString_ignores_line_breaks (Content a)), Hc,
            <- (Base64Facts.DecodeString_ignores_line_breaks (Content a')).
    destruct (Base64.DecodeString (Content a')) as [content|]; [|reflexivity].
    destruct (os_WriteFile env budget _ content w) as [[ok b'] w1].
    destruct (negb ok); [reflexivity | apply IH].
Qed.

(** X11.  [extract] succeeds only on valid contents: after a successful
    run, every entry whose content is neither empty nor "null" had a
    content that is valid base64, free of foreign characters, and a file
    that could be created. *)
Theorem extract_succeeds_only_on_valid_contents env payloadPath outputDir rest w w' :
  extractArtifacts env (payloadPath :: outputDir :: rest) w = (Ok tt, w') ->
  exists data payload,
    files w !! payloadPath = Some data /\
    json_Unmarshal data = Some payload /\
    mkdir_fails env outputDir = false /\
    forall f a, (f, a) ∈ map_order env (Artifacts payload) -> skipped a = false ->
      is_Some (Base64.DecodeString (Content a)) /\
      (forall c, c ∈ list_ascii_of_string (Content a) -> foreign c = false) /\
      create_fails env (filepath_Join outputDir f) = false.
Proof.
  unfold extractArtifacts, os_ReadFile.
  destruct (files w !! payloadPath) as [data|]; [|discriminate].
  destruct (json_Unmarshal data) as [payload|] eqn:Ej; [|discriminate].
  destruct (mkdir_fails env outputDir) eqn:Em; [discriminate|].
  intros Hrun. exists data, payload.
  split; [reflexivity|]. split; [exact Ej|]. split; [reflexivity|].
  intros f a Hin Hskip.
  destruct (extractLoop_Ok_valid _ _ _ _ _ _ Hrun f a Hin Hskip) as [[b Hb] Hcreate].
  split; [exists b; exact Hb|]. split; [|exact Hcreate].
  intros c Hc. destruct (foreign c) eqn:Ef; [|reflexivity].
  rewrite (Base64Facts.DecodeString_foreign (Content a) c Hc Ef) in Hb.
  discriminate.
Qed.

(** X12.  [extract] restores what was encoded.  When every content of the
    payload is the standard base64 encoding of some bytes, the command
    succeeds (the files can be created and written, and distinct names
    give distinct paths) and each file holds exactly the bytes that were
    encoded, with two exceptions that get a warning and no file: the
    artifact of no bytes, whose encoding is empty, and the artifact of the
    three bytes 9E E9 65, whose encoding is "null". *)
Theorem extract_restores_encoded_artifacts env payloadPath outputDir rest w data payload
    (bytes : string -> string) :
  files w !! payloadPath = Some data ->
  json_Unmarshal data = Some payload ->
  mkdir_fails env outputDir = false ->
  write_limit env = None ->
  map_order env (Artifacts payload) ≡ₚ map_to_list (Artifacts payload) ->
  (forall f a, Artifacts payload !! f = Some a ->
     Content a = Base64Enc.EncodeToString (bytes f) /\
     create_fails env (filepath_Join outputDir f) = false) ->
  (forall f f', is_Some (Artifacts payload !! f) -> is_Some (Artifacts payload !! f') ->
     filepath_Join outputDir f = filepath_Join outputDir f' -> f = f') ->
  exists w',
    extractArtifacts env (payloadPath :: outputDir :: rest) w = (Ok tt, w') /\
    forall f a, Artifacts payload !! f = Some a ->
      (skipped a = false -> files w' !! filepath_Join outputDir f = Some (bytes f)) /\
      (skipped a = true ->
         (bytes f = EmptyString \/
          bytes f = String "158" (String "233" (String "101" EmptyString))) /\
         files w' !! filepath_Join outputDir f = files w !! filepath_Join outputDir f /\
         skip_warning f ∈ stdout w').
Proof.
  intros Hf Hj Hm Hl Hperm Henc Hinj.
  set (entries := map_order env (Artifacts payload)) in *.
  assert (Hin : forall f a, (f, a) ∈ entries <-> Artifacts payload !! f = Some a).
  { intros f a. rewrite Hperm. apply elem_of_map_to_list. }
  assert (Hdec : forall f a, Artifacts payload !! f = Some a ->
            Base64.DecodeString (Content a) = Some (bytes f)).
  { intros f a Hfa. destruct (Henc f a Hfa) as [-> _].
    apply Base64Facts.DecodeString_EncodeToString. }
  destruct (extractLoop_ok env outputDir entries
              (fmt_Println "📦 Extracting artifacts..." w))
    as (w' & Hrun & Hframe & Hwr & Hwarn & _).
  { intros f a Hfa _. apply Hin in Hfa. split; [|apply (Henc f a Hfa)].
    rewrite (Hdec f a Hfa). eauto. }
  exists w'. split.
  { unfold extractArtifacts, os_ReadFile. rewrite Hf, Hj, Hm, Hl. exact Hrun. }
  intros f a Hfa. split.
  - intros Hs. apply (Hwr f a); [apply Hin; exact Hfa | exact Hs | exact (Hdec f a Hfa) |].
    intros [f' a'] He [_ Hp']. cbn [fst snd] in *. apply Hin in He.
    assert (f' = f) as -> by (apply Hinj; eauto).
    exact (Hdec f a' He).
  - intros Hs. split; [|split].
    + pose proof (Hdec f a Hfa) as Hd. unfold skipped in Hs.
      apply orb_true_iff in Hs as [Hs|Hs]; apply String.eqb_eq in Hs; rewrite Hs in Hd.
      * left. vm_compute in Hd. congruence.
      * right. vm_compute in Hd. congruence.
    + rewrite Hframe; [reflexivity|].
      intros [f' a'] He [Hs' Hp']. cbn [fst snd] in *. apply Hin in He.
      assert (f' = f) as -> by (apply Hinj; eauto).
      congruence.
    + apply (Hwarn f a); [apply Hin; exact Hfa | exact Hs].
Qed.

End ExtractValidity.

(** ** [parse] and [summary] *)

Section ReportingFacts.
Context `{Libs} `{TimeFormat}.

Lemma string_prefix_refl s : string_prefix s s.
Proof. exists EmptyString. rewrite string_app_nil_r. reflexivity. Qed.

Lemma string_prefix_app a b c : string_prefix a b -> string_prefix a (b +:+ c).
Proof. intros [x ->]. exists (x +:+ c). apply string_app_assoc. Qed.

Lemma append_only_refl w : append_only w w.
Proof. intros p old Hp. exists old. split; [exact Hp | apply string_prefix_refl]. Qed.

Lemma append_only_trans w1 w2 w3 :
  append_only w1 w2 -> append_only w2 w3 -> append_only w1 w3.
Proof.
  intros H12 H23 p old Hp.
  destruct (H12 p old Hp) as (mid & Hm & [x ->]).
  destruct (H23 p _ Hm) as (new & Hn & [y ->]).
  exists ((old +:+ x) +:+ y). split; [exact Hn|].
  exists (x +:+ y). apply string_app_assoc.
Qed.

Lemma file_Write_effect budget path text w ok budget' w' :
  file_Write budget path text w = (ok, budget', w') ->
  exists written,
    files w' = <[path := default EmptyString (files w !! path) +:+ written]> (files w) /\
    stdout w' = stdout w /\
    string_prefix written text /\
    (ok = true -> written = text).
Proof.
  unfold file_Write. destruct budget as [n|].
  - destruct (String.length text <=? n)%nat eqn:E; intros [= <- <- <-].
    + exists text. repeat split; auto using string_prefix_refl.
    + exists (string_take n text). repeat split; try discriminate.
      apply Nat.leb_gt in E. clear -E. revert n E.
      induction text as [|c text IH]; intros n E; cbn [String.length] in E; [lia|].
      destruct n as [|n].
      * rewrite string_take_0. exists (String c text). reflexivity.
      * rewrite string_take_S. destruct (IH n ltac:(lia)) as [x Hx].
        exists x. rewrite string_app_cons, <- Hx. reflexivity.
  - intros [= <- <- <-]. exists text. repeat split; auto using string_prefix_refl.
Qed.

Lemma file_Write_append_only budget path text w ok budget' w' :
  file_Write budget path text w = (ok, budget', w') -> append_only w w'.
Proof.
  intros Hw. apply file_Write_effect in Hw as (written & Hf & _ & _ & _).
  intros p old Hp. rewrite Hf. destruct (decide (p = path)) as [->|Hne].
  - rewrite lookup_insert_eq, Hp. cbn [default].
    eexists. split; [reflexivity|]. exists written. reflexivity.
  - rewrite lookup_insert_ne by congruence.
    exists old. split; [exact Hp | apply string_prefix_refl].
Qed.

(** The texts of a run of writes, put together. *)
Lemma write_all_ok path chunks : forall w old,
  files w !! path = Some old ->
  write_all None path chunks w =
  (None, {| files := <[path := old +:+ String.concat EmptyString (map fst chunks)]> (files w);
            stdout := stdout w |}).
Proof.
  induction chunks as [|[text e] chunks IH]; intros w old Hold.
  - cbn [write_all map String.concat]. rewrite string_app_nil_r, insert_id by exact Hold.
    destruct w; reflexivity.
  - cbn [write_all file_Write negb]. rewrite Hold. cbn [default].
    rewrite (IH _ (old +:+ text)) by (cbn [files]; apply lookup_insert_eq).
    cbn [files stdout]. rewrite insert_insert_eq. f_equal. f_equal. f_equal.
    rewrite string_app_assoc. f_equal.
    destruct chunks as [|c chunks]; cbn [map String.concat fst].
    + rewrite string_app_nil_r. reflexivity.
    + reflexivity.
Qed.

Lemma write_all_append_only path chunks : forall budget w r w',
  write_all budget path chunks w = (r, w') ->
  append_only w w' /\ stdout w' = stdout w /\
  (forall p, p <> path -> files w' !! p = files w !! p).
Proof.
  induction chunks as [|[text e] chunks IH]; intros budget w r w' Hrun.
  - injection Hrun as <- <-. repeat split; auto using append_only_refl.
  - cbn [write_all] in Hrun.
    destruct (file_Write budget path text w) as [[ok b'] w1] eqn:Ew.
    pose proof (file_Write_append_only _ _ _ _ _ _ _ Ew) as Ha.
    apply file_Write_effect in Ew as (written & Hf & Hs & _ & _).
    assert (Hother : forall p, p <> path -> files w1 !! p = files w !! p).
    { intros p Hp. rewrite Hf. apply lookup_insert_ne. congruence. }
    destruct ok; cbn [negb] in Hrun.
    + apply IH in Hrun as (Ha' & Hs' & Ho').
      repeat split.
      * eapply append_only_trans; eassumption.
      * congruence.
      * intros p Hp. rewrite Ho', Hother by exact Hp. reflexivity.
    + injection Hrun as <- <-. repeat split; assumption.
Qed.

Lemma console_text_app l1 l2 :
  console_text (l1 ++ l2) = console_text l1 +:+ console_text l2.
Proof.
  induction l1 as [|x l1 IH]; [reflexivity|].
  cbn [console_text app fold_right] in *. fold (console_text (l1 ++ l2)).
  fold (console_text l1). rewrite IH, !string_app_assoc. reflexivity.
Qed.

Lemma concat_lines (lines : list string) :
  String.concat EmptyString (map (fun l => l +:+ newline) lines) = console_text lines.
Proof.
  induction lines as [|x lines IH]; [reflexivity|].
  cbn [map console_text fold_right]. fold (console_text lines). rewrite <- IH.
  destruct lines as [|y lines]; cbn [map String.concat].
  - rewrite string_app_nil_r. reflexivity.
  - rewrite string_app_assoc. reflexivity.
Qed.

Lemma summary_chunks_texts report :
  map fst (summary_chunks report) = map (fun l => l +:+ newline) (report_lines report).
Proof.
  unfold summary_chunks, report_lines. destruct (Summary report) as [s|]; [|reflexivity].
  cbn [map app fst]. do 5 f_equal. rewrite !map_map. reflexivity.
Qed.

Lemma outputReportToConsole_lines report w :
  outputReportToConsole report w =
  (None, {| files := files w; stdout := stdout w ++ report_lines report |}).
Proof.
  unfold outputReportToConsole, report_lines.
  destruct (Summary report) as [s|].
  - f_equal. cbn [fmt_Println files stdout].
    assert (G : forall steps w0,
               fold_left (fun w step => fmt_Println (step_line step) w) steps w0
               = {| files := files w0; stdout := stdout w0 ++ map step_line steps |}).
    { induction steps as [|x steps IH]; intros w0; cbn [fold_left map].
      - rewrite app_nil_r. destruct w0; reflexivity.
      - rewrite IH. cbn [fmt_Println files stdout]. rewrite <- app_assoc. reflexivity. }
    rewrite G. unfold fmt_Println. cbn [files stdout]. f_equal.
    repeat rewrite <- app_assoc. reflexivity.
  - unfold fmt_Println. cbn [files stdout]. rewrite <- app_assoc. reflexivity.
Qed.

(** X13.  [parse] renders one and the same text to either destination.
    When GITHUB_STEP_SUMMARY is unset or empty the lines of the report go
    to standard output and no file changes; when it names an existing,
    writable file, the same lines, each followed by a line break, are
    added at the end of that file, whose previous content is kept, and
    nothing is printed. *)
Theorem parse_renders_the_same_text env path rest w report :
  readReport path w = Ok report ->
  (os_Getenv env "GITHUB_STEP_SUMMARY" = EmptyString ->
   parseReport env (path :: rest) w =
   (None, {| files := files w; stdout := stdout w ++ report_lines report |})) /\
  (forall old,
     os_Getenv env "GITHUB_STEP_SUMMARY" <> EmptyString ->
     files w !! os_Getenv env "GITHUB_STEP_SUMMARY" = Some old ->
     create_fails env (os_Getenv env "GITHUB_STEP_SUMMARY") = false ->
     write_limit env = None ->
     parseReport env (path :: rest) w =
     (None, {| files := <[os_Getenv env "GITHUB_STEP_SUMMARY" :=
                            old +:+ console_text (report_lines report)]> (files w);
               stdout := stdout w |})).
Proof.
  intros Hr. unfold parseReport. rewrite Hr. split.
  - intros He. rewrite He. cbn [String.eqb]. apply outputReportToConsole_lines.
  - intros old Hne Hold Hc Hl.
    rewrite (proj2 (String.eqb_neq _ _) Hne).
    unfold appendReportToGitHubSummary, os_OpenAppend. rewrite Hold, Hc, Hl. cbn [negb].
    rewrite (write_all_ok _ _ _ old Hold), summary_chunks_texts, concat_lines.
    reflexivity.
Qed.

(** X14.  The summary file is opened without O_CREATE: when the variable
    GITHUB_STEP_SUMMARY names a path at which there is no file, [parse]
    and [summary] fail with "failed to open GitHub summary file" and
    neither create the file nor print anything. *)
Theorem summary_file_is_never_created env reportPath payloadPath rest w report data payload :
  os_Getenv env "GITHUB_STEP_SUMMARY" <> EmptyString ->
  files w !! os_Getenv env "GITHUB_STEP_SUMMARY" = None ->
  (readReport reportPath w = Ok report ->
   parseReport env (reportPath :: rest) w = (Some ErrOpenSummaryFile, w)) /\
  (files w !! payloadPath = Some data -> json_Unmarshal data = Some payload ->
   generateSummary env (payloadPath :: rest) w = (Some ErrOpenSummaryFile, w)).
Proof.
  intros Hne Hnone. split.
  - intros Hr. unfold parseReport. rewrite Hr, (proj2 (String.eqb_neq _ _) Hne).
    unfold appendReportToGitHubSummary, os_OpenAppend. rewrite Hnone. reflexivity.
  - intros Hf Hj. unfold generateSummary, os_ReadFile.
    rewrite Hf, Hj, (proj2 (String.eqb_neq _ _) Hne). cbn [negb].
    unfold os_OpenAppend. rewrite Hnone. reflexivity.
Qed.

(** X15.  [summary] writes its table to the same destinations: to standard
    output when GITHUB_STEP_SUMMARY is unset or empty, otherwise at the
    end of the file it names, followed by a line break, the previous
    content kept. *)
Theorem summary_renders_the_same_text env payloadPath rest w data payload :
  files w !! payloadPath = Some data ->
  json_Unmarshal data = Some payload ->
  (os_Getenv env "GITHUB_STEP_SUMMARY" = EmptyString ->
   generateSummary env (payloadPath :: rest) w =
   (None, {| files := files w; stdout := stdout w ++ [summaryBody payload] |})) /\
  (forall old,
     os_Getenv env "GITHUB_STEP_SUMMARY" <> EmptyString ->
     files w !! os_Getenv env "GITHUB_STEP_SUMMARY" = Some old ->
     create_fails env (os_Getenv env "GITHUB_STEP_SUMMARY") = false ->
     write_limit env = None ->
     generateSummary env (payloadPath :: rest) w =
     (None, {| files := <[os_Getenv env "GITHUB_STEP_SUMMARY" :=
                            old +:+ console_text [summaryBody payload]]> (files w);
               stdout := stdout w |})).
Proof.
  intros Hf Hj. unfold generateSummary, os_ReadFile. rewrite Hf, Hj. split.
  - intros He. rewrite He. reflexivity.
  - intros old Hne Hold Hc Hl.
    rewrite (proj2 (String.eqb_neq _ _) Hne). cbn [negb].
    unfold os_OpenAppend. rewrite Hold, Hc, Hl. cbn [negb].
    rewrite (write_all_ok _ _ _ old Hold). cbn [map fst String.concat console_text fold_right].
    rewrite string_app_nil_r. reflexivity.
Qed.

Lemma parseReport_append_only env args w r w' :
  parseReport env args w = (r, w') ->
  append_only w w' /\ stdout w `prefix_of` stdout w'.
Proof.
  unfold parseReport. destruct args as [|reportPath rest].
  { intros [= <- <-]. split; [apply append_only_refl | reflexivity]. }
  destruct (readReport reportPath w) as [report|e].
  2:{ intros [= <- <-]. split; [apply append_only_refl | reflexivity]. }
  destruct (String.eqb _ EmptyString).
  - rewrite outputReportToConsole_lines. intros [= <- <-]. split.
    + intros p old Hp. exists old. split; [exact Hp | apply string_prefix_refl].
    + cbn [stdout]. eexists. reflexivity.
  - unfold appendReportToGitHubSummary.
    destruct (os_OpenAppend env _ w); cbn [negb].
    + intros Hrun. apply write_all_append_only in Hrun as (Ha & Hs & _).
      split; [exact Ha | rewrite Hs; reflexivity].
    + intros [= <- <-]. split; [apply append_only_refl | reflexivity].
Qed.

Lemma generateSummary_append_only env args w r w' :
  generateSummary env args w = (r, w') ->
  append_only w w' /\ stdout w `prefix_of` stdout w'.
Proof.
  unfold generateSummary, os_ReadFile. destruct args as [|payloadPath rest].
  { intros [= <- <-]. split; [apply append_only_refl | reflexivity]. }
  destruct (files w !! payloadPath) as [data|].
  2:{ intros [= <- <-]. split; [apply append_only_refl | reflexivity]. }
  destruct (json_Unmarshal data) as [payload|].
  2:{ intros [= <- <-]. split; [apply append_only_refl | reflexivity]. }
  destruct (String.eqb _ EmptyString); cbn [negb].
  - intros [= <- <-]. split.
    + intros p old Hp. exists old. split; [exact Hp | apply string_prefix_refl].
    + cbn [fmt_Println stdout]. eexists. reflexivity.
  - destruct (os_OpenAppend env _ w); cbn [negb].
    + intros Hrun. apply write_all_append_only in Hrun as (Ha & Hs & _).
      split; [exact Ha | rewrite Hs; reflexivity].
    + intros [= <- <-]. split; [apply append_only_refl | reflexivity].
Qed.

(** X16.  [parse] and [summary] only ever add: whatever their outcome,
    every file is still there and begins with what it held before (a
    write that fails half-way leaves the old content and part of the new
    text), and what had been printed is still there. *)
Theorem reporting_is_append_only env args w :
  (forall r w', parseReport env args w = (r, w') ->
     append_only w w' /\ stdout w `prefix_of` stdout w') /\
  (forall r w', generateSummary env args w = (r, w') ->
     append_only w w' /\ stdout w `prefix_of` stdout w').
Proof.
  split; intros r w'.
  - apply parseReport_append_only.
  - apply generateSummary_append_only.
Qed.

End ReportingFacts.

(** ** The commands behind their argument validators *)

Section ExecuteFacts.
Context `{Libs} `{TimeFormat}.

Lemma files_kept_refl w : files_kept w w.
Proof. intros p Hp. exact Hp. Qed.

Lemma files_kept_trans w1 w2 w3 : files_kept w1 w2 -> files_kept w2 w3 -> files_kept w1 w3.
Proof. intros H12 H23 p Hp. apply H23, H12, Hp. Qed.

Lemma append_only_files_kept w w' : append_only w w' -> files_kept w w'.
Proof.
  intros Ha p [old Hp]. destruct (Ha p old Hp) as (new & Hn & _). rewrite Hn. eauto.
Qed.

Lemma insert_keeps (m m' : gmap string string) path v :
  m' = <[path := v]> m ->
  forall p, is_Some (m !! p) -> is_Some (m' !! p).
Proof.
  intros -> p Hp. destruct (decide (p = path)) as [->|Hne].
  - rewrite lookup_insert_eq. eauto.
  - rewrite lookup_insert_ne by congruence. exact Hp.
Qed.

Lemma writeReport_keeps env path report w r w' :
  writeReport env path report w = (r, w') ->
  files_kept w w' /\ stdout w' = stdout w.
Proof.
  unfold writeReport, os_Create. destruct (create_fails env path).
  { intros [= <- <-]. split; [apply files_kept_refl | reflexivity]. }
  destruct (file_Write (write_limit env) path header _) as [[ok1 b1] w2] eqn:E1.
  apply file_Write_effect in E1 as (x1 & Hf1 & Hs1 & _). cbn [files stdout] in Hf1, Hs1.
  assert (K2 : files_kept w w2).
  { intros p Hp. eapply insert_keeps; [exact Hf1|].
    eapply insert_keeps; [reflexivity | exact Hp]. }
  destruct ok1; cbn [negb]; [|intros [= <- <-]; auto].
  destruct (file_Write b1 path (yaml_Marshal report) w2) as [[ok2 b2] w3] eqn:E2.
  apply file_Write_effect in E2 as (x2 & Hf2 & Hs2 & _).
  assert (K3 : files_kept w w3).
  { intros p Hp. eapply insert_keeps; [exact Hf2 | apply K2, Hp]. }
  destruct ok2; cbn [negb]; intros [= <- <-]; split; auto; congruence.
Qed.

Lemma writeReport_error env path report w e w' :
  writeReport env path report w = (Err e, w') ->
  e = ErrCreateReport \/ e = ErrWriteHeader \/ e = ErrEncodeYAML.
Proof.
  unfold writeReport. destruct (os_Create env path w) as [w1|]; [|intros [= <- _]; auto].
  destruct (file_Write (write_limit env) path header w1) as [[ok1 b1] w2].
  destruct ok1; cbn [negb]; [|intros [= <- _]; auto].
  destruct (file_Write b1 path (yaml_Marshal report) w2) as [[ok2 b2] w3].
  destruct ok2; cbn [negb]; [discriminate | intros [= <- _]; auto].
Qed.

Lemma os_WriteFile_keeps env budget path data w ok budget' w' :
  os_WriteFile env budget path data w = (ok, budget', w') ->
  files_kept w w' /\ stdout w' = stdout w.
Proof.
  unfold os_WriteFile, os_Create. destruct (create_fails env path).
  - intros [= <- <- <-]. split; [apply files_kept_refl | reflexivity].
  - intros Hw. apply file_Write_effect in Hw as (written & Hf & Hs & _).
    cbn [files stdout] in *. split; [|exact Hs].
    intros p Hp. rewrite Hf. destruct (decide (p = path)) as [->|Hne].
    + rewrite lookup_insert_eq. eauto.
    + rewrite !lookup_insert_ne by congruence. exact Hp.
Qed.

Lemma extractLoop_keeps env outputDir entries : forall budget w r w',
  extractLoop env outputDir entries budget w = (r, w') ->
  files_kept w w' /\ stdout w `prefix_of` stdout w'.
Proof.
  induction entries as [|[f a] rest IH]; intros budget w r w' Hrun.
  - injection Hrun as <- <-. split; [apply files_kept_refl | reflexivity].
  - rewrite extractLoop_cons in Hrun. destruct (skipped a).
    + apply IH in Hrun as [Hk Hs]. split; [exact Hk|].
      etransitivity; [|exact Hs]. cbn [fmt_Println stdout]. eexists. reflexivity.
    + destruct (Base64.DecodeString (Content a)) as [content|].
      2:{ injection Hrun as <- <-. split; [apply files_kept_refl | reflexivity]. }
      cbv zeta in Hrun.
      destruct (os_WriteFile env budget _ content w) as [[ok b'] w1] eqn:Ew.
      apply os_WriteFile_keeps in Ew as [Hk1 Hs1].
      destruct ok; cbn [negb] in Hrun.
      * apply IH in Hrun as [Hk Hs]. split.
        -- eapply files_kept_trans; [exact Hk1 | exact Hk].
        -- etransitivity; [|exact Hs]. cbn [fmt_Println stdout]. rewrite Hs1.
           eexists. reflexivity.
      * injection Hrun as <- <-. split; [exact Hk1 | rewrite Hs1; reflexivity].
Qed.

Lemma write_all_error path chunks : forall budget w e w',
  write_all budget path chunks w = (Some e, w') -> e ∈ map snd chunks.
Proof.
  induction chunks as [|[text e0] chunks IH]; intros budget w e w' Hrun; [discriminate|].
  cbn [write_all] in Hrun.
  destruct (file_Write budget path text w) as [[ok b'] w1].
  destruct ok; cbn [negb] in Hrun.
  - right. eapply IH. exact Hrun.
  - injection Hrun as <- _. left.
Qed.

Lemma summary_chunks_errors report e :
  e ∈ map snd (summary_chunks report) -> e <> RenderPanicIndexOutOfRange.
Proof.
  unfold summary_chunks. destruct (Summary report) as [s|]; cbn [map snd app].
  - rewrite map_map, !elem_of_cons.
    intros [->|[->|[->|[->|[->|Hin]]]]]; try discriminate.
    apply list_elem_of_In, in_map_iff in Hin as (x & <- & _). discriminate.
  - rewrite !elem_of_cons. intros [->|[->|Hin]]; try discriminate. inversion Hin.
Qed.

(** X17.  The validators of [main] are enough for the handlers: a command
    line that a validator refuses changes nothing, and one that it accepts
    never makes the handler index its arguments out of range, whatever
    the files and the environment are. *)
Theorem validated_arguments_never_panic env c reportFile args w :
  (Args c args = false -> Execute env c reportFile args w = (Some UsageError, w)) /\
  (forall e w', Execute env c reportFile args w = (Some e, w') -> is_panic e = false).
Proof.
  unfold Execute. split; [intros ->; reflexivity|].
  intros e w'. destruct (Args c args) eqn:Hargs; cbn [negb]; [|intros [= <- _]; reflexivity].
  destruct c; cbn [Args] in Hargs.
  - (* init *)
    unfold RangeArgs in Hargs. destruct args as [|path rest]; [discriminate|].
    unfold initReport. destruct (mkdir_fails env _); [intros [= <- _]; reflexivity|].
    destruct (writeReport env path _ w) as [[[]|e0] w0] eqn:Ew; [discriminate|].
    intros [= <- _]. apply writeReport_error in Ew as [->|[->| ->]]; reflexivity.
  - (* step *)
    unfold ExactArgs in Hargs.
    destruct args as [|a [|b [|c0 [|]]]]; try discriminate.
    unfold addStep. destruct (readReport reportFile w) as [report|e0] eqn:Er.
    + destruct (writeReport env reportFile _ w) as [[[]|e1] w0] eqn:Ew; [discriminate|].
      intros [= <- _]. apply writeReport_error in Ew as [->|[->| ->]]; reflexivity.
    + intros [= <- _]. unfold readReport in Er.
      destruct (os_ReadFile reportFile w); [|injection Er as <-; reflexivity].
      destruct (yaml_Unmarshal _); [discriminate | injection Er as <-; reflexivity].
  - (* finalize *)
    unfold finalizeReport. destruct (readReport reportFile w) as [report|e0] eqn:Er.
    + destruct (writeReport env reportFile _ w) as [[[]|e1] w0] eqn:Ew; [discriminate|].
      intros [= <- _]. apply writeReport_error in Ew as [->|[->| ->]]; reflexivity.
    + intros [= <- _]. unfold readReport in Er.
      destruct (os_ReadFile reportFile w); [|injection Er as <-; reflexivity].
      destruct (yaml_Unmarshal _); [discriminate | injection Er as <-; reflexivity].
  - (* parse *)
    unfold ExactArgs in Hargs. destruct args as [|path [|]]; try discriminate.
    unfold of_render, parseReport. cbn [fst snd].
    destruct (readReport path w) as [report|e0]; [|intros [= <- _]; reflexivity].
    destruct (String.eqb _ EmptyString).
    + rewrite outputReportToConsole_lines. discriminate.
    + unfold appendReportToGitHubSummary.
      destruct (os_OpenAppend env _ w); cbn [negb]; [|intros [= <- _]; reflexivity].
      destruct (write_all _ _ _ w) as [[e1|] w0] eqn:Ew; [|discriminate].
      intros [= <- _]. apply write_all_error, summary_chunks_errors in Ew.
      destruct e1; try reflexivity. congruence.
  - (* extract *)
    unfold ExactArgs in Hargs. destruct args as [|a [|b [|]]]; try discriminate.
    destruct (extractArtifacts env [a; b] w) as [[[]|e0] w0] eqn:Ee; [discriminate|].
    intros [= <- _]. unfold extractArtifacts in Ee.
    destruct (os_ReadFile a w); [|injection Ee as <- _; reflexivity].
    destruct (json_Unmarshal _); [|injection Ee as <- _; reflexivity].
    destruct (mkdir_fails env b); [injection Ee as <- _; reflexivity|].
    apply extractLoop_error in Ee as (f & x & _ & _ & [[-> _]|[-> _]]); reflexivity.
  - (* summary *)
    unfold ExactArgs in Hargs. destruct args as [|path [|]]; try discriminate.
    unfold of_render, generateSummary. cbn [fst snd].
    destruct (os_ReadFile path w); [|intros [= <- _]; reflexivity].
    destruct (json_Unmarshal _); [|intros [= <- _]; reflexivity].
    destruct (String.eqb _ EmptyString); cbn [negb]; [discriminate|].
    destruct (os_OpenAppend env _ w); cbn [negb]; [|intros [= <- _]; reflexivity].
    destruct (write_all _ _ _ w) as [[e1|] w0] eqn:Ew; [|discriminate].
    intros [= <- _]. apply write_all_error in Ew. cbn [map snd] in Ew.
    apply list_elem_of_singleton in Ew as ->. reflexivity.
Qed.

(** X18.  No command removes a file or takes back what was printed:
    whatever the command, its arguments and its outcome, every path that
    held a file still holds one afterwards and the output printed before
    is the beginning of the output afterwards. *)
Theorem commands_never_delete env c reportFile args w r w' :
  Execute env c reportFile args w = (r, w') ->
  files_kept w w' /\ stdout w `prefix_of` stdout w'.
Proof.
  unfold Execute. destruct (negb (Args c args)).
  { intros [= <- <-]. split; [apply files_kept_refl | reflexivity]. }
  assert (Hres : forall x : result unit * World,
            (files_kept w x.2 /\ stdout w `prefix_of` stdout x.2) ->
            of_result x = (r, w') ->
            files_kept w w' /\ stdout w `prefix_of` stdout w').
  { intros [[[]|e] w0] Hk; cbn [of_result snd] in *; intros [= <- <-]; exact Hk. }
  assert (Hw : forall path report x,
            writeReport env path report w = x ->
            files_kept w x.2 /\ stdout w `prefix_of` stdout x.2).
  { intros path report [r0 w0] Hx. apply writeReport_keeps in Hx as [Hk Hs].
    cbn [snd]. split; [exact Hk | rewrite Hs; reflexivity]. }
  assert (Hrefl : files_kept w w /\ stdout w `prefix_of` stdout w)
    by (split; [apply files_kept_refl | reflexivity]).
  destruct c.
  - apply Hres. unfold initReport. destruct args as [|path rest]; [exact Hrefl|].
    destruct (mkdir_fails env _); [exact Hrefl|]. eapply Hw. reflexivity.
  - apply Hres. unfold addStep.
    destruct args as [|a [|b [|c0 rest]]]; try exact Hrefl.
    destruct (readReport reportFile w); [|exact Hrefl]. eapply Hw. reflexivity.
  - apply Hres. unfold finalizeReport.
    destruct (readReport reportFile w); [|exact Hrefl]. eapply Hw. reflexivity.
  - unfold of_render. intros [= <- <-].
    destruct (parseReport env args w) as [r0 w0] eqn:Ep. cbn [snd].
    apply parseReport_append_only in Ep as [Ha Hs].
    split; [apply append_only_files_kept; exact Ha | exact Hs].
  - apply Hres. unfold extractArtifacts.
    destruct args as [|a [|b rest]]; try exact Hrefl.
    destruct (os_ReadFile a w); [|exact Hrefl].
    destruct (json_Unmarshal _); [|exact Hrefl].
    destruct (mkdir_fails env b); [exact Hrefl|].
    destruct (extractLoop env b _ _ _) as [r0 w0] eqn:El. cbn [snd].
    apply extractLoop_keeps in El as [Hk Hs]. split; [exact Hk|].
    etransitivity; [|exact Hs]. cbn [fmt_Println stdout]. eexists. reflexivity.
  - unfold of_render. intros [= <- <-].
    destruct (generateSummary env args w) as [r0 w0] eqn:Ep. cbn [snd].
    apply generateSummary_append_only in Ep as [Ha Hs].
    split; [apply append_only_files_kept; exact Ha | exact Hs].
Qed.

End ExecuteFacts.

Section WholeRun.
Context `{Libs} `{TimeFormat}.




End WholeRun.

(** ** The further properties on concrete inputs *)

Module MoreExamples.
Import RefLibs RefLibsFacts RefTime RefMore.

(** The three bytes 9E E9 65 encode to "null": an artifact made of them
    is skipped. *)
Example three_bytes_that_are_skipped :
  Base64Enc.EncodeToString (String "158" (String "233" (String "101" EmptyString))) = "null"
  /\ skipped {| Content := "null" |} = true.
Proof. vm_compute. auto. Qed.

Lemma writeReport_outcome_witness :
  writeReport (env_limited t1 25) "report.yaml" r_steps w_init
  = (Err ErrEncodeYAML,
     {| files := {[ "report.yaml" :=
                      string_take 25 (header +:+ yaml_Marshal r_steps) ]};
        stdout := [] |}) /\
  exists n,
    (n < String.length (header +:+ yaml_Marshal r_steps))%nat /\
    files (writeReport (env_limited t1 25) "report.yaml" r_steps w_init).2 !! "report.yaml"
    = Some (string_take n (header +:+ yaml_Marshal r_steps)).
Proof.
  assert (E : writeReport (env_limited t1 25) "report.yaml" r_steps w_init
              = (Err ErrEncodeYAML,
                 {| files := {[ "report.yaml" :=
                                  string_take 25 (header +:+ yaml_Marshal r_steps) ]};
                    stdout := [] |})) by (vm_compute; reflexivity).
  split; [exact E|].
  destruct (writeReport_outcome _ _ _ _ _ _ E) as (_ & _ & [[Hc _]|[_ (n & Hn & Hf)]]).
  - discriminate Hc.
  - exists n. rewrite E. split; [exact Hn | exact Hf].
Defined.

Lemma finalize_counts_invariant_witness :
  len (Steps r_three) <= MaxInt /\
  PassedSteps (computeSummary (env_at t3) r_three)
  + FailedSteps (computeSummary (env_at t3) r_three)
  <= TotalSteps (computeSummary (env_at t3) r_three).
Proof.
  assert (Hl : len (Steps r_three) <= MaxInt) by (vm_compute; discriminate).
  split; [exact Hl|].
  exact (proj1 (proj2 (proj2 (finalize_counts_invariant (env_at t3) r_three Hl)))).
Defined.


Lemma step_after_finalize_leaves_summary_stale_witness :
  let w3 := (addStep (env_at t4) "report.yaml" ["deploy"; "passed"; "ok"] w_final).2 in
  finalizeReport (env_at t3) "report.yaml" w_steps = (Ok tt, w_final) /\
  reads_back_as_written "report.yaml" w_final /\
  addStep (env_at t4) "report.yaml" ["deploy"; "passed"; "ok"] w_final = (Ok tt, w3) /\
  exists r2 s,
    readReport "report.yaml" w3 = Ok r2 /\ Summary r2 = Some s /\
    len (Steps r2) = TotalSteps s + 1.
Proof.
  intros w3.
  assert (Hf : finalizeReport (env_at t3) "report.yaml" w_steps = (Ok tt, w_final))
    by (vm_compute; reflexivity).
  assert (Ha : addStep (env_at t4) "report.yaml" ["deploy"; "passed"; "ok"] w_final
               = (Ok tt, w3)) by (vm_compute; reflexivity).
  split; [exact Hf|]. split; [apply ref_reads_back|]. split; [exact Ha|].
  destruct (step_after_finalize_leaves_summary_stale _ _ _ _ _ _ _
              Hf (ref_reads_back "report.yaml" w_final) Ha)
    as (r1 & written & s & _ & _ & _ & _ & _ & _ & Hread).
  destruct (Hread (ref_reads_back "report.yaml" w3)) as (r2 & H2 & Hs & Hl).
  exists r2, s. split; [exact H2|]. split; [exact Hs | exact Hl].
Defined.

Lemma extract_prints_one_line_per_entry_witness :
  let w' := (extractArtifacts (env_at t0) ["payload.json"; "out"] w_payload).2 in
  extractArtifacts (env_at t0) ["payload.json"; "out"] w_payload = (Ok tt, w') /\
  stdout w' = ["📦 Extracting artifacts..."; "✅ Decoded: a.txt"].
Proof.
  intros w'.
  assert (He : extractArtifacts (env_at t0) ["payload.json"; "out"] w_payload = (Ok tt, w'))
    by (vm_compute; reflexivity).
  split; [exact He|].
  destruct (extract_prints_one_line_per_entry _ _ _ _ _ _ He) as (data & payload & Hd & Hj & Hs).
  rewrite Hs.
  assert (data = payload_json) as ->
    by (vm_compute in Hd; injection Hd as <-; reflexivity).
  assert (payload = payload_value) as ->
    by (vm_compute in Hj; injection Hj as <-; reflexivity).
  vm_compute. reflexivity.
Defined.

Lemma extract_errors_name_their_cause_witness :
  extractArtifacts (env_at t0) ["missing.json"; "out"] w_payload
  = (Err ErrReadPayload, w_payload) /\
  ((w_payload = w_payload /\
    (ErrReadPayload = PanicIndexOutOfRange \/ ErrReadPayload = ErrReadPayload \/
     ErrReadPayload = ErrParsePayload \/ ErrReadPayload = ErrCreateOutputDirectory)) \/
   (exists payloadPath data payload f a,
      nth_error ["missing.json"; "out"] 0 = Some payloadPath /\
      files w_payload !! payloadPath = Some data /\
      json_Unmarshal data = Some payload /\
      (f, a) ∈ map_order (env_at t0) (Artifacts payload) /\
      Content a <> EmptyString /\ Content a <> "null" /\
      ((ErrReadPayload = ErrDecodeArtifact f /\ Base64.DecodeString (Content a) = None) \/
       (ErrReadPayload = ErrWriteArtifact f /\
        is_Some (Base64.DecodeString (Content a)))))).
Proof.
  assert (He : extractArtifacts (env_at t0) ["missing.json"; "out"] w_payload
               = (Err ErrReadPayload, w_payload)) by (vm_compute; reflexivity).
  split; [exact He|].
  exact (extract_errors_name_their_cause _ _ _ _ _ He).
Defined.

Lemma extract_stops_at_first_invalid_entry_witness :
  files w_invalid_payload !! "payload.json" = Some invalid_payload_json /\
  @json_Unmarshal libs_more invalid_payload_json = Some invalid_payload_value /\
  exists w',
    @extractArtifacts libs_more (env_a_then_b t0) ["payload.json"; "out"] w_invalid_payload
      = (Err (ErrDecodeArtifact "b.bin"), w') /\
    files w' !! "out/a.txt" = Some "hello" /\
    files w' !! "out/b.bin" = None.
Proof.
  assert (Hf : files w_invalid_payload !! "payload.json" = Some invalid_payload_json)
    by (vm_compute; reflexivity).
  assert (Hj : @json_Unmarshal libs_more invalid_payload_json = Some invalid_payload_value)
    by (vm_compute; reflexivity).
  split; [exact Hf|]. split; [exact Hj|].
  destruct (@extract_stops_at_first_invalid_entry libs_more (env_a_then_b t0)
              "payload.json" "out" [] w_invalid_payload
              invalid_payload_json invalid_payload_value
              [("a.txt", {| Content := "aGVsbG8=" |})] "b.bin" {| Content := "!!!" |} []
              Hf Hj eq_refl eq_refl eq_refl)
    as (w' & Hrun & Hwr & Hframe).
  - intros f a Hin _. apply list_elem_of_singleton in Hin. injection Hin as -> ->.
    split; [exists "hello"; vm_compute; reflexivity | reflexivity].
  - reflexivity.
  - vm_compute. reflexivity.
  - exists w'. split; [exact Hrun|]. split.
    + apply (Hwr "a.txt" {| Content := "aGVsbG8=" |} "hello").
      * apply list_elem_of_singleton. reflexivity.
      * reflexivity.
      * vm_compute. reflexivity.
      * intros e He _. apply list_elem_of_singleton in He. subst e.
        vm_compute. reflexivity.
    + rewrite Hframe; [vm_compute; reflexivity|].
      intros e He [_ Hp]. apply list_elem_of_singleton in He. subst e.
      vm_compute in Hp. discriminate Hp.
Defined.

Lemma parse_renders_the_same_text_witness :
  readReport "report.yaml" w_with_summary_file =
    Ok (withSummary r_steps (computeSummary (env_at t3) r_steps)) /\
  parseReport (env_at t4) ["report.yaml"] w_with_summary_file =
  (None, {| files := files w_with_summary_file;
            stdout := report_lines (withSummary r_steps (computeSummary (env_at t3) r_steps))
         |}).
Proof.
  assert (Hr : readReport "report.yaml" w_with_summary_file =
               Ok (withSummary r_steps (computeSummary (env_at t3) r_steps)))
    by (vm_compute; reflexivity).
  split; [exact Hr|].
  exact (proj1 (parse_renders_the_same_text (env_at t4) "report.yaml" [] _ _ Hr) eq_refl).
Defined.

Lemma summary_file_is_never_created_witness :
  os_Getenv (env_summary t4 "missing.md") "GITHUB_STEP_SUMMARY" <> EmptyString /\
  files w_with_summary_file !! os_Getenv (env_summary t4 "missing.md") "GITHUB_STEP_SUMMARY"
    = None /\
  parseReport (env_summary t4 "missing.md") ["report.yaml"] w_with_summary_file
    = (Some ErrOpenSummaryFile, w_with_summary_file).
Proof.
  assert (Hne : os_Getenv (env_summary t4 "missing.md") "GITHUB_STEP_SUMMARY" <> EmptyString)
    by (vm_compute; discriminate).
  assert (Hn : files w_with_summary_file
                 !! os_Getenv (env_summary t4 "missing.md") "GITHUB_STEP_SUMMARY" = None)
    by (vm_compute; reflexivity).
  assert (Hr : readReport "report.yaml" w_with_summary_file =
               Ok (withSummary r_steps (computeSummary (env_at t3) r_steps)))
    by (vm_compute; reflexivity).
  split; [exact Hne|]. split; [exact Hn|].
  exact (proj1 (summary_file_is_never_created (env_summary t4 "missing.md")
                  "report.yaml" "payload.json" [] w_with_summary_file _
                  EmptyString payload_value Hne Hn) Hr).
Defined.

Lemma summary_renders_the_same_text_witness :
  files w_payload !! "payload.json" = Some payload_json /\
  json_Unmarshal payload_json = Some payload_value /\
  generateSummary (env_at t4) ["payload.json"] w_payload =
  (None, {| files := files w_payload; stdout := [summaryBody payload_value] |}).
Proof.
  assert (Hf : files w_payload !! "payload.json" = Some payload_json)
    by (vm_compute; reflexivity).
  assert (Hj : json_Unmarshal payload_json = Some payload_value) by (vm_compute; reflexivity).
  split; [exact Hf|]. split; [exact Hj|].
  exact (proj1 (summary_renders_the_same_text (env_at t4) "payload.json" [] _ _ _ Hf Hj)
           eq_refl).
Defined.

Lemma commands_never_delete_witness :
  let out := Execute (env_limited t4 5) stepCmd "report.yaml" ["deploy"; "passed"; "ok"]
               w_with_summary_file in
  out.1 = Some (CommandFailed ErrWriteHeader) /\
  files_kept w_with_summary_file out.2 /\
  stdout w_with_summary_file `prefix_of` stdout out.2.
Proof.
  intros out. split; [vm_compute; reflexivity|].
  apply (commands_never_delete (env_limited t4 5) stepCmd "report.yaml"
           ["deploy"; "passed"; "ok"] w_with_summary_file out.1 out.2).
  apply surjective_pairing.
Defined.

Lemma extract_succeeds_only_on_valid_contents_witness :
  let w' := (extractArtifacts (env_at t0) ["payload.json"; "out"] w_payload).2 in
  extractArtifacts (env_at t0) ["payload.json"; "out"] w_payload = (Ok tt, w') /\
  exists data payload,
    files w_payload !! "payload.json" = Some data /\
    json_Unmarshal data = Some payload /\
    forall f a, (f, a) ∈ map_order (env_at t0) (Artifacts payload) -> skipped a = false ->
      is_Some (Base64.DecodeString (Content a)).
Proof.
  intros w'.
  assert (He : extractArtifacts (env_at t0) ["payload.json"; "out"] w_payload = (Ok tt, w'))
    by (vm_compute; reflexivity).
  split; [exact He|].
  destruct (extract_succeeds_only_on_valid_contents _ _ _ _ _ _ He)
    as (data & payload & Hd & Hj & _ & Hall).
  exists data, payload. split; [exact Hd|]. split; [exact Hj|].
  intros f a Hin Hs. exact (proj1 (Hall f a Hin Hs)).
Defined.


Lemma extract_restores_encoded_artifacts_witness :
  files w_payload !! "payload.json" = Some payload_json /\
  json_Unmarshal payload_json = Some payload_value /\
  Base64Enc.EncodeToString "hello" = "aGVsbG8=" /\
  exists w',
    extractArtifacts (env_at t0) ["payload.json"; "out"] w_payload = (Ok tt, w') /\
    files w' !! "out/a.txt" = Some "hello".
Proof.
  assert (Hf : files w_payload !! "payload.json" = Some payload_json)
    by (vm_compute; reflexivity).
  assert (Hj : json_Unmarshal payload_json = Some payload_value) by (vm_compute; reflexivity).
  split; [exact Hf|]. split; [exact Hj|]. split; [vm_compute; reflexivity|].
  assert (Hone : forall f a, Artifacts payload_value !! f = Some a ->
                             f = "a.txt" /\ a = {| Content := "aGVsbG8=" |}).
  { intros f a Hfa. change (Artifacts payload_value)
      with ({[ "a.txt" := {| Content := "aGVsbG8=" |} ]} : gmap string ArtifactContent) in Hfa.
    apply lookup_singleton_Some in Hfa. destruct Hfa; auto. }
  destruct (extract_restores_encoded_artifacts (env_at t0) "payload.json" "out" [] w_payload
              payload_json payload_value (fun _ => "hello")
              Hf Hj eq_refl eq_refl (reflexivity _))
    as (w' & Hrun & Hfiles).
  - intros f a Hfa. apply Hone in Hfa as [-> ->].
    split; [vm_compute; reflexivity | reflexivity].
  - intros f f' [a Hfa] [a' Hfa'] _.
    apply Hone in Hfa as [-> _]. apply Hone in Hfa' as [-> _]. reflexivity.
  - exists w'. split; [exact Hrun|].
    apply (proj1 (Hfiles "a.txt" {| Content := "aGVsbG8=" |} (lookup_singleton_eq _ _))).
    reflexivity.
Defined.

Lemma extract_ignores_line_breaks_witness :
  let wrapped := [("a.txt", {| Content := "aGVs" +:+ newline +:+ "bG8=" |})] in
  let plain := [("a.txt", {| Content := "aGVsbG8=" |})] in
  extractLoop (env_at t0) "out" wrapped None empty_world
  = extractLoop (env_at t0) "out" plain None empty_world /\
  files (extractLoop (env_at t0) "out" wrapped None empty_world).2 !! "out/a.txt"
  = Some "hello".
Proof.
  intros wrapped plain. split; [|vm_compute; reflexivity].
  apply extract_ignores_line_breaks.
  constructor; [|constructor].
  vm_compute. auto.
Defined.

(** The test for an entry to skip is on the content as it is: a content
    that is one line break is decoded, to an empty file, and "null"
    followed by a line break to the three bytes. *)
Example line_break_only_content_is_not_skipped :
  extractLoop (env_at t0) "out"
    [("a.txt", {| Content := newline |}); ("b.bin", {| Content := "null" +:+ newline |})]
    None empty_world
  = (Ok tt,
     {| files := {[ "out/a.txt" := EmptyString;
                    "out/b.bin" := String "158" (String "233" (String "101" EmptyString)) ]};
        stdout := ["✅ Decoded: a.txt"; "✅ Decoded: b.bin"] |}).
Proof. vm_compute. reflexivity. Qed.

(** What [parse] prints for the scenario. *)
Example scenario_parse_output :
  stdout (parseReport (env_at t4) ["report.yaml"] w_final).2 =
  [ "### 📊 Test Metrics";
    "- **Overall Status**: failed";
    "- **Success Rate**: 50%";
    "- **Duration**: 12s";
    newline +:+ "#### 📋 Detailed Steps";
    "- **build**: passed _(2023-11-14T22:13:25Z)_";
    "- **test**: failed _(2023-11-14T22:13:29Z)_" ].
Proof. vm_compute. reflexivity. Qed.

End MoreExamples.
